(** * Market-data relay (src/main.py): a shallow embedding and its properties

    The relay polls two HTTP endpoints per trading pair, caches one payload
    per pair, and pushes every fresh payload to the connected WebSocket
    clients.  The development follows the source top to bottom:

    - [Py]        the Python values and builtins the source relies on
                  ([float], [in], truthiness, unpacking, [sorted], [:.2f]);
    - [Relay]     the shared state ([current_data], [connected_clients]),
                  the state-and-exception monad the coroutines run in, and
                  the coroutines [fetch_and_broadcast_data] and
                  [websocket_endpoint];
    - [Spec]      the notions the properties are stated with;
    - [Examples]  concrete replies, states and schedules;
    - the properties, first in general, then on the concrete inputs. *)

From Stdlib Require Import ZArith String Ascii List Bool Lia DecimalString.
From Stdlib Require Import Sorting.Sorted Floats.SpecFloat.
From stdpp Require Import gmap strings list sorting.

Open Scope Z_scope.

(** ** Python exceptions *)

(** The exception classes that the source names in an [except] clause or that
    the calls it makes can raise.  [ClientError] stands for
    [aiohttp.ClientError] and those of its subclasses that are not listed;
    [TimeoutError] is [asyncio.TimeoutError], which is what aiohttp raises
    when the total timeout given as [timeout=5] expires; [RuntimeError]
    stands for any other subclass of [Exception]. *)
Inductive exn :=
| ClientError
| ClientResponseError
| TimeoutError
| JSONDecodeError
| ValueError
| TypeError
| IndexError
| KeyError
| AttributeError
| OverflowError
| WebSocketDisconnect
| RuntimeError.

#[global] Instance exn_eq_dec : EqDecision exn.
Proof. solve_decision. Defined.

(** [issubclass e c]: the class hierarchy among the classes above.
    [ClientResponseError] (raised by [raise_for_status]) derives from
    [ClientError]; [json.JSONDecodeError] derives from [ValueError]. *)
Definition issubclass (e c : exn) : bool :=
  bool_decide (e = c) ||
  match e, c with
  | ClientResponseError, ClientError => true
  | JSONDecodeError, ValueError => true
  | _, _ => false
  end.

(** One [except] clause: a tuple of classes, or the catch-all
    [except Exception]. *)
Inductive clause :=
| Except (classes : list exn)
| ExceptException.

Definition clause_matches (c : clause) (e : exn) : bool :=
  match c with
  | Except classes => existsb (issubclass e) classes
  | ExceptException => true
  end.

(** A [try] statement catches [e] when one of its clauses matches. *)
Definition catches (handlers : list clause) (e : exn) : bool :=
  existsb (fun c => clause_matches c e) handlers.

(** The outcome of evaluating an expression: a value or a raised exception. *)
Inductive result (A : Type) :=
| Ok (a : A)
| Raise (e : exn).
Arguments Ok {A} a.
Arguments Raise {A} e.

#[global] Instance result_ret : MRet result := fun A a => Ok a.
#[global] Instance result_bind : MBind result := fun A B f r =>
  match r with
  | Ok a => f a
  | Raise e => Raise e
  end.

(** ** Python values and builtins *)

Module Py.

(** A Python [float] is an IEEE-754 binary64 number; the Standard Library's
    executable specification of binary64 is used for it. *)
Abbreviation float := spec_float.

Definition prec : Z := 53.
Definition emax : Z := 1024.

Definition fadd : float -> float -> float := SFadd prec emax.
Definition fsub : float -> float -> float := SFsub prec emax.
Definition fmul : float -> float -> float := SFmul prec emax.
Definition fdiv : float -> float -> float := SFdiv prec emax.
Definition fltb : float -> float -> bool := SFltb.
Definition fleb : float -> float -> bool := SFleb.

(** [float(z)] for an integer that fits; used for literals. *)
Definition of_Z (z : Z) : float := binary_normalize prec emax z 0 false.

Definition is_nan (f : float) : bool :=
  match f with
  | S754_nan => true
  | _ => false
  end.

Definition is_finite (f : float) : bool :=
  match f with
  | S754_zero _ | S754_finite _ _ _ => true
  | _ => false
  end.

(** The values [response.json()] can return. A float is a binary64 number
    in canonical form. A dict is kept as the list of its items, in
    insertion order and with distinct keys. *)
#[local] Set Warnings "-register-all".
Inductive pyval :=
| PNone
| PBool (b : bool)
| PInt (z : Z)
| PFloat (f : float)
| PStr (s : string)
| PList (l : list pyval)
| PDict (d : list (string * pyval)).

Fixpoint assoc (k : string) (d : list (string * pyval)) : option pyval :=
  match d with
  | [] => None
  | (k', v) :: d' => if String.eqb k k' then Some v else assoc k d'
  end.

(** *** [float(s)] for a string *)

Definition is_space (c : ascii) : bool :=
  let n := nat_of_ascii c in
  ((9 <=? n) && (n <=? 13) || (n =? 32))%nat.

Definition is_digit (c : ascii) : bool :=
  let n := nat_of_ascii c in
  ((48 <=? n) && (n <=? 57))%nat.

Definition digit_value (c : ascii) : Z := Z.of_nat (nat_of_ascii c) - 48.

Definition lower (c : ascii) : ascii :=
  let n := nat_of_ascii c in
  if ((65 <=? n) && (n <=? 90))%nat then ascii_of_nat (n + 32) else c.

Fixpoint lstrip (s : list ascii) : list ascii :=
  match s with
  | c :: s' => if is_space c then lstrip s' else s
  | [] => []
  end.

Definition strip (s : list ascii) : list ascii :=
  rev (lstrip (rev (lstrip s))).

Definition is_underscore (c : ascii) : bool := Ascii.eqb c "_"%char.

(** Underscores are allowed only directly between two digits; they are
    removed before the number is read. [prev] is the previous character. *)
Fixpoint drop_underscores (prev : option ascii) (s : list ascii)
  : option (list ascii) :=
  match s with
  | [] =>
      match prev with
      | Some p => if is_underscore p then None else Some []
      | None => Some []
      end
  | c :: s' =>
      if is_underscore c then
        match prev with
        | Some p => if is_digit p then drop_underscores (Some c) s' else None
        | None => None
        end
      else
        match prev with
        | Some p =>
            if is_underscore p && negb (is_digit c) then None
            else cons c <$> drop_underscores (Some c) s'
        | None => cons c <$> drop_underscores (Some c) s'
        end
  end.

(** The longest prefix of digits, and the rest. *)
Fixpoint span_digits (s : list ascii) : list ascii * list ascii :=
  match s with
  | c :: s' =>
      if is_digit c then
        let '(ds, r) := span_digits s' in (c :: ds, r)
      else ([], s)
  | [] => ([], [])
  end.

Definition digits_value (ds : list ascii) : Z :=
  fold_left (fun acc c => 10 * acc + digit_value c) ds 0.

Definition read_sign (s : list ascii) : bool * list ascii :=
  match s with
  | c :: s' =>
      if Ascii.eqb c "-"%char then (true, s')
      else if Ascii.eqb c "+"%char then (false, s')
      else (false, s)
  | [] => (false, [])
  end.

(** The optional exponent part: [e] or [E], an optional sign, and at least
    one digit, up to the end of the string. *)
Definition read_exponent (s : list ascii) : option Z :=
  match s with
  | [] => Some 0
  | c :: s' =>
      if Ascii.eqb (lower c) "e"%char then
        let '(neg, s'') := read_sign s' in
        let '(ds, r) := span_digits s'' in
        match ds, r with
        | _ :: _, [] =>
            Some (if neg then - digits_value ds else digits_value ds)
        | _, _ => None
        end
      else None
  end.

(** The binary64 number nearest to [(-1)^neg * n * 10^k] (ties to even). *)
Definition decimal_to_float (neg : bool) (n : Z) (k : Z) : float :=
  match n with
  | Zpos p =>
      if 0 <=? k then
        binary_normalize prec emax ((if neg then - n else n) * 10 ^ k) 0 false
      else
        fdiv (S754_finite neg p 0) (S754_finite false (Z.to_pos (10 ^ (- k))) 0)
  | _ => S754_zero neg
  end.

(** A decimal numeral: digits with an optional point, then an optional
    exponent; at least one digit before or after the point. *)
Definition read_decimal (neg : bool) (s : list ascii) : option float :=
  let '(ip, r) := span_digits s in
  let '(fp, r') :=
    match r with
    | c :: r1 => if Ascii.eqb c "."%char then span_digits r1 else ([], r)
    | [] => ([], [])
    end in
  match ip ++ fp with
  | [] => None
  | ds =>
      e ← read_exponent r';
      Some (decimal_to_float neg (digits_value ds) (e - Z.of_nat (length fp)))
  end.

(** [float(s)]: surrounding whitespace is dropped; then a sign and one of
    [inf], [infinity], [nan] in any case, or a decimal numeral. [None]
    stands for [ValueError]. Strings are read as ASCII; the digits and
    spaces of other scripts, which Python also accepts, are not. *)
Definition float_of_string (s : string) : option float :=
  body ← drop_underscores None (strip (list_ascii_of_string s));
  let '(neg, r) := read_sign body in
  let word := string_of_list_ascii (map lower r) in
  if String.eqb word "inf" || String.eqb word "infinity" then
    Some (S754_infinity neg)
  else if String.eqb word "nan" then Some S754_nan
  else read_decimal neg r.

(** *** [float(x)] *)

(** [float] of a string parses it ([ValueError] when it is no numeral); of an
    [int] it rounds, raising [OverflowError] when the integer is too large;
    of a [float] it is the identity; [None], lists and dicts raise
    [TypeError]. *)
Definition float_of (v : pyval) : result float :=
  match v with
  | PFloat f => Ok f
  | PInt z =>
      let f := of_Z z in
      if is_finite f then Ok f else Raise OverflowError
  | PBool b => Ok (if b then of_Z 1 else S754_zero false)
  | PStr s =>
      match float_of_string s with
      | Some f => Ok f
      | None => Raise ValueError
      end
  | PNone | PList _ | PDict _ => Raise TypeError
  end.

(** *** Truth value, [in], subscription, [.get], unpacking *)

(** [bool(v)], as [not v] and [if v] use it. *)
Definition truthy (v : pyval) : bool :=
  match v with
  | PNone => false
  | PBool b => b
  | PInt z => negb (z =? 0)
  | PFloat f =>
      match f with
      | S754_zero _ => false
      | _ => true
      end
  | PStr s => negb (String.eqb s "")
  | PList l =>
      match l with
      | [] => false
      | _ => true
      end
  | PDict d =>
      match d with
      | [] => false
      | _ => true
      end
  end.

Definition is_substring (k s : string) : bool :=
  match String.index 0 k s with
  | Some _ => true
  | None => false
  end.

Definition is_str (k : string) (v : pyval) : bool :=
  match v with
  | PStr s => String.eqb k s
  | _ => false
  end.

(** [k in v] for a string [k]: key membership in a dict, element membership
    in a list, substring test in a string; the other values are not
    iterable. *)
Definition contains (k : string) (v : pyval) : result bool :=
  match v with
  | PDict d =>
      Ok match assoc k d with
         | Some _ => true
         | None => false
         end
  | PList l => Ok (existsb (is_str k) l)
  | PStr s => Ok (is_substring k s)
  | PNone | PBool _ | PInt _ | PFloat _ => Raise TypeError
  end.

(** [v[k]] for a string [k]: only a dict can be indexed by a string. *)
Definition getitem (v : pyval) (k : string) : result pyval :=
  match v with
  | PDict d =>
      match assoc k d with
      | Some x => Ok x
      | None => Raise KeyError
      end
  | _ => Raise TypeError
  end.

(** [v.get(k, default)]: only a dict has the method. *)
Definition get (v : pyval) (k : string) (default : pyval) : result pyval :=
  match v with
  | PDict d =>
      Ok match assoc k d with
         | Some x => x
         | None => default
         end
  | _ => Raise AttributeError
  end.

(** [iter(v)]: the elements of a list, the characters of a string, the keys
    of a dict. *)
Definition iterate (v : pyval) : result (list pyval) :=
  match v with
  | PList l => Ok l
  | PStr s =>
      Ok (map (fun c => PStr (String c EmptyString)) (list_ascii_of_string s))
  | PDict d => Ok (map (fun kv => PStr (fst kv)) d)
  | PNone | PBool _ | PInt _ | PFloat _ => Raise TypeError
  end.

(** [p, a = v]: [TypeError] when [v] is not iterable, [ValueError] when it
    does not have exactly two elements. *)
Definition unpack2 (v : pyval) : result (pyval * pyval) :=
  l ← iterate v;
  match l with
  | [p; a] => Ok (p, a)
  | _ => Raise ValueError
  end.

(** *** [sorted] and slicing *)

Section Sorted.
Context {A : Type} (key : A -> float).

(** Python's sort is stable and compares keys with [<] only. When [<] is a
    strict weak order on the keys -- for floats: when none is NaN -- there
    is one stable sorted arrangement, and every stable sort returns it;
    the insertion sort below is one. With a NaN among the keys the result
    of Python's sort depends on its algorithm, and the two need not
    agree.

    [acc] is the sorted prefix, last element first. The new element moves
    left past every element whose key is greater, and stops at the first
    one that is not: elements with equal keys keep their order. *)
Fixpoint insert (x : A) (acc : list A) : list A :=
  match acc with
  | [] => [x]
  | y :: acc' =>
      if fltb (key x) (key y) then y :: insert x acc' else x :: acc
  end.

Definition sort (l : list A) : list A :=
  rev (fold_left (fun acc x => insert x acc) l []).

(** [sorted(l, key=key, reverse=reverse)]. With [reverse=True] the list is
    reversed, sorted the same way, and reversed again. *)
Definition sorted (l : list A) (reverse : bool) : list A :=
  if reverse then rev (sort (rev l)) else sort l.

End Sorted.

(** *** [f"{x:.2f}"] *)

(** The integer nearest to [num / den], ties to the even one. *)
Definition round_half_even (num den : Z) : Z :=
  let q := num / den in
  let r := num mod den in
  match 2 * r ?= den with
  | Lt => q
  | Gt => q + 1
  | Eq => if Z.even q then q else q + 1
  end.

(** [m * 2^e * 100], rounded to an integer. *)
Definition hundredths (m : positive) (e : Z) : Z :=
  if 0 <=? e then 100 * Zpos m * 2 ^ e
  else round_half_even (100 * Zpos m) (2 ^ (- e)).

Definition decimal (n : Z) : string :=
  NilZero.string_of_uint (N.to_uint (Z.to_N n)).

Definition digit (d : Z) : ascii := ascii_of_nat (48 + Z.to_nat d).

Definition sign (s : bool) : string := if s then "-" else "".

(** The exact value of the float is rounded to two decimals, ties to even;
    the sign is kept even when the digits are all zero. *)
Definition format_2f (f : float) : string :=
  match f with
  | S754_nan => "nan"
  | S754_infinity s => sign s ++ "inf"
  | S754_zero s => sign s ++ "0.00"
  | S754_finite s m e =>
      let n := hundredths m e in
      sign s ++ decimal (n / 100) ++ "."
        ++ String (digit (n mod 100 / 10))
             (String (digit (n mod 10)) EmptyString)
  end.

(** *** [str.lower] and [str.replace] *)

(** [s.lower()], on ASCII strings. *)
Definition str_lower (s : string) : string :=
  string_of_list_ascii (map lower (list_ascii_of_string s)).

(** [s.replace(old, new)] for two one-character strings. *)
Definition str_replace (old new : ascii) (s : string) : string :=
  string_of_list_ascii
    (map (fun c => if Ascii.eqb c old then new else c)
       (list_ascii_of_string s)).

Definition is_upper (c : ascii) : bool :=
  let n := nat_of_ascii c in
  ((65 <=? n) && (n <=? 90))%nat.

End Py.

(** ** The relay *)

Module Relay.
Import Py.

(** *** Configuration *)

Definition FETCH_INTERVAL : Z := 2.
Definition ORDER_BOOK_LIMIT : nat := 10.

Definition CURRENCY_PAIRS : list string :=
  ["BTC/IDR"; "USDT/IDR"; "ETH/IDR"; "DOGE/IDR";
   "XRP/IDR"; "ETC/IDR"; "ADA/IDR"; "SOL/IDR"]%string.

(** *** The endpoints of a symbol *)

Definition INDODAX_API_URL_BASE : string := "https://indodax.com/api/".

(** [symbol.lower().replace('/', '_')]. *)
Definition pair_path (symbol : string) : string :=
  str_replace "/" "_" (str_lower symbol).

(** Lines 51 and 52. *)
Definition ticker_endpoint (symbol : string) : string :=
  (INDODAX_API_URL_BASE ++ pair_path symbol ++ "/ticker")%string.

Definition depth_endpoint (symbol : string) : string :=
  (INDODAX_API_URL_BASE ++ pair_path symbol ++ "/depth")%string.

(** *** Data *)

(** A price level [[float(p), float(a)]]. *)
Definition order : Type := float * float.

Record book := {
  buy_orders : list order;
  sell_orders : list order
}.

(** The dict built at lines 107-119. *)
Record payload := {
  symbol : string;
  price : float;
  high_price : float;
  low_price : float;
  percentage_change : string;
  volume_24h : float;
  order_book : book;
  timestamp : string
}.

(** A value of [current_data]: the initial [{}] or a payload. *)
Inductive entry :=
| Empty
| Filled (p : payload).

(** A WebSocket object, by identity. *)
Definition ws : Type := nat.

(** One call of [send_text]: the receiver, the text, and whether the call
    returned (the text was delivered) or raised. *)
Record send_event := {
  receiver : ws;
  text : string;
  delivered : bool
}.

(** The state shared by all coroutines: the two globals, and the calls of
    [send_text] made so far, oldest first. *)
Record world := {
  current_data : gmap string entry;
  connected_clients : gset ws;
  sent : list send_event
}.

(** [current_data = {symbol: {} for symbol in CURRENCY_PAIRS}] and
    [connected_clients = set()]. *)
Definition initial : world := {|
  current_data := list_to_map (map (fun s => (s, Empty)) CURRENCY_PAIRS);
  connected_clients := ∅;
  sent := []
|}.

(** *** The monad of a coroutine: shared state and exceptions *)

Definition M (A : Type) : Type := world -> world * result A.

#[global] Instance M_ret : MRet M := fun A a w => (w, Ok a).
#[global] Instance M_bind : MBind M := fun A B f m w =>
  match m w with
  | (w', Ok a) => f a w'
  | (w', Raise e) => (w', Raise e)
  end.

Definition lift {A} (r : result A) : M A := fun w => (w, r).

Definition skip : M unit := mret tt.

(** [try: body  except ...: handler]. *)
Definition try_except {A} (body : M A) (handlers : list clause)
    (handler : exn -> M A) : M A := fun w =>
  match body w with
  | (w', Raise e) => if catches handlers e then handler e w' else (w', Raise e)
  | done => done
  end.

(** [try: body  finally: final]. *)
Definition try_finally {A} (body : M A) (final : M unit) : M A := fun w =>
  let '(w', r) := body w in
  match final w' with
  | (w'', Ok _) => (w'', r)
  | (w'', Raise e) => (w'', Raise e)
  end.

(** The state a coroutine leaves behind. *)
Definition exec {A} (m : M A) (w : world) : world := fst (m w).

(** *** Operations on the globals *)

(** [current_data[symbol] = payload]. *)
Definition store (symbol : string) (p : payload) : M unit := fun w =>
  ({| current_data := <[symbol := Filled p]> (current_data w);
      connected_clients := connected_clients w;
      sent := sent w |}, Ok tt).

(** [current_data[symbol]]: a missing key raises [KeyError]. *)
Definition load (symbol : string) : M entry := fun w =>
  match current_data w !! symbol with
  | Some e => (w, Ok e)
  | None => (w, Raise KeyError)
  end.

(** [connected_clients.add(websocket)]. *)
Definition add (websocket : ws) : M unit := fun w =>
  ({| current_data := current_data w;
      connected_clients := {[websocket]} ∪ connected_clients w;
      sent := sent w |}, Ok tt).

(** [connected_clients.remove(websocket)]: [set.remove] raises [KeyError]
    when the element is not in the set. *)
Definition remove (websocket : ws) : M unit := fun w =>
  if decide (websocket ∈ connected_clients w) then
    ({| current_data := current_data w;
        connected_clients := connected_clients w ∖ {[websocket]};
        sent := sent w |}, Ok tt)
  else (w, Raise KeyError).

(** [websocket in connected_clients]. *)
Definition connected (websocket : ws) : M bool := fun w =>
  (w, Ok (bool_decide (websocket ∈ connected_clients w))).

(** [list(connected_clients)]. *)
Definition snapshot : M (list ws) := fun w =>
  (w, Ok (elements (connected_clients w))).

Definition record (ev : send_event) (w : world) : world :=
  {| current_data := current_data w;
     connected_clients := connected_clients w;
     sent := sent w ++ [ev] |}.

(** *** What a coroutine gets from outside *)

(** The answer to one [session.get]: the request or the reading of the body
    raised (a connection error, or [TimeoutError] after 5 seconds), or a
    response came back with a status and with what [response.json()] gives
    for its body. *)
Inductive http_reply :=
| RequestRaised (e : exn)
| Response (status : Z) (json : result pyval).

(** A coroutine is suspended at each [await]; the other coroutines run in
    the meantime. Lines 54-119 touch no shared state, so only the awaits on
    a WebSocket matter: [meanwhile c m] is what the other coroutines do to
    the shared state while [send_text(m)] to [c] is pending, and
    [send_outcome c m] is how that call ends ([None]: it returns). In
    [inbound], one element per text received by [receive_text]: what the
    others do while the endpoint waits for it; then [receive_text] raises
    [hangup].

    The messages of lines 142 and 102 hold [await response.text() if
    'response' in locals() else 'N/A']; [ticker_text] and [depth_text] are
    how this expression ends when the handler evaluates it: [None], it has
    a value (['N/A'], or the text of the body); [Some e], [text()] raises
    [e] -- [json()] decodes the body stripped of white space and [text()]
    the whole body, so a body can pass the first and fail the second. The
    body has been read by then, so [text()] does not wait. Every [print]
    is taken to return. *)
Record env := {
  ticker_reply : http_reply;
  depth_reply : http_reply;
  ticker_text : option exn;
  depth_text : option exn;
  now : string;
  accept_outcome : option exn;
  send_outcome : ws -> string -> option exn;
  meanwhile : ws -> string -> world -> world;
  inbound : list (world -> world);
  hangup : exn
}.

Section Coroutines.

(** [json.dumps] on a payload. *)
Variable json_dumps : payload -> string.

(** [await websocket.send_text(message)]. *)
Definition send_text (E : env) (websocket : ws) (message : string) : M unit :=
  fun w =>
    let outcome := send_outcome E websocket message in
    let w1 := record {| receiver := websocket; text := message;
                        delivered := bool_decide (outcome = None) |} w in
    (meanwhile E websocket message w1,
     match outcome with
     | None => Ok tt
     | Some e => Raise e
     end).

(** *** [fetch_and_broadcast_data] *)

(** [async with session.get(url, timeout=5) as r: r.raise_for_status();
    data = await r.json()]. [raise_for_status] raises for the 4xx and 5xx
    statuses. *)
Definition get_json (r : http_reply) : result pyval :=
  match r with
  | RequestRaised e => Raise e
  | Response status json =>
      if 400 <=? status then Raise ClientResponseError else json
  end.

Definition zero : float := S754_zero false.

(** Lines 72-77. *)
Definition compute_percentage_change (new_price low_price high_price : float)
  : float :=
  if fltb zero new_price && fltb zero low_price then
    fmul (fdiv (fsub new_price low_price) low_price) (of_Z 100)
  else if fltb zero new_price && fltb zero high_price then
    fmul (fdiv (fsub new_price high_price) high_price) (of_Z 100)
  else zero.

(** The locals set by lines 65-77. *)
Record ticker := {
  t_new_price : float;
  t_high_price : float;
  t_low_price : float;
  t_volume_24h : float;
  t_percentage_change : float
}.

(** Lines 65-77, on [tk = data_ticker['ticker']]. *)
Definition read_ticker (tk : pyval) : result ticker :=
  new_price ← get tk "last" (PFloat zero) ≫= float_of;
  high_price ← get tk "high" (PFloat zero) ≫= float_of;
  low_price ← get tk "low" (PFloat zero) ≫= float_of;
  volume ← get tk "volume" (PFloat zero);
  volume_24h ← get tk "vol_idr" volume ≫= float_of;
  Ok {| t_new_price := new_price;
        t_high_price := high_price;
        t_low_price := low_price;
        t_volume_24h := volume_24h;
        t_percentage_change :=
          compute_percentage_change new_price low_price high_price |}.

(** [not data_ticker or 'ticker' not in data_ticker], negated. *)
Definition has_ticker (data_ticker : pyval) : result bool :=
  if truthy data_ticker then contains "ticker" data_ticker else Ok false.

(** Lines 56-77. [Ok None] is the [return] of line 62. *)
Definition ticker_stage (r : http_reply) : result (option ticker) :=
  data_ticker ← get_json r;
  valid ← has_ticker data_ticker;
  if valid : bool then
    tk ← getitem data_ticker "ticker";
    t ← read_ticker tk;
    Ok (Some t)
  else Ok None.

(** [[[float(p), float(a)] for p, a in entries]]. *)
Fixpoint parse_orders (entries : list pyval) : result (list order) :=
  match entries with
  | [] => Ok []
  | e :: rest =>
      '(p, a) ← unpack2 e;
      fp ← float_of p;
      fa ← float_of a;
      os ← parse_orders rest;
      Ok ((fp, fa) :: os)
  end.

(** One of the two [if] statements of lines 89-97: [k in data_depth and
    isinstance(data_depth[k], list)], then the assignment. [Ok (Some os)]
    assigns the side; [Ok None] is the [else] branch, which leaves it as it
    is. *)
Definition side (data_depth : pyval) (k : string) (reverse : bool)
  : result (option (list order)) :=
  has ← contains k data_depth;
  if has : bool then
    v ← getitem data_depth k;
    match v with
    | PList entries =>
        os ← parse_orders entries;
        Ok (Some (take ORDER_BOOK_LIMIT (sorted fst os reverse)))
    | _ => Ok None
    end
  else Ok None.

(** The body of the inner [try] (lines 85-97): the values of [buy_orders]
    and [sell_orders] when it ends, and how it ends. Both start empty
    (lines 81-82). *)
Definition depth_body (r : http_reply) : book * result unit :=
  let empty := {| buy_orders := []; sell_orders := [] |} in
  match get_json r with
  | Raise e => (empty, Raise e)
  | Ok data_depth =>
      match side data_depth "buy" true with
      | Raise e => (empty, Raise e)
      | Ok b =>
          let buy := default [] b in
          match side data_depth "sell" false with
          | Raise e => ({| buy_orders := buy; sell_orders := [] |}, Raise e)
          | Ok s =>
              ({| buy_orders := buy; sell_orders := default [] s |}, Ok tt)
          end
      end
  end.

(** The [except] clauses of lines 99, 101 and 103. *)
Definition depth_handlers : list clause :=
  [Except [ClientError]; Except [JSONDecodeError];
   Except [TypeError; IndexError; ValueError]].

(** How an expression that may raise ends. *)
Definition raising (outcome : option exn) : result unit :=
  match outcome with
  | None => Ok tt
  | Some e => Raise e
  end.

(** The bodies of these clauses, for the first clause that matches: each
    prints a message, and the message of line 102 reads the body of the
    response. *)
Definition depth_handler (E : env) (e : exn) : result unit :=
  if clause_matches (Except [ClientError]) e then Ok tt
  else if clause_matches (Except [JSONDecodeError]) e then
    raising (depth_text E)
  else Ok tt.

(** Lines 81-104. An exception raised in a handler leaves the [try]
    statement. *)
Definition depth_stage (E : env) : result book :=
  let '(ob, outcome) := depth_body (depth_reply E) in
  match outcome with
  | Ok _ => Ok ob
  | Raise e =>
      if catches depth_handlers e then
        _ ← depth_handler E e;
        Ok ob
      else Raise e
  end.

(** Lines 107-119. *)
Definition make_payload (symbol : string) (t : ticker) (ob : book)
    (timestamp : string) : payload :=
  {| symbol := symbol;
     price := t_new_price t;
     high_price := t_high_price t;
     low_price := t_low_price t;
     percentage_change := format_2f (t_percentage_change t);
     volume_24h := t_volume_24h t;
     order_book := ob;
     timestamp := timestamp |}.

(** Lines 122 and 123: [side[0][0] if side else 0.0]. *)
Definition best_price (side : list order) : float :=
  match side with
  | (p, _) :: _ => p
  | [] => zero
  end.

(** The [except] clauses of lines 132 and 135; both remove the client. *)
Definition send_handlers : list clause :=
  [Except [WebSocketDisconnect]; ExceptException].

(** Lines 129-137, over [clients = list(connected_clients)]. *)
Fixpoint broadcast (E : env) (message : string) (clients : list ws) : M unit :=
  match clients with
  | [] => skip
  | client_ws :: rest =>
      try_except (send_text E client_ws message) send_handlers
        (fun _ => remove client_ws);;
      broadcast E message rest
  end.

(** Lines 120-137. *)
Definition publish (E : env) (symbol : string) (p : payload) : M unit :=
  store symbol p;;
  let message := json_dumps p in
  clients ← snapshot;
  broadcast E message clients.

(** The [except] clauses of lines 139-148. *)
Definition fetch_handlers : list clause :=
  [Except [ClientError]; Except [JSONDecodeError]; Except [TypeError];
   Except [ValueError]; ExceptException].

(** The bodies of these clauses, for the first clause that matches: each
    prints a message, and the message of line 142 reads the body of the
    response. An exception raised here leaves the coroutine. *)
Definition fetch_handler (E : env) (e : exn) : M unit :=
  if clause_matches (Except [ClientError]) e then skip
  else if clause_matches (Except [JSONDecodeError]) e then
    lift (raising (ticker_text E))
  else skip.

(** The payload of this call, if it gets as far as building one
    (lines 54-119). *)
Definition fetch (E : env) (symbol : string) : result (option payload) :=
  t ← ticker_stage (ticker_reply E);
  match t with
  | None => Ok None
  | Some t =>
      ob ← depth_stage E;
      Ok (Some (make_payload symbol t ob (now E)))
  end.

Definition fetch_and_broadcast_data (E : env) (symbol : string) : M unit :=
  try_except
    (p ← lift (fetch E symbol);
     match p with
     | None => skip
     | Some p => publish E symbol p
     end)
    fetch_handlers
    (fetch_handler E).

(** *** [producer_task] *)

(** One turn of the loop of lines 162-165: a call per configured symbol,
    [E symbol] being what the call for [symbol] gets from outside. The
    calls are taken to complete in the order of [symbols]; what the other
    calls do while one is suspended is in its [meanwhile]. A call that
    raises does not stop the others: [asyncio.gather] lets them run on,
    and raises the first exception. *)
Fixpoint gather (E : string -> env) (symbols : list string) : M unit :=
  match symbols with
  | [] => skip
  | symbol :: rest => fun w =>
      let '(w1, first) := fetch_and_broadcast_data (E symbol) symbol w in
      let '(w2, others) := gather E rest w1 in
      (w2, match first with
           | Ok _ => others
           | Raise e => Raise e
           end)
  end.

Definition producer_cycle (E : string -> env) : M unit :=
  gather E CURRENCY_PAIRS.

(** Lines 162-165, for [n] turns of the loop starting with turn [k]:
    [E k] is what the calls of turn [k] get from outside, and [idle k] is
    what the other coroutines do during the sleep that follows it. *)
Fixpoint turns (E : nat -> string -> env) (idle : nat -> world -> world)
    (k n : nat) : M unit :=
  match n with
  | O => skip
  | S n' =>
      producer_cycle (E k);;
      (fun w => (idle k w, Ok tt));;
      turns E idle (S k) n'
  end.

(** The first [n] turns of [producer_task]; the loop itself has no end. *)
Definition producer_task (E : nat -> string -> env)
    (idle : nat -> world -> world) (n : nat) : M unit :=
  turns E idle O n.

(** *** [websocket_endpoint] *)

(** [await websocket.accept()]. *)
Definition accept (E : env) : M unit :=
  lift match accept_outcome E with
       | None => Ok tt
       | Some e => Raise e
       end.

(** Lines 189-191. The empty dict is false, a payload is true. *)
Fixpoint replay (E : env) (websocket : ws) (symbols : list string) : M unit :=
  match symbols with
  | [] => skip
  | symbol :: rest =>
      e ← load symbol;
      match e with
      | Filled p => send_text E websocket (json_dumps p)
      | Empty => skip
      end;;
      replay E websocket rest
  end.

(** Lines 196-200: the loop ends only when [receive_text] raises. *)
Definition receive_loop (E : env) : M unit := fun w =>
  (fold_left (fun w' others => others w') (inbound E) w, Raise (hangup E)).

(** The [except] clauses of lines 201 and 203; each only prints. *)
Definition endpoint_handlers : list clause :=
  [Except [WebSocketDisconnect]; ExceptException].

(** Lines 205-209. *)
Definition cleanup (websocket : ws) : M unit :=
  present ← connected websocket;
  if present : bool then remove websocket else skip.

Definition websocket_endpoint (E : env) (websocket : ws) : M unit :=
  accept E;;
  add websocket;;
  try_finally
    (try_except (replay E websocket CURRENCY_PAIRS;; receive_loop E)
       endpoint_handlers (fun _ => skip))
    (cleanup websocket).

End Coroutines.

End Relay.

(** ** Notions the properties are stated with *)

Module Spec.
Import Py Relay.

(** No other coroutine runs while a send of [E] is pending. *)
Definition quiet (E : env) : Prop :=
  forall c m w, meanwhile E c m w = w.

(** The ways the ticker stage can fail: the request raises (a network
    error, a timeout); the status is 4xx or 5xx; the body does not decode;
    the decoded value is empty or has no [ticker]; a number of the ticker
    does not parse. *)
Inductive ticker_failure : http_reply -> Prop :=
| failure_request e :
    ticker_failure (RequestRaised e)
| failure_status status json :
    400 <= status ->
    ticker_failure (Response status json)
| failure_decode status e :
    ticker_failure (Response status (Raise e))
| failure_missing status data :
    truthy data = false \/ contains "ticker" data = Ok false ->
    ticker_failure (Response status (Ok data))
| failure_parse status data tk e :
    getitem data "ticker" = Ok tk ->
    read_ticker tk = Raise e ->
    ticker_failure (Response status (Ok data)).

(** The record a send leaves in [sent]. *)
Definition attempt (E : env) (message : string) (c : ws) : send_event :=
  {| receiver := c; text := message;
     delivered := bool_decide (send_outcome E c message = None) |}.

(** The clients of a list to which sending [message] fails. *)
Definition failing (E : env) (message : string) (clients : list ws) : list ws :=
  filter (fun c => send_outcome E c message <> None) clients.

(** The state after [p] is cached under [symbol] and [message] is sent once
    to every client registered in [w], those whose send fails being
    removed. *)
Definition published (E : env) (symbol : string) (p : payload)
    (message : string) (w : world) : world :=
  let clients := elements (connected_clients w) in
  {| current_data := <[symbol := Filled p]> (current_data w);
     connected_clients :=
       connected_clients w ∖ list_to_set (failing E message clients);
     sent := sent w ++ map (attempt E message) clients |}.

(** The exceptions of a parse error in a price level: [float] of a string
    that is no numeral, or a level that is not a pair, raises [ValueError];
    [float] of [None], a list or a dict, or a level that is not iterable,
    raises [TypeError]. *)
Definition parse_error (e : exn) : Prop :=
  e = ValueError \/ e = TypeError.

(** One turn of the loop of lines 129-137. *)
Definition deliver (E : env) (message : string) (c : ws) : M unit :=
  try_except (send_text E c message) send_handlers (fun _ => remove c).

(** The floats that are not NaN are totally ordered; the three functions
    below map such a float to a triple of integers whose lexicographic
    order is the order of the floats. *)
Definition rank_class (f : float) : Z :=
  match f with
  | S754_infinity true => -2
  | S754_finite true _ _ => -1
  | S754_finite false _ _ => 1
  | S754_infinity false => 2
  | _ => 0
  end.

Definition rank_exponent (f : float) : Z :=
  match f with
  | S754_finite true _ e => - e
  | S754_finite false _ e => e
  | _ => 0
  end.

Definition rank_mantissa (f : float) : Z :=
  match f with
  | S754_finite true m _ => Zneg m
  | S754_finite false m _ => Zpos m
  | _ => 0
  end.

Definition rank_le (x y : float) : Prop :=
  rank_class x < rank_class y \/
  (rank_class x = rank_class y /\
   (rank_exponent x < rank_exponent y \/
    (rank_exponent x = rank_exponent y /\ rank_mantissa x <= rank_mantissa y))).

(** A list of price levels whose prices never increase, or never decrease,
    from one level to any later one. *)
Definition non_increasing (l : list order) : Prop :=
  StronglySorted (fun a b => fleb (fst b) (fst a) = true) l.

Definition non_decreasing (l : list order) : Prop :=
  StronglySorted (fun a b => fleb (fst a) (fst b) = true) l.

(** The levels that parse from one side of a depth body, and the prices
    that parse from a depth reply. *)
Definition parsed_side (data : pyval) (k : string) : list order :=
  match getitem data k with
  | Ok (PList entries) =>
      match parse_orders entries with
      | Ok os => os
      | Raise _ => []
      end
  | _ => []
  end.

Definition depth_prices (r : http_reply) : list float :=
  match get_json r with
  | Ok data => map fst (parsed_side data "buy" ++ parsed_side data "sell")
  | Raise _ => []
  end.

(** The prices that parse from one side of a depth reply. *)
Definition side_prices (r : http_reply) (k : string) : list float :=
  match get_json r with
  | Ok data => map fst (parsed_side data k)
  | Raise _ => []
  end.

(** What one side of the order book of a payload can be: empty, or the
    first [ORDER_BOOK_LIMIT] of the sorted levels parsed from the list
    under key [k]. *)
Definition side_of (r : http_reply) (k : string) (reverse : bool)
    (l : list order) : Prop :=
  l = [] \/
  exists data entries os,
    get_json r = Ok data /\
    getitem data k = Ok (PList entries) /\
    parse_orders entries = Ok os /\
    l = take ORDER_BOOK_LIMIT (sorted fst os reverse).

(** A string with exactly two decimal places: an optional minus sign, the
    digits of a natural number, a point, and two digits. *)
Definition two_decimals (s : string) : Prop :=
  exists (neg : bool) (n : Z) (d1 d2 : ascii),
    0 <= n /\
    is_digit d1 = true /\ is_digit d2 = true /\
    s = (sign neg ++ decimal n ++ "."
           ++ String d1 (String d2 EmptyString))%string.

(** *** The states the program can be in *)

(** The atomic changes of the shared state that the program makes: line 120
    (the producer calls [fetch_and_broadcast_data] with the configured
    symbols only, line 164), lines 185, 134, 137 and 208, and a call of
    [send_text]. A [remove] of an absent client changes nothing. *)
Inductive step : world -> world -> Prop :=
| step_store symbol p w :
    symbol ∈ CURRENCY_PAIRS ->
    step w (exec (store symbol p) w)
| step_add c w :
    step w (exec (add c) w)
| step_remove c w :
    step w (exec (remove c) w)
| step_send ev w :
    step w (record ev w).

(** The states reached from the initial one, at any point of any
    interleaving of the coroutines. *)
Definition reachable (w : world) : Prop := rtc step initial w.

(** What the other coroutines do while a coroutine of [E] is suspended is
    made of steps of the program. *)
Definition cooperative (E : env) : Prop :=
  (forall c m w, rtc step w (meanwhile E c m w)) /\
  Forall (fun others => forall w, rtc step w (others w)) (inbound E).

(** A coroutine that only makes steps of the program. *)
Definition moves {A} (m : M A) : Prop :=
  forall w, rtc step w (fst (m w)).

(** The text replayed for a symbol: the serialisation of its cached
    payload, if it has one. *)
Definition replay_text (json_dumps : payload -> string) (w : world)
    (symbol : string) : option string :=
  match current_data w !! symbol with
  | Some (Filled p) => Some (json_dumps p)
  | _ => None
  end.

(** One text per configured symbol that has a cached payload, in the
    configured order. *)
Definition replayed (json_dumps : payload -> string) (w : world)
  : list string :=
  omap (replay_text json_dumps w) CURRENCY_PAIRS.

(** The messages delivered to a client, oldest first. *)
Definition inbox (c : ws) (w : world) : list string :=
  map text (filter (fun ev => receiver ev = c /\ delivered ev = true) (sent w)).

(** The state of a connection that has just been replayed: the client is
    registered, and the replayed texts were delivered to it. *)
Definition replayed_to (json_dumps : payload -> string) (websocket : ws)
    (w : world) : world :=
  {| current_data := current_data w;
     connected_clients := {[websocket]} ∪ connected_clients w;
     sent := sent w ++
             map (fun m => {| receiver := websocket; text := m;
                              delivered := true |})
                 (replayed json_dumps w) |}.

(** The symbol has a cached payload. *)
Definition has_payload (w : world) (s : string) : bool :=
  match current_data w !! s with
  | Some (Filled _) => true
  | _ => false
  end.

(** The configured symbols that have a cached payload, in the configured
    order. *)
Definition cached (w : world) : list string :=
  filter (fun s => has_payload w s = true) CURRENCY_PAIRS.

(** The calls of [send_text] that the loop of lines 189-191 makes when
    every send succeeds, each with the symbol it is made for: a symbol
    has a call if it has a cached payload when the loop reaches it, and
    the loop goes on in the state that the send leaves. *)
Fixpoint replay_trace (json_dumps : payload -> string) (E : env) (c : ws)
    (symbols : list string) (w : world) : list (string * string) :=
  match symbols with
  | [] => []
  | s :: rest =>
      match current_data w !! s with
      | Some (Filled p) =>
          (s, json_dumps p) ::
          replay_trace json_dumps E c rest
            (exec (send_text E c (json_dumps p)) w)
      | _ => replay_trace json_dumps E c rest w
      end
  end.

(** The state after [texts] were sent to [c] one after the other, each
    send followed by what the other coroutines do while it is pending. *)
Definition after_sends (E : env) (c : ws) (texts : list string) (w : world)
  : world :=
  fold_left (fun w' m => exec (send_text E c m) w') texts w.

(** *** Notions for the further properties *)

(** [d.get(k, default)] on the items of a dict. *)
Definition chosen (d : list (string * pyval)) (k : string) (default : pyval)
  : pyval :=
  match assoc k d with
  | Some v => v
  | None => default
  end.

(** The value that line 69 converts: [vol_idr] if the ticker has it, else
    [volume] if it has that, else [0.0]. *)
Definition volume_source (d : list (string * pyval)) : pyval :=
  chosen d "vol_idr" (chosen d "volume" (PFloat zero)).

(** A string of ASCII characters, on which [str_lower] is [str.lower]. *)
Definition ascii_only (s : string) : Prop :=
  Forall (fun c => (nat_of_ascii c < 128)%nat) (list_ascii_of_string s).

(** The key is missing from the depth body, or what it holds is not a
    list. *)
Definition absent (data : pyval) (k : string) : Prop :=
  contains k data = Ok false \/
  exists v, getitem data k = Ok v /\ forall l, v <> PList l.

(** [a] may come before [b] in a side sorted with [reverse]. *)
Definition before (reverse : bool) (a b : order) : Prop :=
  if reverse then fleb (fst b) (fst a) = true
  else fleb (fst a) (fst b) = true.

(** [kept] holds the best levels of [os]: together with the levels left
    out it is a rearrangement of [os], it has [ORDER_BOOK_LIMIT] levels or
    all of them, and no level left out is better than a level kept. *)
Definition best_of (reverse : bool) (os kept : list order) : Prop :=
  exists dropped,
    kept ++ dropped ≡ₚ os /\
    length kept = Nat.min ORDER_BOOK_LIMIT (length os) /\
    forall k d, k ∈ kept -> d ∈ dropped -> before reverse k d.

(** Two floats that compare equal; a NaN equals nothing. *)
Definition same_price (x y : float) : bool :=
  fleb x y && fleb y x.

(** The levels of a side at the price [k], in the order of the side. *)
Definition at_price (k : float) (l : list order) : list order :=
  filter (fun o : order => same_price (fst o) k = true) l.

(** A payload as [fetch_and_broadcast_data] builds them for [s]. *)
Definition well_formed (s : string) (p : payload) : Prop :=
  symbol p = s /\
  (length (buy_orders (order_book p)) <= ORDER_BOOK_LIMIT)%nat /\
  (length (sell_orders (order_book p)) <= ORDER_BOOK_LIMIT)%nat /\
  exists pc, percentage_change p = format_2f pc.

(** Every cached payload is well formed for the symbol it is cached
    under. *)
Definition coherent (w : world) : Prop :=
  forall s p, current_data w !! s = Some (Filled p) -> well_formed s p.

(** A property of the state that the other coroutines keep while a
    coroutine of [E] is suspended. *)
Definition respected (I : world -> Prop) (E : env) : Prop :=
  (forall c m w, I w -> I (meanwhile E c m w)) /\
  Forall (fun others => forall w, I w -> I (others w)) (inbound E).

(** A coroutine that keeps a property of the state. *)
Definition keeps {A} (I : world -> Prop) (m : M A) : Prop :=
  forall w, I w -> I (fst (m w)).

(** The symbol has a cached payload. *)
Definition filled (s : string) (w : world) : Prop :=
  exists p, current_data w !! s = Some (Filled p).

(** The calls of [send_text] of a replay of [texts] to [c]: one per text,
    up to and including the first that fails. *)
Fixpoint replay_events (E : env) (c : ws) (texts : list string)
  : list send_event :=
  match texts with
  | [] => []
  | m :: rest =>
      attempt E m c ::
      match send_outcome E c m with
      | None => replay_events E c rest
      | Some _ => []
      end
  end.

(** The text that the call for [s] broadcasts, if it builds a payload. *)
Definition live_text (json_dumps : payload -> string) (E : string -> env)
    (s : string) : option string :=
  match fetch (E s) s with
  | Ok (Some p) => Some (json_dumps p)
  | _ => None
  end.

End Spec.

(** ** Concrete inputs for the examples *)

Module Examples.
Import Py Relay.
Open Scope string_scope.

(** [json.dumps] is a parameter of the development; the examples render a
    payload by its symbol and its percentage change. *)
Definition demo_dumps (p : payload) : string :=
  symbol p ++ " " ++ percentage_change p.

Definition ticker_json (last high low : string) : pyval :=
  PDict [("ticker",
          PDict [("high", PStr high); ("low", PStr low);
                 ("vol_idr", PStr "5000"); ("last", PStr last)])].

(** A price level as the exchange sends it. *)
Definition level (p : Z) (a : string) : pyval := PList [PInt p; PStr a].

Definition depth_json (buy sell : list pyval) : pyval :=
  PDict [("buy", PList buy); ("sell", PList sell)].

(** An environment in which every send succeeds and nothing else runs. *)
Definition calm (ticker depth : http_reply) : env :=
  {| ticker_reply := ticker;
     depth_reply := depth;
     ticker_text := None;
     depth_text := None;
     now := "2024-05-01T12:00:00";
     accept_outcome := None;
     send_outcome := fun _ _ => None;
     meanwhile := fun _ _ w => w;
     inbound := [];
     hangup := WebSocketDisconnect |}.

Definition good_ticker : http_reply :=
  Response 200 (Ok (ticker_json "110" "120" "100")).

Definition good_depth : http_reply :=
  Response 200 (Ok (depth_json [level 108 "0.5"; level 109 "0.1"]
                               [level 112 "0.3"; level 111 "0.2"])).

(** The state with client 1 connected and nothing cached. *)
Definition one_client : world := exec (add 1%nat) initial.

(** A ticker answered with status 300 and a well-formed body. *)
Definition multiple_choices : env :=
  calm (Response 300 (Ok (ticker_json "110" "120" "100"))) good_depth.

(** A ticker answered with status 500. *)
Definition ticker_down : env :=
  calm (Response 500 (Raise ClientError)) good_depth.

(** A depth whose [sell] list has an entry that is not a pair. *)
Definition bad_sell : env :=
  calm good_ticker
    (Response 200 (Ok (depth_json [level 108 "0.5"] [PList [PInt 112]]))).

(** A depth whose [buy] list has an entry that is not a number. *)
Definition bad_buy : env :=
  calm good_ticker
    (Response 200 (Ok (depth_json [level 108 "0.5"; PList [PStr "x"; PStr "1"]]
                                  [level 112 "0.3"]))).

(** A depth request that times out. *)
Definition depth_timeout : env :=
  calm good_ticker (RequestRaised TimeoutError).

(** A depth answered with status 500. *)
Definition depth_down : env :=
  calm good_ticker (Response 500 (Raise ClientError)).

(** A depth whose [buy] list has a price that is NaN. *)
Definition nan_price : env :=
  calm good_ticker
    (Response 200 (Ok (depth_json [level 1 "1"; PList [PStr "nan"; PStr "1"];
                                   level 2 "1"]
                                  [level 3 "1"]))).

(** The state with clients 1 and 2 connected and nothing cached;
    [list(connected_clients)] visits client 2 first. *)
Definition two_clients : world := exec (add 2%nat) one_client.

(** Client [c] hangs up while a broadcast is sending to it: in the
    meantime its endpoint leaves [receive_text] and runs lines 205-209, and
    the send then raises. *)
Definition hangs_up (c : ws) : env :=
  {| ticker_reply := good_ticker;
     depth_reply := good_depth;
     ticker_text := None;
     depth_text := None;
     now := "2024-05-01T12:00:00";
     accept_outcome := None;
     send_outcome := fun r _ =>
       if decide (r = c) then Some WebSocketDisconnect else None;
     meanwhile := fun r _ w =>
       if decide (r = c) then exec (cleanup c) w else w;
     inbound := [];
     hangup := WebSocketDisconnect |}.

(** The state after BTC/IDR and USDT/IDR were fetched with no client
    connected. *)
Definition two_cached : world :=
  exec (fetch_and_broadcast_data demo_dumps (calm good_ticker good_depth)
          "USDT/IDR")
    (exec (fetch_and_broadcast_data demo_dumps (calm good_ticker good_depth)
             "BTC/IDR") initial).

(** A ticker with last=120. *)
Definition risen : env :=
  calm (Response 200 (Ok (ticker_json "120" "120" "100"))) good_depth.

(** A connection during whose first replayed message the fetch of ETH/IDR
    completes and broadcasts. *)
Definition overtaken : env :=
  {| ticker_reply := good_ticker;
     depth_reply := good_depth;
     ticker_text := None;
     depth_text := None;
     now := "2024-05-01T12:00:00";
     accept_outcome := None;
     send_outcome := fun _ _ => None;
     meanwhile := fun _ m w =>
       if String.eqb m "BTC/IDR 10.00"
       then exec (fetch_and_broadcast_data demo_dumps risen "ETH/IDR") w
       else w;
     inbound := [];
     hangup := WebSocketDisconnect |}.

(** A ticker whose percentage change overflows. *)
Definition overflowing : env :=
  calm (Response 200 (Ok (ticker_json "1e308" "1e308" "1e-308"))) good_depth.

(** A ticker with a malformed [volume] beside a good [vol_idr]. *)
Definition both_volumes : list (string * pyval) :=
  [("last", PStr "110"); ("vol_idr", PStr "5000"); ("volume", PStr "n/a")].

(** A depth body without [buy], and with a [sell] list. *)
Definition no_buy : env :=
  calm good_ticker
    (Response 200 (Ok (PDict [("sell", PList [level 112 "0.3"])]))).

(** A depth with a price too large for a float. *)
Definition huge_price : env :=
  calm good_ticker
    (Response 200 (Ok (depth_json [level (10 ^ 400) "1"] []))).

(** A depth with twelve bids, two of them at the same price. *)
Definition deep : env :=
  calm good_ticker
    (Response 200 (Ok (depth_json
       [level 101 "1"; level 112 "2"; level 103 "3"; level 104 "4";
        level 105 "5"; level 106 "6"; level 107 "7"; level 108 "8";
        level 109 "9"; level 110 "10"; level 111 "11"; level 112 "12"]
       [level 120 "1"; level 119 "2"]))).

(** Sends to client 2 fail; nothing else runs. *)
Definition deaf (c : ws) : env :=
  {| ticker_reply := good_ticker;
     depth_reply := good_depth;
     ticker_text := None;
     depth_text := None;
     now := "2024-05-01T12:00:00";
     accept_outcome := None;
     send_outcome := fun r _ =>
       if decide (r = c) then Some WebSocketDisconnect else None;
     meanwhile := fun _ _ w => w;
     inbound := [];
     hangup := WebSocketDisconnect |}.


(** A turn of the producer in which the ticker of ETH/IDR is down and the
    others answer. *)
Definition eth_down (s : string) : env :=
  if String.eqb s "ETH/IDR" then ticker_down
  else calm good_ticker good_depth.

(** A connection during whose replay sends client 9 connects and is
    registered. *)
Definition newcomer : env :=
  {| ticker_reply := good_ticker;
     depth_reply := good_depth;
     ticker_text := None;
     depth_text := None;
     now := "2024-05-01T12:00:00";
     accept_outcome := None;
     send_outcome := fun _ _ => None;
     meanwhile := fun _ _ w => exec (add 9%nat) w;
     inbound := [];
     hangup := WebSocketDisconnect |}.

(** A depth whose [sell] list has an amount that is [null]. *)
Definition null_ask : env :=
  calm good_ticker
    (Response 200 (Ok (depth_json [level 108 "0.5"; level 109 "0.1"]
                                  [PList [PInt 112; PNone]]))).

(** A depth whose [sell] list has a price that is NaN. *)
Definition nan_ask : env :=
  calm good_ticker
    (Response 200 (Ok (depth_json [level 108 "0.5"; level 109 "0.1"]
                                  [level 3 "1"; PList [PStr "nan"; PStr "1"];
                                   level 2 "1"]))).

(** A ticker body that [json()] cannot parse and [text()] cannot decode:
    the message of line 142 raises. *)
Definition undecodable : env :=
  {| ticker_reply := Response 200 (Raise JSONDecodeError);
     depth_reply := good_depth;
     ticker_text := Some ValueError;
     depth_text := None;
     now := "2024-05-01T12:00:00";
     accept_outcome := None;
     send_outcome := fun _ _ => None;
     meanwhile := fun _ _ w => w;
     inbound := [];
     hangup := WebSocketDisconnect |}.

(** A turn of the producer in which the ticker of ETH/IDR is so. *)
Definition eth_undecodable (s : string) : env :=
  if String.eqb s "ETH/IDR" then undecodable
  else calm good_ticker good_depth.


(** The ticker that [good_ticker] holds. *)
Definition good_numbers : ticker :=
  {| t_new_price := of_Z 110; t_high_price := of_Z 120;
     t_low_price := of_Z 100; t_volume_24h := of_Z 5000;
     t_percentage_change := of_Z 10 |}.

End Examples.

(** ** Properties *)

Import Py Relay Spec.

#[local] Set Warnings "-clear-no-such-hyp".

Section Properties.

Context (json_dumps : payload -> string).

#[local] Abbreviation fetch_and_broadcast_data :=
  (Relay.fetch_and_broadcast_data json_dumps).
#[local] Abbreviation publish := (Relay.publish json_dumps).
#[local] Abbreviation replay := (Relay.replay json_dumps).
#[local] Abbreviation websocket_endpoint :=
  (Relay.websocket_endpoint json_dumps).

(** *** The outer [try] of [fetch_and_broadcast_data] *)

Lemma fetch_handlers_catch_all e : catches fetch_handlers e = true.
Proof. unfold catches, fetch_handlers. simpl. by rewrite !orb_true_r. Qed.

(** The handler of line 142 is the only one that can raise. *)
Lemma fetch_handler_cases E e w :
  fetch_handler E e w =
    (w, if bool_decide (e = JSONDecodeError) then raising (ticker_text E)
        else Ok tt).
Proof. by destruct e. Qed.

(** The only exception that leaves the loop of lines 129-137 is the
    [KeyError] of a [remove]. *)
Lemma broadcast_raises E message clients w e :
  snd (broadcast E message clients w) = Raise e -> e = KeyError.
Proof.
  revert w. induction clients as [|c rest IH]; intros w; [done|].
  cbn [broadcast]. unfold mbind, M_bind, try_except.
  destruct (send_text E c message w) as [w1 [[]|e1]]; [apply IH|].
  assert (Hc : catches send_handlers e1 = true) by by destruct e1.
  rewrite Hc. unfold remove.
  destruct (decide (c ∈ connected_clients w1)); [apply IH|].
  by intros [= <-].
Qed.

Lemma publish_raises E symbol p w e :
  snd (publish E symbol p w) = Raise e -> e = KeyError.
Proof.
  unfold Relay.publish, store, snapshot, mbind, M_bind.
  apply broadcast_raises.
Qed.

(** What the coroutine does, by how far [fetch] gets. *)
Lemma fetch_and_broadcast_data_cases E symbol w :
  fetch_and_broadcast_data E symbol w =
    match fetch E symbol with
    | Ok (Some p) =>
        try_except (publish E symbol p) fetch_handlers (fun _ => skip) w
    | Ok None => (w, Ok tt)
    | Raise e => fetch_handler E e w
    end.
Proof.
  unfold Relay.fetch_and_broadcast_data, try_except, lift, mbind, M_bind.
  destruct (fetch E symbol) as [[p|]|e]; try reflexivity.
  - pose proof (publish_raises E symbol p w) as Hk.
    destruct (publish E symbol p w) as [w' [[]|e]]; [done|].
    by rewrite (Hk e eq_refl).
  - by rewrite fetch_handlers_catch_all.
Qed.

(** How the coroutine ends: an exception leaves it only when the body of
    the [try] raises a [JSONDecodeError] and the handler of line 142
    raises in turn. *)
Lemma fetch_and_broadcast_data_result E symbol w :
  snd (fetch_and_broadcast_data E symbol w) =
    match fetch E symbol with
    | Raise JSONDecodeError => raising (ticker_text E)
    | _ => Ok tt
    end.
Proof.
  rewrite fetch_and_broadcast_data_cases.
  destruct (fetch E symbol) as [[p|]|e]; try reflexivity.
  - unfold try_except. destruct (publish E symbol p w) as [w' [[]|e]]; [done|].
    by rewrite fetch_handlers_catch_all.
  - rewrite fetch_handler_cases. by destruct e.
Qed.

(** A call that builds no payload leaves the state as it is. *)
Lemma fetch_and_broadcast_data_idle E symbol w :
  (forall p, fetch E symbol <> Ok (Some p)) ->
  fst (fetch_and_broadcast_data E symbol w) = w.
Proof.
  intros Hf. rewrite fetch_and_broadcast_data_cases.
  destruct (fetch E symbol) as [[p|]|e]; [by destruct (Hf p)|done|].
  by rewrite fetch_handler_cases.
Qed.

(** *** Ticker stage *)

Lemma ticker_failure_stage r :
  ticker_failure r -> forall t, ticker_stage r <> Ok (Some t).
Proof.
  intros Hf t. unfold ticker_stage.
  destruct Hf
    as [e|status json Hs|status e|status data Hm|status data tk e Hk Hr];
    simpl.
  - discriminate.
  - destruct (Z.leb_spec 400 status); [discriminate|lia].
  - destruct (400 <=? status); discriminate.
  - destruct (400 <=? status); [discriminate|]. simpl.
    unfold has_ticker. destruct Hm as [-> | Hm]; [discriminate|].
    destruct (truthy data); [rewrite Hm|]; discriminate.
  - destruct (400 <=? status); [discriminate|]. simpl.
    destruct (has_ticker data) as [[]|]; simpl; try discriminate.
    rewrite Hk. simpl. rewrite Hr. discriminate.
Qed.

Lemma failed_ticker_fetch E symbol :
  (forall t, ticker_stage (ticker_reply E) <> Ok (Some t)) ->
  fetch E symbol = Ok None \/ exists e, fetch E symbol = Raise e.
Proof.
  intros Hf. unfold fetch.
  destruct (ticker_stage (ticker_reply E)) as [[t|]|e]; simpl; eauto.
  by destruct (Hf t).
Qed.

(** *** Sending and broadcasting when nothing else runs *)

Lemma send_handlers_catch_all e : catches send_handlers e = true.
Proof. unfold catches, send_handlers. simpl. by rewrite orb_true_r. Qed.

Lemma send_text_quiet E c message w :
  quiet E ->
  send_text E c message w =
    (record (attempt E message c) w,
     match send_outcome E c message with
     | None => Ok tt
     | Some e => Raise e
     end).
Proof. intros Hq. unfold send_text. by rewrite Hq. Qed.

Lemma deliver_ok E c message w :
  quiet E ->
  send_outcome E c message = None ->
  deliver E message c w = (record (attempt E message c) w, Ok tt).
Proof.
  intros Hq Ho. unfold deliver, try_except.
  rewrite send_text_quiet by done. by rewrite Ho.
Qed.

Lemma deliver_failed E c message w :
  quiet E ->
  send_outcome E c message <> None ->
  c ∈ connected_clients w ->
  deliver E message c w =
    ({| current_data := current_data w;
        connected_clients := connected_clients w ∖ {[c]};
        sent := sent w ++ [attempt E message c] |}, Ok tt).
Proof.
  intros Hq Ho Hc. unfold deliver, try_except.
  rewrite send_text_quiet by done.
  destruct (send_outcome E c message) as [e|]; [|done].
  rewrite send_handlers_catch_all. unfold remove. simpl.
  by rewrite decide_True.
Qed.

(** A failed send to a client that is no longer registered: [set.remove]
    raises [KeyError], and the exception leaves the handler. *)
Lemma deliver_failed_absent E c message w :
  quiet E ->
  send_outcome E c message <> None ->
  c ∉ connected_clients w ->
  deliver E message c w = (record (attempt E message c) w, Raise KeyError).
Proof.
  intros Hq Ho Hc. unfold deliver, try_except.
  rewrite send_text_quiet by done.
  destruct (send_outcome E c message) as [e|]; [|done].
  rewrite send_handlers_catch_all. unfold remove. simpl.
  by rewrite decide_False.
Qed.

Lemma broadcast_cons E message c rest w :
  broadcast E message (c :: rest) w =
    match deliver E message c w with
    | (w', Ok _) => broadcast E message rest w'
    | (w', Raise e) => (w', Raise e)
    end.
Proof. reflexivity. Qed.

(** The whole loop: every client of the list gets one call of [send_text],
    in the order of the list; those whose call fails are removed; the loop
    runs to its end. *)
Lemma broadcast_quiet E message :
  quiet E ->
  forall clients w,
    NoDup clients ->
    (forall c, c ∈ clients -> c ∈ connected_clients w) ->
    broadcast E message clients w =
      ({| current_data := current_data w;
          connected_clients :=
            connected_clients w ∖ list_to_set (failing E message clients);
          sent := sent w ++ map (attempt E message) clients |}, Ok tt).
Proof.
  intros Hq. induction clients as [|c rest IH]; intros w Hnd Hin.
  - simpl. unfold skip, mret, M_ret. destruct w as [d cl s]; simpl.
    rewrite app_nil_r. do 2 f_equal. set_solver.
  - inversion Hnd as [|? ? Hc Hnd']; subst.
    rewrite broadcast_cons.
    assert (Hcin : c ∈ connected_clients w) by (apply Hin; left).
    unfold failing. rewrite filter_cons.
    destruct (decide (send_outcome E c message <> None)) as [Hf|Hok].
    + rewrite deliver_failed by done.
      rewrite IH; [|done|].
      * simpl. rewrite <- app_assoc. simpl. do 2 f_equal.
        unfold failing. set_solver.
      * intros c' Hc'. simpl. apply elem_of_difference. split.
        -- apply Hin. by right.
        -- intros ->%elem_of_singleton. done.
    + assert (Ho : send_outcome E c message = None).
      { destruct (send_outcome E c message); [|done]. by destruct Hok. }
      rewrite deliver_ok by done.
      rewrite IH; [|done|].
      * simpl. rewrite <- app_assoc. done.
      * intros c' Hc'. simpl. apply Hin. by right.
Qed.

Lemma publish_quiet E symbol p w :
  quiet E ->
  publish E symbol p w = (published E symbol p (json_dumps p) w, Ok tt).
Proof.
  intros Hq. unfold Relay.publish, store, snapshot, mbind, M_bind. simpl.
  rewrite broadcast_quiet; [done|done|apply NoDup_elements|].
  intros c Hc. simpl. by apply elem_of_elements.
Qed.

(** With nothing else running, a call that builds a payload caches it and
    sends it once to every registered client. *)
Lemma fetch_and_broadcast_data_quiet E symbol p w :
  quiet E ->
  fetch E symbol = Ok (Some p) ->
  fetch_and_broadcast_data E symbol w =
    (published E symbol p (json_dumps p) w, Ok tt).
Proof.
  intros Hq Hp. rewrite fetch_and_broadcast_data_cases, Hp.
  unfold try_except. by rewrite publish_quiet.
Qed.

(** *** C3: a failed ticker stage changes nothing *)

(** Whenever the ticker stage does not produce a ticker, for whatever
    reason, the call changes nothing; and it returns, unless the handler
    of line 142 raises. *)
Lemma unsuccessful_ticker_changes_nothing E symbol w :
  (forall t, ticker_stage (ticker_reply E) <> Ok (Some t)) ->
  fst (fetch_and_broadcast_data E symbol w) = w /\
  (snd (fetch_and_broadcast_data E symbol w) = Ok tt \/
   exists e,
     ticker_stage (ticker_reply E) = Raise JSONDecodeError /\
     ticker_text E = Some e /\
     snd (fetch_and_broadcast_data E symbol w) = Raise e) /\
  (ticker_text E = None ->
   fetch_and_broadcast_data E symbol w = (w, Ok tt)).
Proof.
  intros Hf.
  assert (Hidle : fst (fetch_and_broadcast_data E symbol w) = w).
  { apply fetch_and_broadcast_data_idle. intros p Hp.
    destruct (failed_ticker_fetch E symbol Hf) as [H | [e H]];
      by rewrite H in Hp. }
  pose proof (fetch_and_broadcast_data_result E symbol w) as Hres.
  assert (Hjson : fetch E symbol = Raise JSONDecodeError ->
                  ticker_stage (ticker_reply E) = Raise JSONDecodeError).
  { unfold fetch.
    destruct (ticker_stage (ticker_reply E)) as [[t|]|e];
      [by destruct (Hf t)|by simpl|]. simpl. by intros [= ->]. }
  split; [done|]. split.
  - destruct (fetch E symbol) as [[p|]|e]; [by left|by left|].
    destruct e; try by left.
    destruct (ticker_text E) as [e|]; [|by left].
    right. exists e. by rewrite Hjson.
  - intros Hnone. rewrite Hnone in Hres.
    destruct (fetch_and_broadcast_data E symbol w) as [w' r].
    cbn in Hidle, Hres. subst w'. f_equal. rewrite Hres.
    destruct (fetch E symbol) as [[p|]|e]; try done. by destruct e.
Qed.

(** C3, as amended: if the ticker stage fails -- the request raises (network
    error or timeout), the status is 4xx or 5xx, the body does not decode,
    the [ticker] field is missing, or a number of the ticker does not
    parse -- the coroutine ends with the shared state exactly as it was:
    the cached payload of the symbol is the one from before, and no
    [send_text] was called. It returns, unless the body did not decode and
    reading its text for the message of line 142 raises; that exception
    then leaves the coroutine. *)
Theorem ticker_failure_changes_nothing E symbol w :
  ticker_failure (ticker_reply E) ->
  fst (fetch_and_broadcast_data E symbol w) = w /\
  (snd (fetch_and_broadcast_data E symbol w) = Ok tt \/
   exists e,
     ticker_stage (ticker_reply E) = Raise JSONDecodeError /\
     ticker_text E = Some e /\
     snd (fetch_and_broadcast_data E symbol w) = Raise e) /\
  (ticker_text E = None ->
   fetch_and_broadcast_data E symbol w = (w, Ok tt)).
Proof.
  intros Hf. apply unsuccessful_ticker_changes_nothing.
  by apply ticker_failure_stage.
Qed.

(** *** Depth stage *)

Lemma getitem_contains data k v :
  getitem data k = Ok v -> contains k data = Ok true.
Proof.
  destruct data; simpl; try discriminate.
  destruct (assoc k d); [done|discriminate].
Qed.

(** [side] when the key holds a list. *)
Lemma side_list data k reverse entries :
  getitem data k = Ok (PList entries) ->
  side data k reverse =
    os ← parse_orders entries;
    Ok (Some (take ORDER_BOOK_LIMIT (sorted fst os reverse))).
Proof.
  intros Hg. unfold side. rewrite (getitem_contains _ _ _ Hg). simpl.
  by rewrite Hg.
Qed.

Lemma parse_error_caught e : parse_error e -> catches depth_handlers e = true.
Proof. by intros [-> | ->]. Qed.

Lemma depth_handler_cases E e :
  depth_handler E e =
    if bool_decide (e = JSONDecodeError) then raising (depth_text E)
    else Ok tt.
Proof. by destruct e. Qed.

Lemma depth_stage_caught E e :
  snd (depth_body (depth_reply E)) = Raise e ->
  catches depth_handlers e = true ->
  (e = JSONDecodeError -> depth_text E = None) ->
  depth_stage E = Ok (fst (depth_body (depth_reply E))).
Proof.
  unfold depth_stage. destruct (depth_body (depth_reply E)) as [ob out].
  simpl. intros -> -> Ht. rewrite depth_handler_cases.
  destruct (decide (e = JSONDecodeError)) as [He|He].
  - rewrite bool_decide_eq_true_2 by done. by rewrite (Ht He).
  - by rewrite bool_decide_eq_false_2.
Qed.

Lemma depth_stage_handler_raises E e :
  snd (depth_body (depth_reply E)) = Raise JSONDecodeError ->
  depth_text E = Some e ->
  depth_stage E = Raise e.
Proof.
  unfold depth_stage. destruct (depth_body (depth_reply E)) as [ob out].
  simpl. intros -> Ht. rewrite depth_handler_cases. cbn. by rewrite Ht.
Qed.

Lemma depth_stage_uncaught E e :
  snd (depth_body (depth_reply E)) = Raise e ->
  catches depth_handlers e = false ->
  depth_stage E = Raise e.
Proof.
  unfold depth_stage. destruct (depth_body (depth_reply E)) as [ob out].
  simpl. by intros -> ->.
Qed.

Lemma fetch_after_ticker E symbol t :
  ticker_stage (ticker_reply E) = Ok (Some t) ->
  fetch E symbol =
    ob ← depth_stage E;
    Ok (Some (make_payload symbol t ob (now E))).
Proof. intros Ht. unfold fetch. by rewrite Ht. Qed.

(** An exception of the depth stage that no clause of lines 99-103 names
    leaves the inner [try] and is caught by line 147: nothing is cached and
    nothing is sent. [TimeoutError] is such an exception. *)
Lemma uncaught_depth_error_aborts E symbol t e w :
  ticker_stage (ticker_reply E) = Ok (Some t) ->
  snd (depth_body (depth_reply E)) = Raise e ->
  catches depth_handlers e = false ->
  fetch_and_broadcast_data E symbol w = (w, Ok tt).
Proof.
  intros Ht He Hc. rewrite fetch_and_broadcast_data_cases.
  rewrite (fetch_after_ticker _ _ _ Ht).
  rewrite (depth_stage_uncaught _ _ He Hc). simpl.
  rewrite fetch_handler_cases. by destruct e.
Qed.

(** *** C1: a caught depth error does not stop the fetch *)

(** The sides that the inner [try] leaves, by the place where it raised. *)
Lemma depth_body_sides r e :
  snd (depth_body r) = Raise e ->
  sell_orders (fst (depth_body r)) = [] /\
  (forall e0,
     get_json r = Raise e0 -> buy_orders (fst (depth_body r)) = []) /\
  (forall data e1,
     get_json r = Ok data -> side data "buy" true = Raise e1 ->
     buy_orders (fst (depth_body r)) = []) /\
  (forall data b,
     get_json r = Ok data -> side data "buy" true = Ok b ->
     side data "sell" false = Raise e /\
     buy_orders (fst (depth_body r)) = default [] b).
Proof.
  unfold depth_body.
  destruct (get_json r) as [data|e0].
  - destruct (side data "buy" true) as [b|e1] eqn:Hb.
    + destruct (side data "sell" false) as [s|e2] eqn:Hs; simpl;
        [discriminate|].
      intros [= ->]. split; [done|]. split; [done|]. split.
      * intros data' e1 [= <-]. by rewrite Hb.
      * intros data' b' [= <-]. rewrite Hb. by intros [= <-].
    + simpl. intros _. split; [done|]. split; [done|]. split; [done|].
      intros data' b' [= <-]. by rewrite Hb.
  - simpl. intros _. by repeat split.
Qed.

(** C1, as amended: when the ticker stage has succeeded and the depth stage
    raises an exception that the clauses of lines 99-103 name
    ([aiohttp.ClientError], which includes a 4xx or 5xx status,
    [json.JSONDecodeError], [TypeError], [IndexError], [ValueError]), and
    the handler returns, the call still builds a payload with the ticker
    fields and with [sell_orders] empty. Its [buy_orders] is empty when the
    request, the status, the decoding or the [buy] block raised; when the
    [buy] block had been completed, so that it was the [sell] block that
    raised, [buy_orders] is the side that the [buy] block assigned. The
    payload is cached and broadcast as usual. The handler of line 102
    reads the body for its message: when that raises, after a
    [JSONDecodeError], nothing is cached and nothing is sent. *)
Theorem caught_depth_error_is_absorbed E symbol t e w :
  ticker_stage (ticker_reply E) = Ok (Some t) ->
  snd (depth_body (depth_reply E)) = Raise e ->
  catches depth_handlers e = true ->
  ((e = JSONDecodeError -> depth_text E = None) ->
   exists p,
     fetch E symbol = Ok (Some p) /\
     (Relay.symbol p = symbol /\
      price p = t_new_price t /\
      high_price p = t_high_price t /\
      low_price p = t_low_price t /\
      volume_24h p = t_volume_24h t /\
      percentage_change p = format_2f (t_percentage_change t)) /\
     sell_orders (order_book p) = [] /\
     (forall e0,
        get_json (depth_reply E) = Raise e0 ->
        buy_orders (order_book p) = []) /\
     (forall data e1,
        get_json (depth_reply E) = Ok data ->
        side data "buy" true = Raise e1 ->
        buy_orders (order_book p) = []) /\
     (forall data b,
        get_json (depth_reply E) = Ok data ->
        side data "buy" true = Ok b ->
        side data "sell" false = Raise e /\
        buy_orders (order_book p) = default [] b) /\
     fetch_and_broadcast_data E symbol w =
       try_except (publish E symbol p) fetch_handlers (fun _ => skip) w /\
     (quiet E ->
      fetch_and_broadcast_data E symbol w =
        (published E symbol p (json_dumps p) w, Ok tt))) /\
  (forall e',
     e = JSONDecodeError -> depth_text E = Some e' ->
     fetch E symbol = Raise e' /\
     fst (fetch_and_broadcast_data E symbol w) = w).
Proof.
  intros Ht He Hc. split.
  - intros Htext.
    set (p := make_payload symbol t (fst (depth_body (depth_reply E)))
                (now E)).
    assert (Hp : fetch E symbol = Ok (Some p)).
    { rewrite (fetch_after_ticker _ _ _ Ht).
      by rewrite (depth_stage_caught _ _ He Hc Htext). }
    destruct (depth_body_sides _ _ He) as (Hsell & Hreq & Hbuy & Hkept).
    exists p. split; [done|]. split; [done|].
    split; [done|]. split; [done|]. split; [done|]. split; [done|].
    split.
    + by rewrite fetch_and_broadcast_data_cases, Hp.
    + intros Hq. by apply fetch_and_broadcast_data_quiet.
  - intros e' -> Htext.
    assert (Hf : fetch E symbol = Raise e').
    { rewrite (fetch_after_ticker _ _ _ Ht).
      by rewrite (depth_stage_handler_raises _ _ He Htext). }
    split; [done|]. apply fetch_and_broadcast_data_idle.
    intros p. by rewrite Hf.
Qed.

(** Parsing a list of levels raises nothing but a parse error, or
    [OverflowError] for an integer too large for a float. *)
Lemma float_of_raises v e :
  float_of v = Raise e -> parse_error e \/ e = OverflowError.
Proof.
  unfold parse_error. destruct v; simpl; try (intros [= <-]; by auto).
  - destruct (is_finite (of_Z z)); intros [= <-]; auto.
  - destruct (float_of_string s); intros [= <-]; auto.
Qed.

Lemma unpack2_raises v e : unpack2 v = Raise e -> parse_error e.
Proof.
  unfold parse_error, unpack2.
  destruct (iterate v) as [l|e'] eqn:Hi; simpl.
  - destruct l as [|p [|a [|x l]]]; try discriminate; intros [= <-]; auto.
  - intros [= <-]. destruct v; simpl in Hi; try discriminate.
    all: injection Hi as <-; auto.
Qed.

Lemma parse_orders_raises entries e :
  parse_orders entries = Raise e -> parse_error e \/ e = OverflowError.
Proof.
  induction entries as [|v rest IH]; simpl; [discriminate|].
  destruct (unpack2 v) as [[p a]|e1] eqn:Hu; simpl.
  - destruct (float_of p) as [fp|e2] eqn:Hp; simpl.
    + destruct (float_of a) as [fa|e3] eqn:Ha; simpl.
      * destruct (parse_orders rest) as [os|e4]; simpl; [discriminate|].
        intros [= <-]. by apply IH.
      * intros [= <-]. by eapply float_of_raises.
    + intros [= <-]. by eapply float_of_raises.
  - intros [= <-]. left. by eapply unpack2_raises.
Qed.

(** *** The order of the floats that are not NaN *)

Lemma fleb_rank x y :
  fleb x y = true <-> is_nan x = false /\ is_nan y = false /\ rank_le x y.
Proof.
  unfold fleb, SFleb, SFcompare, rank_le.
  destruct x as [[]|[]| |[] mx ex], y as [[]|[]| |[] my ey]; simpl;
    try rewrite Pos.compare_cont_spec; simpl;
    try destruct (Z.compare_spec ex ey);
    try destruct (Pos.compare_spec mx my); simpl;
    (split;
     [ intros Hb; try discriminate Hb; repeat split; lia
     | intros (Hx & Hy & Hr); try discriminate Hx; try discriminate Hy;
       try reflexivity; exfalso; lia ]).
Qed.

Lemma fltb_rank x y :
  is_nan x = false -> is_nan y = false ->
  fltb x y = false <-> rank_le y x.
Proof.
  unfold fltb, SFltb, SFcompare, rank_le.
  destruct x as [[]|[]| |[] mx ex], y as [[]|[]| |[] my ey]; simpl;
    try rewrite Pos.compare_cont_spec; simpl;
    try destruct (Z.compare_spec ex ey);
    try destruct (Pos.compare_spec mx my); simpl;
    intros Hx Hy; try discriminate Hx; try discriminate Hy;
    (split; [ intros Hb; try discriminate Hb; lia
            | intros Hr; try reflexivity; exfalso; lia ]).
Qed.

Lemma fleb_trans x y z :
  fleb x y = true -> fleb y z = true -> fleb x z = true.
Proof.
  rewrite !fleb_rank. unfold rank_le. intros (? & ? & ?) (? & ? & ?).
  repeat split; try done. lia.
Qed.

(** Not less means greater or equal, when neither is NaN. *)
Lemma fltb_false_fleb x y :
  is_nan x = false -> is_nan y = false ->
  fltb x y = false -> fleb y x = true.
Proof.
  intros Hx Hy H. apply fleb_rank. repeat split; try done.
  by apply fltb_rank.
Qed.

Lemma fltb_true_fleb x y : fltb x y = true -> fleb x y = true.
Proof.
  unfold fltb, fleb, SFltb, SFleb. by destruct (SFcompare x y) as [[]|].
Qed.

(** *** [sorted] sorts, when no key is NaN *)

Lemma elem_of_rev {A} (x : A) l : x ∈ rev l <-> x ∈ l.
Proof. rewrite !list_elem_of_In. symmetry. apply in_rev. Qed.

Lemma rev_perm {A} (l : list A) : rev l ≡ₚ l.
Proof. symmetry. apply Permutation_rev. Qed.

Section SortFacts.

Context {A : Type} (key : A -> float).

#[local] Abbreviation clean := (Forall (fun a : A => is_nan (key a) = false)).
#[local] Abbreviation ascending :=
  (StronglySorted (fun a b : A => fleb (key a) (key b) = true)).
#[local] Abbreviation descending :=
  (StronglySorted (fun a b : A => fleb (key b) (key a) = true)).

Lemma insert_perm x acc : insert key x acc ≡ₚ x :: acc.
Proof.
  induction acc as [|y acc IH]; simpl; [done|].
  destruct (fltb (key x) (key y)); [|done].
  rewrite IH. apply perm_swap.
Qed.

Lemma insert_descending x acc :
  is_nan (key x) = false -> clean acc ->
  descending acc -> descending (insert key x acc).
Proof.
  intros Hx. induction acc as [|y acc IH]; intros Hc Hs; simpl.
  - repeat constructor.
  - apply Forall_cons in Hc as [Hy Hc].
    apply StronglySorted_cons in Hs as [Hall Hs].
    destruct (fltb (key x) (key y)) eqn:Hlt.
    + apply StronglySorted_cons. split; [|by apply IH].
      rewrite insert_perm. constructor; [|done].
      by apply fltb_true_fleb.
    + assert (Hyx : fleb (key y) (key x) = true)
        by by apply fltb_false_fleb.
      apply StronglySorted_cons. split.
      * constructor; [done|].
        eapply Forall_impl; [exact Hall|]. simpl. intros z Hz.
        by apply (fleb_trans _ (key y)).
      * by apply StronglySorted_cons.
Qed.

Lemma fold_insert_perm l acc :
  fold_left (fun acc x => insert key x acc) l acc ≡ₚ l ++ acc.
Proof.
  revert acc. induction l as [|x l IH]; intros acc; simpl; [done|].
  rewrite IH, insert_perm. by rewrite Permutation_middle.
Qed.

Lemma fold_insert_descending l acc :
  clean l -> clean acc -> descending acc ->
  descending (fold_left (fun acc x => insert key x acc) l acc).
Proof.
  revert acc. induction l as [|x l IH]; intros acc Hl Hc Hs; simpl; [done|].
  apply Forall_cons in Hl as [Hx Hl]. apply IH; [done| |].
  - rewrite insert_perm. by constructor.
  - by apply insert_descending.
Qed.

Lemma descending_rev l : descending l -> ascending (rev l).
Proof.
  induction l as [|x l IH]; simpl; [constructor|].
  intros [Hall Hs]%StronglySorted_cons.
  apply StronglySorted_app. split; [|split].
  - intros a b Ha Hb. apply list_elem_of_singleton in Hb as ->.
    rewrite Forall_forall in Hall. apply Hall.
    by apply elem_of_rev.
  - by apply IH.
  - repeat constructor.
Qed.

Lemma ascending_rev l : ascending l -> descending (rev l).
Proof.
  induction l as [|x l IH]; simpl; [constructor|].
  intros [Hall Hs]%StronglySorted_cons.
  apply StronglySorted_app. split; [|split].
  - intros a b Ha Hb. apply list_elem_of_singleton in Hb as ->.
    rewrite Forall_forall in Hall. apply Hall.
    by apply elem_of_rev.
  - by apply IH.
  - repeat constructor.
Qed.

Lemma sort_perm l : sort key l ≡ₚ l.
Proof.
  unfold sort. rewrite rev_perm, fold_insert_perm.
  by rewrite app_nil_r.
Qed.

Lemma sort_ascending l : clean l -> ascending (sort key l).
Proof.
  intros Hl. apply descending_rev, fold_insert_descending;
    [done|constructor|constructor].
Qed.

Lemma sorted_perm l reverse : sorted key l reverse ≡ₚ l.
Proof.
  unfold sorted. destruct reverse; [|apply sort_perm].
  by rewrite rev_perm, sort_perm, rev_perm.
Qed.

Lemma sorted_reverse_descending l : clean l -> descending (sorted key l true).
Proof.
  intros Hl. apply ascending_rev, sort_ascending.
  by rewrite rev_perm.
Qed.

Lemma sorted_ascending l : clean l -> ascending (sorted key l false).
Proof. apply sort_ascending. Qed.

End SortFacts.

Lemma StronglySorted_take {A} (R : A -> A -> Prop) n l :
  StronglySorted R l -> StronglySorted R (take n l).
Proof.
  intros Hs. rewrite <- (take_drop n l) in Hs.
  by apply StronglySorted_app in Hs as (_ & ? & _).
Qed.

(** *** C5: the sides of the order book *)

(** A payload is built from a ticker and an order book. *)
Lemma fetch_payload E symbol p :
  fetch E symbol = Ok (Some p) ->
  exists t ob,
    ticker_stage (ticker_reply E) = Ok (Some t) /\
    depth_stage E = Ok ob /\
    p = make_payload symbol t ob (now E).
Proof.
  unfold fetch.
  destruct (ticker_stage (ticker_reply E)) as [[t|]|e]; simpl; try discriminate.
  destruct (depth_stage E) as [ob|e]; simpl; try discriminate.
  intros [= <-]. by exists t, ob.
Qed.

Lemma side_ok data k reverse b :
  side data k reverse = Ok b ->
  b = None \/
  exists entries os,
    getitem data k = Ok (PList entries) /\
    parse_orders entries = Ok os /\
    b = Some (take ORDER_BOOK_LIMIT (sorted fst os reverse)).
Proof.
  unfold side. destruct (contains k data) as [[]|e]; simpl; try discriminate.
  - destruct (getitem data k) as [v|e]; simpl; try discriminate.
    destruct v; try (intros [= <-]; by left).
    destruct (parse_orders l) as [os|e] eqn:Hp; simpl; try discriminate.
    intros [= <-]. right. by exists l, os.
  - intros [= <-]. by left.
Qed.

Lemma side_ok_side_of r data k reverse b :
  get_json r = Ok data ->
  side data k reverse = Ok b ->
  side_of r k reverse (default [] b).
Proof.
  intros Hd [-> | (entries & os & Hg & Hp & ->)]%side_ok; [by left|].
  right. by exists data, entries, os.
Qed.

(** Each side of the order book of [depth_stage] is empty or a sorted and
    truncated parse. *)
Lemma depth_stage_sides E ob :
  depth_stage E = Ok ob ->
  side_of (depth_reply E) "buy" true (buy_orders ob) /\
  side_of (depth_reply E) "sell" false (sell_orders ob).
Proof.
  unfold depth_stage, depth_body.
  destruct (get_json (depth_reply E)) as [data|e0] eqn:Hd.
  - destruct (side data "buy" true) as [b|e1] eqn:Hb.
    + destruct (side data "sell" false) as [s|e2] eqn:Hs.
      * intros [= <-]. simpl. eauto using side_ok_side_of.
      * destruct (catches depth_handlers e2); [|discriminate].
        destruct (depth_handler E e2); [|discriminate].
        intros [= <-]. simpl. split; [|by left].
        eauto using side_ok_side_of.
    + destruct (catches depth_handlers e1); [|discriminate].
      destruct (depth_handler E e1); [|discriminate].
      intros [= <-]. split; by left.
  - destruct (catches depth_handlers e0); [|discriminate].
    destruct (depth_handler E e0); [|discriminate].
    intros [= <-]. split; by left.
Qed.

Lemma side_of_length r k reverse l :
  side_of r k reverse l -> (length l <= ORDER_BOOK_LIMIT)%nat.
Proof.
  intros [-> | (data & entries & os & _ & _ & _ & ->)]; simpl; [lia|].
  rewrite length_take. lia.
Qed.

(** A list of two or more levels with a NaN price is not in order, in
    whichever way it is arranged: every comparison with NaN is false. *)
Lemma non_increasing_no_nan l :
  non_increasing l -> (2 <= length l)%nat ->
  Forall (fun o : order => is_nan (fst o) = false) l.
Proof.
  unfold non_increasing. intros Hs Hl.
  destruct l as [|a [|b rest]]; simpl in Hl; try lia.
  apply StronglySorted_cons in Hs as [Hall _].
  assert (Ha : is_nan (fst a) = false).
  { apply Forall_cons in Hall as [Hb _].
    by apply fleb_rank in Hb as (_ & ? & _). }
  constructor; [done|].
  eapply Forall_impl; [exact Hall|]. simpl.
  intros o Ho. by apply fleb_rank in Ho as (? & _ & _).
Qed.

Lemma side_of_clean_side r k l reverse :
  Forall (fun f => is_nan f = false) (side_prices r k) ->
  side_of r k reverse l ->
  exists os,
    Forall (fun o : order => is_nan (fst o) = false) os /\
    l = take ORDER_BOOK_LIMIT (sorted fst os reverse).
Proof.
  intros Hc [-> | (data & entries & os & Hd & Hg & Hp & ->)].
  - exists []. split; [constructor|by destruct reverse].
  - exists os. split; [|done].
    unfold side_prices in Hc. rewrite Hd in Hc.
    assert (Hos : parsed_side data k = os)
      by (unfold parsed_side; by rewrite Hg, Hp).
    rewrite Hos in Hc. by apply Forall_map in Hc.
Qed.

(** C5, as amended: each side of the order book of a payload has at most
    [ORDER_BOOK_LIMIT] levels; when none of the prices parsed from the
    [buy] list is NaN, [buy_orders] never increases in price; and when none
    of the prices parsed from the [sell] list is NaN, [sell_orders] never
    decreases. The two sides are sorted apart: a NaN on one side does not
    touch the order of the other. *)
Theorem order_book_sorted_and_bounded E symbol p :
  fetch E symbol = Ok (Some p) ->
  ((length (buy_orders (order_book p)) <= ORDER_BOOK_LIMIT)%nat /\
   (length (sell_orders (order_book p)) <= ORDER_BOOK_LIMIT)%nat) /\
  (Forall (fun f => is_nan f = false) (side_prices (depth_reply E) "buy") ->
   non_increasing (buy_orders (order_book p))) /\
  (Forall (fun f => is_nan f = false) (side_prices (depth_reply E) "sell") ->
   non_decreasing (sell_orders (order_book p))).
Proof.
  intros (t & ob & _ & Hob & ->)%fetch_payload. simpl.
  apply depth_stage_sides in Hob as [Hb Hs]. split; [|split].
  - split; eapply side_of_length; eauto.
  - intros Hc.
    destruct (side_of_clean_side _ _ _ _ Hc Hb) as (os & Hos & ->).
    apply StronglySorted_take. by apply (sorted_reverse_descending fst).
  - intros Hc.
    destruct (side_of_clean_side _ _ _ _ Hc Hs) as (os & Hos & ->).
    apply StronglySorted_take. by apply (sorted_ascending fst).
Qed.

(** *** C10: a parse error in [buy] empties both sides, one in [sell] only
    that side *)

(** C10, as amended: with the ticker stage succeeded and the depth body
    decoded, take a parse error that is a [ValueError] or a [TypeError].
    (1) If [buy] is a list and one of its entries fails so to unpack or to
    parse, the payload has both sides empty, whatever [sell] holds. (2) If
    [buy] is a list that parses and [sell] is a list one of whose entries
    fails so, the payload has an empty [sell] side and keeps the [buy]
    side: its levels are levels of the parsed list, as many as there are up
    to [ORDER_BOOK_LIMIT]; and, when no parsed bid is NaN, they are the
    first [ORDER_BOOK_LIMIT] of the parsed list sorted by falling price.
    (3) If an entry of [buy], or of [sell] after [buy] has parsed, is an
    integer too large for a float, [float] raises [OverflowError], which
    the clauses of lines 99-103 do not name: no payload is built, and
    nothing is cached or sent. *)
Theorem depth_parse_error_asymmetry E symbol t data e :
  ticker_stage (ticker_reply E) = Ok (Some t) ->
  get_json (depth_reply E) = Ok data ->
  parse_error e ->
  (forall buy,
     getitem data "buy" = Ok (PList buy) ->
     parse_orders buy = Raise e ->
     exists p,
       fetch E symbol = Ok (Some p) /\
       buy_orders (order_book p) = [] /\
       sell_orders (order_book p) = []) /\
  (forall buy sell os,
     getitem data "buy" = Ok (PList buy) ->
     parse_orders buy = Ok os ->
     getitem data "sell" = Ok (PList sell) ->
     parse_orders sell = Raise e ->
     exists p,
       fetch E symbol = Ok (Some p) /\
       sell_orders (order_book p) = [] /\
       length (buy_orders (order_book p)) =
         Nat.min ORDER_BOOK_LIMIT (length os) /\
       (exists dropped, buy_orders (order_book p) ++ dropped ≡ₚ os) /\
       (Forall (fun o : order => is_nan (fst o) = false) os ->
        buy_orders (order_book p) =
          take ORDER_BOOK_LIMIT (sorted fst os true))) /\
  (forall buy,
     getitem data "buy" = Ok (PList buy) ->
     parse_orders buy = Raise OverflowError \/
     (exists os sell,
        parse_orders buy = Ok os /\
        getitem data "sell" = Ok (PList sell) /\
        parse_orders sell = Raise OverflowError) ->
     fetch E symbol = Raise OverflowError /\
     forall w, fetch_and_broadcast_data E symbol w = (w, Ok tt)).
Proof.
  intros Ht Hd He. pose proof (parse_error_caught _ He) as Hc.
  assert (Hh : depth_handler E e = Ok tt) by by destruct He as [-> | ->].
  split; [|split].
  3:{ intros buy Hb Hover.
      assert (Hraise : snd (depth_body (depth_reply E)) = Raise OverflowError).
      { unfold depth_body. rewrite Hd, (side_list _ _ _ _ Hb).
        destruct Hover as [Hp | (os & sell & Hp & Hs & Hps)]; rewrite Hp;
          [done|].
        cbn -[take sorted]. by rewrite (side_list _ _ _ _ Hs), Hps. }
      split.
      - rewrite (fetch_after_ticker _ _ _ Ht).
        by rewrite (depth_stage_uncaught _ _ Hraise eq_refl).
      - intros w. by apply (uncaught_depth_error_aborts _ _ t OverflowError). }
  - intros buy Hb Hp.
    exists (make_payload symbol t
              {| buy_orders := []; sell_orders := [] |} (now E)).
    split; [|done].
    rewrite (fetch_after_ticker _ _ _ Ht).
    unfold depth_stage, depth_body. rewrite Hd.
    rewrite (side_list _ _ _ _ Hb), Hp. cbn -[catches depth_handler].
    by rewrite Hc, Hh.
  - intros buy sell os Hb Hp Hs Hps.
    exists (make_payload symbol t
              {| buy_orders := take ORDER_BOOK_LIMIT (sorted fst os true);
                 sell_orders := [] |} (now E)).
    split; [|split; [done|split; [|split; [|done]]]].
    + rewrite (fetch_after_ticker _ _ _ Ht).
      unfold depth_stage, depth_body. rewrite Hd.
      rewrite (side_list _ _ _ _ Hb), Hp.
      cbn -[catches take sorted depth_handler].
      rewrite (side_list _ _ _ _ Hs), Hps.
      cbn -[catches take sorted depth_handler].
      by rewrite Hc, Hh.
    + unfold make_payload. cbn [order_book buy_orders].
      rewrite length_take. f_equal.
      apply Permutation_length, sorted_perm.
    + unfold make_payload. cbn [order_book buy_orders].
      exists (drop ORDER_BOOK_LIMIT (sorted fst os true)).
      rewrite take_drop. apply sorted_perm.
Qed.

(** *** C4: the percentage change *)

Lemma is_digit_digit d : 0 <= d <= 9 -> is_digit (digit d) = true.
Proof.
  intros Hd.
  assert (Hc : d = 0 \/ d = 1 \/ d = 2 \/ d = 3 \/ d = 4 \/
               d = 5 \/ d = 6 \/ d = 7 \/ d = 8 \/ d = 9) by lia.
  repeat (destruct Hc as [-> | Hc]; [reflexivity|]). by subst.
Qed.

Lemma round_half_even_nonneg num den :
  0 <= num -> 0 < den -> 0 <= round_half_even num den.
Proof.
  intros Hn Hd. unfold round_half_even.
  assert (0 <= num / den) by (apply Z.div_pos; lia).
  destruct (2 * (num mod den) ?= den); [destruct (Z.even _)| |]; lia.
Qed.

Lemma hundredths_nonneg m e : 0 <= hundredths m e.
Proof.
  unfold hundredths. destruct (Z.leb_spec 0 e).
  - assert (0 < 2 ^ e) by (apply Z.pow_pos_nonneg; lia). lia.
  - apply round_half_even_nonneg; [lia|].
    apply Z.pow_pos_nonneg; lia.
Qed.

(** [:.2f] gives exactly two decimal places for a finite float, and one of
    three words for the others. *)
Lemma format_2f_finite f : is_finite f = true -> two_decimals (format_2f f).
Proof.
  destruct f as [s|s| |s m e]; try discriminate; intros _; simpl.
  - exists s, 0, "0"%char, "0"%char. by repeat split.
  - pose proof (hundredths_nonneg m e) as Hn.
    exists s, (hundredths m e / 100), (digit (hundredths m e mod 100 / 10)),
      (digit (hundredths m e mod 10)).
    split; [apply Z.div_pos; lia|].
    split; [apply is_digit_digit|split; [apply is_digit_digit|done]].
    + pose proof (Z.mod_pos_bound (hundredths m e) 100 ltac:(lia)) as Hm.
      split; [apply Z.div_pos; lia|].
      assert (hundredths m e mod 100 / 10 < 10); [|lia].
      apply Z.div_lt_upper_bound; lia.
    + pose proof (Z.mod_pos_bound (hundredths m e) 10 ltac:(lia)). lia.
Qed.

Lemma format_2f_not_finite f :
  is_finite f = false ->
  format_2f f = "inf"%string \/ format_2f f = "-inf"%string \/
  format_2f f = "nan"%string.
Proof. destruct f as [s|[]| |s m e]; try discriminate; simpl; auto. Qed.

Lemma ticker_stage_percentage r t :
  ticker_stage r = Ok (Some t) ->
  t_percentage_change t =
    compute_percentage_change (t_new_price t) (t_low_price t) (t_high_price t).
Proof.
  unfold ticker_stage.
  destruct (get_json r) as [data|]; simpl; try discriminate.
  destruct (has_ticker data) as [[]|]; simpl; try discriminate.
  destruct (getitem data "ticker") as [tk|]; simpl; try discriminate.
  unfold read_ticker.
  destruct (get tk "last" (PFloat zero) ≫= float_of) as [a|]; simpl;
    try discriminate.
  destruct (get tk "high" (PFloat zero) ≫= float_of) as [b|]; simpl;
    try discriminate.
  destruct (get tk "low" (PFloat zero) ≫= float_of) as [c|]; simpl;
    try discriminate.
  destruct (get tk "volume" (PFloat zero)) as [v|]; simpl; try discriminate.
  destruct (get tk "vol_idr" v ≫= float_of) as [d|]; simpl; try discriminate.
  by intros [= <-].
Qed.

(** C4, as amended: in every payload, with [last], [low] and [high] its
    three prices, the percentage change is [(last-low)/low*100] when
    [last > 0] and [low > 0]; otherwise [(last-high)/high*100] when
    [last > 0] and [high > 0]; otherwise [0.0]. The payload holds it as the
    string that [:.2f] gives: with exactly two decimal places when the
    value is finite, and ["inf"], ["-inf"] or ["nan"] when it is not. With
    last=110, low=100, high=120 the string is ["10.00"]; with last=110,
    low=0, high=120 it is ["-8.33"]; with last=0 it is ["0.00"]. *)
Theorem percentage_change_formatted :
  (forall E symbol p,
     fetch E symbol = Ok (Some p) ->
     let last := price p in
     let low := low_price p in
     let high := high_price p in
     exists pc : float,
       percentage_change p = format_2f pc /\
       (fltb zero last && fltb zero low = true ->
        pc = fmul (fdiv (fsub last low) low) (of_Z 100)) /\
       (fltb zero last && fltb zero low = false ->
        fltb zero last && fltb zero high = true ->
        pc = fmul (fdiv (fsub last high) high) (of_Z 100)) /\
       (fltb zero last && fltb zero low = false ->
        fltb zero last && fltb zero high = false ->
        pc = zero) /\
       (is_finite pc = true -> two_decimals (percentage_change p)) /\
       (is_finite pc = false ->
        percentage_change p = "inf"%string \/
        percentage_change p = "-inf"%string \/
        percentage_change p = "nan"%string)) /\
  format_2f (compute_percentage_change (of_Z 110) (of_Z 100) (of_Z 120))
    = "10.00"%string /\
  format_2f (compute_percentage_change (of_Z 110) zero (of_Z 120))
    = "-8.33"%string /\
  (forall low high,
     format_2f (compute_percentage_change zero low high) = "0.00"%string).
Proof.
  split; [|split; [|split]].
  - intros E symbol p (t & ob & Ht & _ & ->)%fetch_payload. simpl.
    exists (t_percentage_change t).
    rewrite (ticker_stage_percentage _ _ Ht).
    unfold compute_percentage_change.
    split; [done|].
    split; [by intros ->|].
    split; [by intros -> ->|].
    split; [by intros -> ->|].
    split; [apply format_2f_finite|apply format_2f_not_finite].
  - vm_compute. reflexivity.
  - vm_compute. reflexivity.
  - intros low high. reflexivity.
Qed.

(** *** C8: the keys of the cache *)

Lemma moves_ret {A} (a : A) : moves (mret a : M A).
Proof. intros w. apply rtc_refl. Qed.

Lemma moves_lift {A} (r : result A) : moves (lift r).
Proof. intros w. apply rtc_refl. Qed.

Lemma moves_bind {A B} (m : M A) (f : A -> M B) :
  moves m -> (forall a, moves (f a)) -> moves (m ≫= f).
Proof.
  intros Hm Hf w. unfold mbind, M_bind. specialize (Hm w).
  destruct (m w) as [w' [a|e]]; simpl in *; [|done].
  etrans; [exact Hm|apply Hf].
Qed.

Lemma moves_try_except {A} (m : M A) handlers h :
  moves m -> (forall e, moves (h e)) -> moves (try_except m handlers h).
Proof.
  intros Hm Hh w. unfold try_except. specialize (Hm w).
  destruct (m w) as [w' [a|e]]; simpl in *; [done|].
  destruct (catches handlers e); [|done].
  etrans; [exact Hm|apply Hh].
Qed.

Lemma moves_try_finally {A} (m : M A) final :
  moves m -> moves final -> moves (try_finally m final).
Proof.
  intros Hm Hf w. unfold try_finally. specialize (Hm w).
  destruct (m w) as [w' r]; simpl in *. specialize (Hf w').
  destruct (final w') as [w'' [[]|e]]; simpl in *; by etrans.
Qed.

Lemma moves_store symbol p :
  symbol ∈ CURRENCY_PAIRS -> moves (store symbol p).
Proof. intros Hs w. apply rtc_once. by apply step_store. Qed.

Lemma moves_load symbol : moves (load symbol).
Proof. intros w. unfold load. destruct (_ !! _); apply rtc_refl. Qed.

Lemma moves_add c : moves (add c).
Proof. intros w. apply rtc_once, step_add. Qed.

Lemma moves_remove c : moves (remove c).
Proof. intros w. apply rtc_once, step_remove. Qed.

Lemma moves_connected c : moves (connected c).
Proof. intros w. apply rtc_refl. Qed.

Lemma moves_snapshot : moves snapshot.
Proof. intros w. apply rtc_refl. Qed.

Lemma moves_send_text E c message :
  cooperative E -> moves (send_text E c message).
Proof.
  intros [Hm _] w. unfold send_text. simpl.
  eapply rtc_l; [apply step_send|apply Hm].
Qed.

Lemma moves_broadcast E message clients :
  cooperative E -> moves (broadcast E message clients).
Proof.
  intros HE. induction clients as [|c rest IH]; simpl.
  - apply moves_ret.
  - apply moves_bind; [|by intros _].
    apply moves_try_except; [by apply moves_send_text|].
    intros _. apply moves_remove.
Qed.

Lemma moves_fetch_and_broadcast_data E symbol :
  cooperative E -> symbol ∈ CURRENCY_PAIRS ->
  moves (fetch_and_broadcast_data E symbol).
Proof.
  intros HE Hs. apply moves_try_except.
  2:{ intros e w. rewrite fetch_handler_cases. apply rtc_refl. }
  apply moves_bind; [apply moves_lift|].
  intros [p|]; [|apply moves_ret].
  apply moves_bind; [by apply moves_store|]. intros _.
  apply moves_bind; [apply moves_snapshot|]. intros clients.
  by apply moves_broadcast.
Qed.

Lemma moves_gather E symbols :
  (forall s, cooperative (E s)) ->
  (forall s, s ∈ symbols -> s ∈ CURRENCY_PAIRS) ->
  moves (gather json_dumps E symbols).
Proof.
  intros HE. induction symbols as [|s rest IH]; intros Hs.
  - apply moves_ret.
  - intros w. cbn [gather].
    assert (H1 : moves (fetch_and_broadcast_data (E s) s)).
    { apply moves_fetch_and_broadcast_data; [done|]. apply Hs. by left. }
    specialize (H1 w).
    destruct (fetch_and_broadcast_data (E s) s w) as [w1 r1].
    assert (H2 : moves (gather json_dumps E rest)).
    { apply IH. intros s' Hs'. apply Hs. by right. }
    specialize (H2 w1).
    destruct (gather json_dumps E rest w1) as [w2 r2]. cbn in *.
    by etrans.
Qed.

Lemma moves_replay E c symbols : cooperative E -> moves (replay E c symbols).
Proof.
  intros HE. induction symbols as [|s rest IH]; simpl.
  - apply moves_ret.
  - apply moves_bind; [apply moves_load|]. intros e.
    apply moves_bind; [|by intros _].
    destruct e; [apply moves_ret|by apply moves_send_text].
Qed.

Lemma moves_receive_loop E : cooperative E -> moves (receive_loop E).
Proof.
  intros [_ Hin] w. unfold receive_loop. simpl.
  revert w. induction Hin as [|f fs Hf _ IH]; intros w; simpl.
  - apply rtc_refl.
  - etrans; [apply Hf|apply IH].
Qed.

Lemma moves_cleanup c : moves (cleanup c).
Proof.
  apply moves_bind; [apply moves_connected|].
  intros []; [apply moves_remove|apply moves_ret].
Qed.

Lemma moves_websocket_endpoint E c :
  cooperative E -> moves (websocket_endpoint E c).
Proof.
  intros HE. apply moves_bind; [apply moves_lift|]. intros _.
  apply moves_bind; [apply moves_add|]. intros _.
  apply moves_try_finally; [|apply moves_cleanup].
  apply moves_try_except; [|intros _; apply moves_ret].
  apply moves_bind; [by apply moves_replay|]. intros _.
  by apply moves_receive_loop.
Qed.

Lemma configured_keys :
  dom (current_data initial) = list_to_set CURRENCY_PAIRS.
Proof.
  unfold initial. cbn [current_data]. by rewrite dom_list_to_map_L.
Qed.

Lemma step_keys w w' :
  step w w' ->
  dom (current_data w) = list_to_set CURRENCY_PAIRS ->
  dom (current_data w') = list_to_set CURRENCY_PAIRS.
Proof.
  intros [symbol p w0 Hs|c w0|c w0|ev w0] Hd.
  - change (dom (<[symbol:=Filled p]> (current_data w0))
            = list_to_set CURRENCY_PAIRS).
    rewrite dom_insert_L, Hd.
    by apply subseteq_union_1_L, singleton_subseteq_l, elem_of_list_to_set.
  - exact Hd.
  - unfold exec, remove. by destruct (decide _).
  - exact Hd.
Qed.

Lemma reachable_keys w :
  reachable w -> dom (current_data w) = list_to_set CURRENCY_PAIRS.
Proof.
  unfold reachable. revert w. apply rtc_ind_r.
  - apply configured_keys.
  - intros w1 w2 _ Hs IH. by eapply step_keys.
Qed.

(** C8: in every state the program can reach, the keys of [current_data]
    are exactly the configured symbols, one entry each, and
    [current_data[symbol]] succeeds for every configured symbol; a call of
    [fetch_and_broadcast_data] for a configured symbol, a turn of the
    producer loop and a run of [websocket_endpoint], whatever runs in
    between, only lead to such states. *)
Theorem cache_keys_are_the_configured_symbols :
  (forall w,
     reachable w ->
     dom (current_data w) = list_to_set CURRENCY_PAIRS /\
     size (current_data w) = length CURRENCY_PAIRS /\
     forall symbol,
       symbol ∈ CURRENCY_PAIRS -> exists e, load symbol w = (w, Ok e)) /\
  (forall E symbol w,
     cooperative E -> symbol ∈ CURRENCY_PAIRS -> reachable w ->
     reachable (exec (fetch_and_broadcast_data E symbol) w)) /\
  (forall E w,
     (forall s, cooperative (E s)) -> reachable w ->
     reachable (exec (producer_cycle json_dumps E) w)) /\
  (forall E c w,
     cooperative E -> reachable w ->
     reachable (exec (websocket_endpoint E c) w)).
Proof.
  split; [|split; [|split]].
  - intros w Hd%reachable_keys. split; [done|]. split.
    + rewrite <- size_dom, Hd. apply size_list_to_set.
      apply (bool_decide_unpack _). by vm_compute.
    + intros symbol Hs.
      assert (Hin : symbol ∈ dom (current_data w))
        by (rewrite Hd; by apply elem_of_list_to_set).
      apply elem_of_dom in Hin as [e He]. exists e.
      unfold load. by rewrite He.
  - intros E symbol w HE Hs Hr. unfold reachable.
    etrans; [exact Hr|]. by apply moves_fetch_and_broadcast_data.
  - intros E w HE Hr. unfold reachable.
    etrans; [exact Hr|]. by apply moves_gather.
  - intros E c w HE Hr. unfold reachable.
    etrans; [exact Hr|]. by apply moves_websocket_endpoint.
Qed.


(** *** C2: the two ways a client is removed *)

(** Lines 205-209 check membership first, and never raise. *)
Lemma cleanup_returns c w :
  snd (cleanup c w) = Ok tt /\ c ∉ connected_clients (fst (cleanup c w)).
Proof.
  unfold cleanup, connected, remove, mbind, M_bind. simpl.
  destruct (decide (c ∈ connected_clients w)) as [Hin|Hout].
  - rewrite bool_decide_eq_true_2 by done. simpl.
    rewrite decide_True by done. simpl. split; [done|]. set_solver.
  - rewrite bool_decide_eq_false_2 by done. simpl. by split.
Qed.

(** Running them twice is the same as running them once. *)
Lemma cleanup_idempotent c w :
  cleanup c (fst (cleanup c w)) = (fst (cleanup c w), Ok tt).
Proof.
  destruct (cleanup_returns c w) as [_ Hout].
  unfold cleanup at 1, connected, mbind, M_bind. simpl.
  by rewrite bool_decide_eq_false_2.
Qed.

(** C2 is about the two removals, lines 134/137 and lines 207-208. The code
    does this: (1) when the send to a client fails while its endpoint runs
    lines 205-209 in the meantime, line 134 or 137 raises [KeyError]; (2)
    more generally, when the send fails to a client that is not in
    [connected_clients], the removal raises [KeyError]; (3) lines 205-209
    themselves never raise and leave the client out of the set. *)
Theorem broadcaster_removal_raises_KeyError :
  (forall E c message e w,
     send_outcome E c message = Some e ->
     meanwhile E c message = exec (cleanup c) ->
     snd (deliver E message c w) = Raise KeyError /\
     c ∉ connected_clients (fst (deliver E message c w))) /\
  (forall E c message e w,
     quiet E ->
     send_outcome E c message = Some e ->
     c ∉ connected_clients w ->
     deliver E message c w =
       (record (attempt E message c) w, Raise KeyError)) /\
  (forall c w,
     snd (cleanup c w) = Ok tt /\ c ∉ connected_clients (fst (cleanup c w))).
Proof.
  split; [|split].
  - intros E c message e w Ho Hm.
    unfold deliver, try_except, send_text. rewrite Ho, Hm.
    rewrite send_handlers_catch_all.
    destruct (cleanup_returns c
                (record {| receiver := c; text := message;
                           delivered := bool_decide (Some e = None) |} w))
      as [_ Hout].
    unfold remove, exec in *. by rewrite decide_False.
  - intros E c message e w Hq Ho Hout.
    apply deliver_failed_absent; [done| |done]. by rewrite Ho.
  - apply cleanup_returns.
Qed.

(** *** C7: the replay on connection *)

Lemma steps_keys w w' :
  rtc step w w' ->
  dom (current_data w) = list_to_set CURRENCY_PAIRS ->
  dom (current_data w') = list_to_set CURRENCY_PAIRS.
Proof.
  induction 1 as [|w1 w2 w3 Hs _ IH]; [done|].
  intros Hk. by apply IH, (step_keys w1).
Qed.

Lemma omap_ext_in {A B} (f g : A -> option B) (l : list A) :
  (forall a, a ∈ l -> f a = g a) -> omap f l = omap g l.
Proof.
  induction l as [|a l IH]; intros H; [done|].
  cbn. rewrite (H a) by left. rewrite IH; [done|].
  intros b Hb. apply H. by right.
Qed.

Lemma filter_ext_in {A} (P Q : A -> Prop) `{!forall a, Decision (P a)}
    `{!forall a, Decision (Q a)} (l : list A) :
  (forall a, a ∈ l -> P a <-> Q a) -> filter P l = filter Q l.
Proof.
  induction l as [|a l IH]; intros Hpq; [done|].
  rewrite !filter_cons. rewrite IH by (intros b Hb; apply Hpq; by right).
  destruct (decide (P a)) as [HP|HP], (decide (Q a)) as [HQ|HQ]; try done.
  - destruct HQ. apply Hpq; [left|done].
  - destruct HP. apply Hpq; [left|done].
Qed.

Section Replay.

Variables (E : env) (websocket : ws).

#[local] Abbreviation sending m w := (exec (send_text E websocket m) w).
#[local] Abbreviation succeed :=
  (Forall (fun m => send_outcome E websocket m = None)).

Lemma sending_state m w :
  sending m w =
    meanwhile E websocket m (record (attempt E m websocket) w).
Proof. done. Qed.

(** The loop is the sends of its trace, when these succeed. *)
Lemma replay_is_its_trace symbols w :
  (forall m w', rtc step w' (meanwhile E websocket m w')) ->
  (forall s, s ∈ symbols -> s ∈ CURRENCY_PAIRS) ->
  dom (current_data w) = list_to_set CURRENCY_PAIRS ->
  succeed (map snd (replay_trace json_dumps E websocket symbols w)) ->
  replay E websocket symbols w =
    (after_sends E websocket
       (map snd (replay_trace json_dumps E websocket symbols w)) w, Ok tt).
Proof.
  intros Hsteps. revert w.
  induction symbols as [|s rest IH]; intros w Hin Hk Hok; [done|].
  assert (Hrest : forall s', s' ∈ rest -> s' ∈ CURRENCY_PAIRS)
    by (intros s' Hs'; apply Hin; by right).
  assert (Hs : is_Some (current_data w !! s)).
  { apply elem_of_dom. rewrite Hk. apply elem_of_list_to_set, Hin. left. }
  destruct Hs as [e He]. revert Hok.
  cbn [Relay.replay replay_trace]. unfold mbind at 1, M_bind at 1, load at 1.
  rewrite He. destruct e as [|p]; intros Hok.
  - unfold mbind at 1, M_bind at 1, skip at 1, mret, M_ret. by apply IH.
  - cbn [map snd] in Hok. apply Forall_cons in Hok as [Hp Hok].
    unfold mbind at 1, M_bind at 1.
    assert (Hsend : send_text E websocket (json_dumps p) w =
                      (sending (json_dumps p) w, Ok tt)).
    { unfold exec, send_text. cbn. by rewrite Hp. }
    rewrite Hsend. cbn [map snd after_sends fold_left].
    apply IH; [done| |done].
    rewrite sending_state. eapply steps_keys; [apply Hsteps|]. exact Hk.
Qed.

(** While no symbol gets its first payload, the trace has the symbols
    that had one at the start. *)
Lemma trace_symbols symbols w :
  (forall m w' s, s ∈ CURRENCY_PAIRS ->
                  has_payload (meanwhile E websocket m w') s
                  = has_payload w' s) ->
  (forall s, s ∈ symbols -> s ∈ CURRENCY_PAIRS) ->
  map fst (replay_trace json_dumps E websocket symbols w) =
    filter (fun s => has_payload w s = true) symbols.
Proof.
  intros Hsame. revert w.
  induction symbols as [|s rest IH]; intros w Hin; [done|].
  assert (Hrest : forall s', s' ∈ rest -> s' ∈ CURRENCY_PAIRS)
    by (intros s' Hs'; apply Hin; by right).
  cbn [replay_trace]. rewrite filter_cons.
  assert (Hhp : has_payload w s =
                match current_data w !! s with
                | Some (Filled _) => true
                | _ => false
                end) by done.
  destruct (current_data w !! s) as [[|p]|] eqn:He.
  - rewrite decide_False by by rewrite Hhp. by apply IH.
  - rewrite decide_True by done. cbn [map fst]. f_equal.
    rewrite IH by done. apply filter_ext_in.
    intros s' Hs'. rewrite sending_state, Hsame by by apply Hrest.
    done.
  - rewrite decide_False by by rewrite Hhp. by apply IH.
Qed.

(** While the cache is not written, the trace has the texts cached at
    the start. *)
Lemma trace_texts symbols w :
  (forall m w', current_data (meanwhile E websocket m w') = current_data w') ->
  map snd (replay_trace json_dumps E websocket symbols w) =
    omap (replay_text json_dumps w) symbols.
Proof.
  intros Hsame. revert w.
  induction symbols as [|s rest IH]; intros w; [done|].
  cbn [replay_trace omap list_omap]. unfold replay_text at 1.
  destruct (current_data w !! s) as [[|p]|] eqn:He; [apply IH| |apply IH].
  cbn [map snd]. f_equal. rewrite IH.
  apply omap_ext_in. intros s' _. unfold replay_text.
  by rewrite sending_state, Hsame.
Qed.

(** While nobody else sends to the client, its inbox grows by the texts
    sent. *)
Lemma inbox_after_sends texts w :
  succeed texts ->
  (forall m w', inbox websocket (meanwhile E websocket m w')
                = inbox websocket w') ->
  inbox websocket (after_sends E websocket texts w) =
    inbox websocket w ++ texts.
Proof.
  intros Hok Hquiet. revert w.
  induction Hok as [|m texts Hm _ IH]; intros w; [by rewrite app_nil_r|].
  change (after_sends E websocket (m :: texts) w)
    with (after_sends E websocket texts (sending m w)).
  rewrite IH, sending_state, Hquiet. unfold inbox, record, attempt.
  cbn [sent]. rewrite Hm.
  rewrite filter_app, map_app, filter_cons_True by done.
  by rewrite <- app_assoc.
Qed.

(** While nothing else runs, the sends only add to [sent]. *)
Lemma after_sends_alone texts w :
  succeed texts ->
  (forall m w', meanwhile E websocket m w' = w') ->
  after_sends E websocket texts w =
    {| current_data := current_data w;
       connected_clients := connected_clients w;
       sent := sent w ++
               map (fun m => {| receiver := websocket; text := m;
                                delivered := true |}) texts |}.
Proof.
  intros Hok Halone. revert w.
  induction Hok as [|m texts Hm _ IH]; intros w.
  - cbn. rewrite app_nil_r. by destruct w.
  - change (after_sends E websocket (m :: texts) w)
      with (after_sends E websocket texts (sending m w)).
    rewrite IH, sending_state, Halone. unfold record, attempt.
    cbn [current_data connected_clients sent map]. rewrite Hm.
    by rewrite <- app_assoc.
Qed.

End Replay.

(** C7, as amended: take a connection that is accepted and whose replay
    sends succeed, among coroutines of the program. The endpoint registers
    the client and then makes the sends of the replay, one for each
    configured symbol that has a cached payload when the loop reaches it,
    in the configured order; then it waits in [receive_text]. While no
    symbol gets its first payload during a pending send of the replay,
    these are the symbols that had a payload when the connection was
    made, each once. While no other coroutine sends to the client during
    a pending send of the replay, the texts of the replay are the first
    that the client receives, before any live message. While the cache is
    not written, they are the texts cached when the connection was made;
    and while nothing else runs at all, nothing else has changed. *)
Theorem replay_on_connection E websocket w :
  let w0 := exec (add websocket) w in
  let trace := replay_trace json_dumps E websocket CURRENCY_PAIRS w0 in
  let w1 := after_sends E websocket (map snd trace) w0 in
  reachable w ->
  accept_outcome E = None ->
  Forall (fun m => send_outcome E websocket m = None) (map snd trace) ->
  (forall m w', rtc step w' (meanwhile E websocket m w')) ->
  websocket_endpoint E websocket w =
    try_finally
      (try_except (receive_loop E) endpoint_handlers (fun _ => skip))
      (cleanup websocket) w1 /\
  websocket ∈ connected_clients w0 /\
  ((forall m w' s,
      s ∈ CURRENCY_PAIRS ->
      has_payload (meanwhile E websocket m w') s = has_payload w' s) ->
   map fst trace = cached w) /\
  ((forall m w',
      inbox websocket (meanwhile E websocket m w') = inbox websocket w') ->
   inbox websocket w1 = inbox websocket w ++ map snd trace) /\
  ((forall m w',
      current_data (meanwhile E websocket m w') = current_data w') ->
   map snd trace = replayed json_dumps w) /\
  ((forall m w', meanwhile E websocket m w' = w') ->
   w1 = replayed_to json_dumps websocket w).
Proof.
  intros w0 trace w1 Hr Ha Ho Hsteps.
  assert (Hk : dom (current_data w0) = list_to_set CURRENCY_PAIRS)
    by apply (reachable_keys _ Hr).
  split; [|split; [|split; [|split; [|split]]]].
  - assert (Hstart : websocket_endpoint E websocket w =
      try_finally
        (try_except (replay E websocket CURRENCY_PAIRS;; receive_loop E)
           endpoint_handlers (fun _ => skip))
        (cleanup websocket) w0).
    { unfold Relay.websocket_endpoint, accept. by rewrite Ha. }
    rewrite Hstart. unfold try_finally, try_except.
    unfold mbind at 1, M_bind at 1.
    by rewrite (replay_is_its_trace E websocket CURRENCY_PAIRS w0).
  - unfold w0, exec, add. cbn. set_solver.
  - intros Hsame. unfold trace.
    by rewrite (trace_symbols E websocket CURRENCY_PAIRS w0).
  - intros Hquiet. unfold w1.
    by rewrite (inbox_after_sends E websocket).
  - intros Hsame. unfold trace.
    by rewrite (trace_texts E websocket CURRENCY_PAIRS w0).
  - intros Halone. unfold w1.
    rewrite (after_sends_alone E websocket) by done.
    unfold trace. rewrite (trace_texts E websocket CURRENCY_PAIRS w0).
    + done.
    + intros m w'. by rewrite Halone.
Qed.

(** *** C9: the replayed text is the broadcast text *)

Lemma replay_cons_filled E websocket symbol rest p w :
  current_data w !! symbol = Some (Filled p) ->
  replay E websocket (symbol :: rest) w =
    (send_text E websocket (json_dumps p);; replay E websocket rest) w.
Proof.
  intros Hp. cbn [Relay.replay].
  unfold mbind at 1, M_bind at 1, load at 1. by rewrite Hp.
Qed.

(** C9: when a call builds the payload [p], it stores [p] under the symbol
    and broadcasts [json_dumps p]; and in any state in which the cached
    value of the symbol is [p], the replay sends [json_dumps p] for the
    symbol. With nothing else running, every client registered at the call
    is sent [json_dumps p], and a replay in the state the call leaves sends
    the same text. *)
Theorem replay_text_is_broadcast_text E symbol p :
  fetch E symbol = Ok (Some p) ->
  (forall w,
     fetch_and_broadcast_data E symbol w =
       try_except
         (store symbol p;;
          clients ← snapshot;
          broadcast E (json_dumps p) clients)
         fetch_handlers (fun _ => skip) w) /\
  (forall w,
     current_data (exec (store symbol p) w) !! symbol = Some (Filled p)) /\
  (forall E' websocket rest w,
     current_data w !! symbol = Some (Filled p) ->
     replay_text json_dumps w symbol = Some (json_dumps p) /\
     replay E' websocket (symbol :: rest) w =
       (send_text E' websocket (json_dumps p);; replay E' websocket rest) w) /\
  (forall w,
     quiet E ->
     let w' := exec (fetch_and_broadcast_data E symbol) w in
     sent w' =
       sent w ++
       map (attempt E (json_dumps p)) (elements (connected_clients w)) /\
     replay_text json_dumps w' symbol = Some (json_dumps p)).
Proof.
  intros Hp. split; [|split; [|split]].
  - intros w. by rewrite fetch_and_broadcast_data_cases, Hp.
  - intros w. cbn. apply lookup_insert_eq.
  - intros E' websocket rest w Hc. split.
    + unfold replay_text. by rewrite Hc.
    + by apply replay_cons_filled.
  - intros w Hq w'. subst w'. unfold exec.
    rewrite (fetch_and_broadcast_data_quiet _ _ _ _ Hq Hp). cbn [fst].
    split; [done|].
    unfold replay_text, published. cbn [current_data].
    by rewrite lookup_insert_eq.
Qed.

(** *** Further properties: the ticker fields *)

Lemma read_ticker_dict d :
  read_ticker (PDict d) =
    new_price ← float_of (chosen d "last" (PFloat zero));
    high_price ← float_of (chosen d "high" (PFloat zero));
    low_price ← float_of (chosen d "low" (PFloat zero));
    volume_24h ← float_of (volume_source d);
    Ok {| t_new_price := new_price;
          t_high_price := high_price;
          t_low_price := low_price;
          t_volume_24h := volume_24h;
          t_percentage_change :=
            compute_percentage_change new_price low_price high_price |}.
Proof. reflexivity. Qed.

(** X1: the numbers of a ticker are read from [last], [high] and [low],
    each [0.0] when the key is missing, and from [vol_idr], or from
    [volume] when there is no [vol_idr], or [0.0] when there is neither;
    only these chosen values are converted, so a malformed [volume] does
    no harm beside a [vol_idr]. A ticker without [last] gives the price
    [0.0] and the change [0.0]. A [ticker] that is not a dict raises
    [AttributeError]. *)
Theorem ticker_numbers_and_defaults :
  (forall d t,
     read_ticker (PDict d) = Ok t <->
     float_of (chosen d "last" (PFloat zero)) = Ok (t_new_price t) /\
     float_of (chosen d "high" (PFloat zero)) = Ok (t_high_price t) /\
     float_of (chosen d "low" (PFloat zero)) = Ok (t_low_price t) /\
     float_of (volume_source d) = Ok (t_volume_24h t) /\
     t_percentage_change t =
       compute_percentage_change (t_new_price t) (t_low_price t)
         (t_high_price t)) /\
  (forall d t,
     assoc "last" d = None ->
     read_ticker (PDict d) = Ok t ->
     t_new_price t = zero /\ t_percentage_change t = zero) /\
  (forall tk,
     (forall d, tk <> PDict d) -> read_ticker tk = Raise AttributeError).
Proof.
  assert (Hiff : forall d t,
     read_ticker (PDict d) = Ok t <->
     float_of (chosen d "last" (PFloat zero)) = Ok (t_new_price t) /\
     float_of (chosen d "high" (PFloat zero)) = Ok (t_high_price t) /\
     float_of (chosen d "low" (PFloat zero)) = Ok (t_low_price t) /\
     float_of (volume_source d) = Ok (t_volume_24h t) /\
     t_percentage_change t =
       compute_percentage_change (t_new_price t) (t_low_price t)
         (t_high_price t)).
  { intros d t. rewrite read_ticker_dict. split.
    - destruct (float_of (chosen d "last" _)) as [a|]; [|discriminate].
      destruct (float_of (chosen d "high" _)) as [b|]; [|discriminate].
      destruct (float_of (chosen d "low" _)) as [c|]; [|discriminate].
      destruct (float_of (volume_source d)) as [v|]; [|discriminate].
      cbn. by intros [= <-].
    - intros (-> & -> & -> & -> & Hpc). cbn. destruct t; cbn in *.
      by rewrite Hpc. }
  split; [exact Hiff|]. split.
  - intros d t Hlast [Ha (_ & _ & _ & Hpc)]%Hiff.
    unfold chosen in Ha. rewrite Hlast in Ha. cbn in Ha.
    injection Ha as Ha. by rewrite Hpc, <- Ha.
  - intros tk Hd. destruct tk; try reflexivity. by destruct (Hd d).
Qed.

(** *** Further properties: a side that is missing or not a list *)

Lemma absent_side data k reverse :
  absent data k -> side data k reverse = Ok None.
Proof.
  unfold side. intros [-> | (v & Hg & Hv)]; [done|].
  rewrite (getitem_contains _ _ _ Hg). cbn. rewrite Hg. cbn.
  destruct v; try reflexivity. by destruct (Hv l).
Qed.

Lemma fetch_sides E symbol t data b s :
  ticker_stage (ticker_reply E) = Ok (Some t) ->
  get_json (depth_reply E) = Ok data ->
  side data "buy" true = Ok b ->
  side data "sell" false = Ok s ->
  fetch E symbol =
    Ok (Some (make_payload symbol t
                {| buy_orders := default [] b; sell_orders := default [] s |}
                (now E))).
Proof.
  intros Ht Hd Hb Hs. rewrite (fetch_after_ticker _ _ _ Ht).
  unfold depth_stage, depth_body. by rewrite Hd, Hb, Hs.
Qed.

(** X2: when the depth body lacks [buy], or holds under it something that
    is not a list, the payload has an empty [buy] side and the [sell] side
    is built as usual, with no exception; the same with the two sides
    exchanged; and when both are absent both sides are empty. *)
Theorem absent_side_is_empty E symbol t data :
  ticker_stage (ticker_reply E) = Ok (Some t) ->
  get_json (depth_reply E) = Ok data ->
  (absent data "buy" ->
   forall s,
     side data "sell" false = Ok s ->
     fetch E symbol =
       Ok (Some (make_payload symbol t
                   {| buy_orders := []; sell_orders := default [] s |}
                   (now E)))) /\
  (absent data "sell" ->
   forall b,
     side data "buy" true = Ok b ->
     fetch E symbol =
       Ok (Some (make_payload symbol t
                   {| buy_orders := default [] b; sell_orders := [] |}
                   (now E)))) /\
  (absent data "buy" -> absent data "sell" ->
   fetch E symbol =
     Ok (Some (make_payload symbol t
                 {| buy_orders := []; sell_orders := [] |} (now E)))).
Proof.
  intros Ht Hd. split; [|split].
  - intros Hb s Hs.
    by rewrite (fetch_sides E symbol t data None s Ht Hd
                  (absent_side _ _ _ Hb) Hs).
  - intros Hs b Hb.
    by rewrite (fetch_sides E symbol t data b None Ht Hd Hb
                  (absent_side _ _ _ Hs)).
  - intros Hb Hs.
    by rewrite (fetch_sides E symbol t data None None Ht Hd
                  (absent_side _ _ _ Hb) (absent_side _ _ _ Hs)).
Qed.

(** *** Further properties: depth exceptions that are not caught *)

(** X3: the clauses of lines 99-103 leave out exactly [TimeoutError],
    [KeyError], [AttributeError], [OverflowError], [WebSocketDisconnect]
    and the other exceptions; when the depth stage raises one of these,
    the exception is caught by line 147 only, and the call returns with
    nothing cached and nothing sent. *)
Theorem depth_exception_outside_handlers_aborts :
  (forall e,
     catches depth_handlers e = false <->
     e ∈ [TimeoutError; KeyError; AttributeError; OverflowError;
          WebSocketDisconnect; RuntimeError]) /\
  (forall E symbol t e w,
     ticker_stage (ticker_reply E) = Ok (Some t) ->
     snd (depth_body (depth_reply E)) = Raise e ->
     catches depth_handlers e = false ->
     fetch_and_broadcast_data E symbol w = (w, Ok tt)).
Proof.
  split.
  - intros e. rewrite !elem_of_cons, elem_of_nil.
    destruct e; cbn; split; intros H; try discriminate; try tauto;
      repeat (destruct H as [H|H]; try discriminate H); done.
  - intros E symbol t e w. apply uncaught_depth_error_aborts.
Qed.

(** *** Further properties: the endpoints *)

Lemma lower_not_upper c : is_upper (lower c) = false.
Proof. destruct c as [[] [] [] [] [] [] [] []]; reflexivity. Qed.

Lemma append_inv_head (a b c : string) :
  (a ++ b = a ++ c)%string -> b = c.
Proof. induction a as [|x a IH]; cbn; [done|]. intros [= H]. by apply IH. Qed.

Lemma pair_path_chars symbol :
  list_ascii_of_string (pair_path symbol) =
    map (fun c => if Ascii.eqb (lower c) "/" then "_"%char else lower c)
      (list_ascii_of_string symbol).
Proof.
  unfold pair_path, str_replace, str_lower.
  rewrite !list_ascii_of_string_of_list_ascii. by rewrite map_map.
Qed.

(** X4: for a symbol of ASCII characters, the path that lines 51-52 put in
    the two URLs has as many characters as the symbol, no slash and no
    upper-case letter, so it is one segment of the URL; the two endpoints
    of a symbol differ; and the sixteen endpoints of the configured
    symbols are all different. *)
Theorem endpoints_are_distinct_segments :
  (forall symbol,
     ascii_only symbol ->
     String.length (pair_path symbol) = String.length symbol /\
     Forall (fun c => c <> "/"%char /\ is_upper c = false)
       (list_ascii_of_string (pair_path symbol))) /\
  (forall symbol, ticker_endpoint symbol <> depth_endpoint symbol) /\
  NoDup (map ticker_endpoint CURRENCY_PAIRS ++
         map depth_endpoint CURRENCY_PAIRS).
Proof.
  split; [|split].
  - intros symbol _. split.
    + rewrite <- (string_of_list_ascii_of_string (pair_path symbol)).
      rewrite pair_path_chars.
      rewrite <- (string_of_list_ascii_of_string symbol) at 2.
      generalize (list_ascii_of_string symbol). intros l.
      induction l as [|c l IH]; cbn; [done|]. by rewrite IH.
    + rewrite pair_path_chars. apply Forall_map, Forall_true. intros c. cbn.
      destruct (Ascii.eqb_spec (lower c) "/") as [He|Hne].
      * by split.
      * split; [done|apply lower_not_upper].
  - intros symbol H. unfold ticker_endpoint, depth_endpoint in H.
    apply append_inv_head, append_inv_head in H. discriminate H.
  - apply (bool_decide_unpack _). by vm_compute.
Qed.

(** *** Further properties: the levels that are kept *)

Lemma sorted_before (os : list order) reverse :
  Forall (fun o : order => is_nan (fst o) = false) os ->
  StronglySorted (before reverse) (sorted fst os reverse).
Proof.
  intros Hc. destruct reverse.
  - by apply (sorted_reverse_descending fst).
  - by apply (sorted_ascending fst).
Qed.

Lemma take_best_of (os : list order) reverse :
  Forall (fun o : order => is_nan (fst o) = false) os ->
  best_of reverse os (take ORDER_BOOK_LIMIT (sorted fst os reverse)).
Proof.
  intros Hc. exists (drop ORDER_BOOK_LIMIT (sorted fst os reverse)).
  split; [|split].
  - rewrite take_drop. apply sorted_perm.
  - rewrite length_take. f_equal. apply Permutation_length, sorted_perm.
  - intros k d Hk Hd.
    pose proof (sorted_before os reverse Hc) as Hs.
    rewrite <- (take_drop ORDER_BOOK_LIMIT) in Hs.
    apply StronglySorted_app in Hs as (Hkd & _ & _). by apply Hkd.
Qed.

Lemma side_of_best r k l reverse :
  k = "buy"%string \/ k = "sell"%string ->
  Forall (fun f => is_nan f = false) (depth_prices r) ->
  side_of r k reverse l ->
  l = [] \/
  exists data entries os,
    get_json r = Ok data /\
    getitem data k = Ok (PList entries) /\
    parse_orders entries = Ok os /\
    best_of reverse os l.
Proof.
  intros Hk Hc [-> | (data & entries & os & Hd & Hg & Hp & ->)]; [by left|].
  right. exists data, entries, os. repeat split; try done.
  apply take_best_of.
  unfold depth_prices in Hc. rewrite Hd in Hc.
  rewrite map_app in Hc. apply Forall_app in Hc as [Hb Hs].
  assert (Hos : parsed_side data k = os)
    by (unfold parsed_side; by rewrite Hg, Hp).
  destruct Hk as [-> | ->]; rewrite Hos in *.
  - by apply Forall_map in Hb.
  - by apply Forall_map in Hs.
Qed.

(** X5: when no price of the depth reply is NaN, each side of a payload is
    empty or holds the best of the levels parsed from its list: the
    [ORDER_BOOK_LIMIT] highest bids, or lowest asks, or all of them when
    there are fewer; no level is made up or repeated, and no level left
    out is better than one that is kept. *)
Theorem sides_keep_the_best_levels E symbol p :
  fetch E symbol = Ok (Some p) ->
  Forall (fun f => is_nan f = false) (depth_prices (depth_reply E)) ->
  (buy_orders (order_book p) = [] \/
   exists data entries os,
     get_json (depth_reply E) = Ok data /\
     getitem data "buy" = Ok (PList entries) /\
     parse_orders entries = Ok os /\
     best_of true os (buy_orders (order_book p))) /\
  (sell_orders (order_book p) = [] \/
   exists data entries os,
     get_json (depth_reply E) = Ok data /\
     getitem data "sell" = Ok (PList entries) /\
     parse_orders entries = Ok os /\
     best_of false os (sell_orders (order_book p))).
Proof.
  intros (t & ob & _ & Hob & ->)%fetch_payload Hc. cbn.
  apply depth_stage_sides in Hob as [Hb Hs]. split.
  - by apply (side_of_best _ "buy"); [left| |].
  - by apply (side_of_best _ "sell"); [right| |].
Qed.

(** X6: the best bid and the best ask that line 124 prints are [0.0] for an
    empty side; for a side that is not empty, and when no price of the
    depth reply is NaN, the best bid is a parsed bid that no parsed bid
    exceeds, and the best ask a parsed ask that no parsed ask is below. *)
Theorem best_prices_are_extremes E symbol p data :
  fetch E symbol = Ok (Some p) ->
  get_json (depth_reply E) = Ok data ->
  Forall (fun f => is_nan f = false) (depth_prices (depth_reply E)) ->
  let buy := buy_orders (order_book p) in
  let sell := sell_orders (order_book p) in
  (buy = [] -> best_price buy = zero) /\
  (sell = [] -> best_price sell = zero) /\
  (buy <> [] ->
   best_price buy ∈ map fst (parsed_side data "buy") /\
   forall o, o ∈ parsed_side data "buy" ->
             fleb (fst o) (best_price buy) = true) /\
  (sell <> [] ->
   best_price sell ∈ map fst (parsed_side data "sell") /\
   forall o, o ∈ parsed_side data "sell" ->
             fleb (best_price sell) (fst o) = true).
Proof.
  intros (t & ob & _ & Hob & ->)%fetch_payload Hd Hc. cbn.
  apply depth_stage_sides in Hob as [Hb Hs].
  split; [by intros ->|]. split; [by intros ->|].
  assert (Hgen : forall k reverse l,
    k = "buy"%string \/ k = "sell"%string ->
    side_of (depth_reply E) k reverse l -> l <> [] ->
    best_price l ∈ map fst (parsed_side data k) /\
    forall o, o ∈ parsed_side data k -> before reverse (best_price l, zero) o).
  { intros k reverse l Hk Hside Hne.
    destruct Hside as [-> | (data' & entries & os & Hd' & Hg & Hp & ->)];
      [done|].
    rewrite Hd in Hd'. injection Hd' as <-.
    assert (Hos : parsed_side data k = os)
      by (unfold parsed_side; by rewrite Hg, Hp).
    rewrite Hos.
    assert (Hclean : Forall (fun o : order => is_nan (fst o) = false) os).
    { unfold depth_prices in Hc. rewrite Hd in Hc.
      rewrite map_app in Hc. apply Forall_app in Hc as [Hcb Hcs].
      destruct Hk as [-> | ->]; rewrite Hos in *.
      - by apply Forall_map in Hcb.
      - by apply Forall_map in Hcs. }
    pose proof (sorted_before os reverse Hclean) as Hsorted.
    pose proof (sorted_perm fst os reverse) as Hperm.
    destruct (sorted fst os reverse) as [|[hp ha] rest] eqn:Hso;
      [by destruct Hne|].
    cbn. apply StronglySorted_cons in Hsorted as [Hall _].
    assert (Hin : (hp, ha) ∈ os) by (rewrite <- Hperm; left).
    split.
    - apply list_elem_of_fmap. by exists (hp, ha).
    - intros o Ho. rewrite <- Hperm in Ho.
      apply elem_of_cons in Ho as [-> | Ho].
      + rewrite Forall_forall in Hclean. specialize (Hclean _ Hin).
        cbn in Hclean. unfold before. cbn.
        assert (fleb hp hp = true).
        { apply fleb_rank. repeat split; try done. unfold rank_le. lia. }
        by destruct reverse.
      + rewrite Forall_forall in Hall. specialize (Hall _ Ho).
        unfold before in *. by destruct reverse. }
  split.
  - intros Hne. destruct (Hgen "buy"%string true _ (or_introl eq_refl) Hb Hne)
      as [Hin Hmax]. split; [done|]. intros o Ho. exact (Hmax o Ho).
  - intros Hne. destruct (Hgen "sell"%string false _ (or_intror eq_refl) Hs Hne)
      as [Hin Hmin]. split; [done|]. intros o Ho. exact (Hmin o Ho).
Qed.

(** *** Further properties: a broadcast in isolation *)

Lemma inbox_app c w evs :
  inbox c {| current_data := current_data w;
             connected_clients := connected_clients w;
             sent := sent w ++ evs |} =
    inbox c w ++
    map text (filter (fun ev => receiver ev = c /\ delivered ev = true) evs).
Proof. unfold inbox. cbn [sent]. by rewrite filter_app, map_app. Qed.

Lemma inbox_of_attempts E m c l :
  NoDup l ->
  map text (filter (fun ev => receiver ev = c /\ delivered ev = true)
              (map (attempt E m) l)) =
    if bool_decide (c ∈ l /\ send_outcome E c m = None) then [m] else [].
Proof.
  induction l as [|x l IH]; intros Hnd.
  - cbn. rewrite bool_decide_eq_false_2; [done|]. by intros [?%elem_of_nil _].
  - apply NoDup_cons in Hnd as [Hx Hnd]. cbn [map].
    destruct (decide (x = c /\ send_outcome E x m = None)) as [[-> Ho]|Hno].
    + rewrite filter_cons_True
        by (cbn; split; [done|by apply bool_decide_eq_true_2]).
      cbn [map text attempt]. rewrite IH by done.
      rewrite (bool_decide_eq_false_2 (c ∈ l /\ _)) by (by intros [? _]).
      rewrite bool_decide_eq_true_2; [done|]. split; [left|done].
    + rewrite filter_cons_False.
      2:{ cbn. intros [-> Hd]. apply Hno. split; [done|].
          by apply bool_decide_eq_true_1 in Hd. }
      rewrite IH by done.
      apply (f_equal (fun b : bool => if b then [m] else [])).
      apply bool_decide_ext. split.
      * intros [Hin Ho]. split; [by right|done].
      * intros [Hin Ho]. split; [|done].
        apply elem_of_cons in Hin as [->|Hin]; [|done].
        by destruct Hno.
Qed.

(** X7: a call that builds a payload, with no other coroutine running
    during its sends, returns; afterwards the registered clients are those
    that were registered and whose send succeeded; each of these has
    received the text exactly once, and nobody else has received
    anything. *)
Theorem broadcast_delivers_once_and_drops_failing E symbol p w :
  quiet E ->
  fetch E symbol = Ok (Some p) ->
  let w' := exec (fetch_and_broadcast_data E symbol) w in
  let reached c :=
    c ∈ connected_clients w /\ send_outcome E c (json_dumps p) = None in
  snd (fetch_and_broadcast_data E symbol w) = Ok tt /\
  (forall c, c ∈ connected_clients w' <-> reached c) /\
  (forall c,
     inbox c w' =
       inbox c w ++ if bool_decide (reached c) then [json_dumps p] else []).
Proof.
  intros Hq Hp. unfold exec.
  rewrite (fetch_and_broadcast_data_quiet _ _ p) by done.
  cbn [fst snd]. split; [done|]. split.
  - intros c. unfold published. cbn [connected_clients].
    rewrite elem_of_difference, elem_of_list_to_set. unfold failing.
    rewrite list_elem_of_filter, elem_of_elements. split.
    + intros [Hin Hno]. split; [done|].
      destruct (send_outcome E c (json_dumps p)) eqn:Ho; [|done].
      destruct Hno. by split.
    + intros [Hin Ho]. split; [done|]. intros [Hne _]. by apply Hne.
  - intros c. unfold published, inbox. cbn [sent].
    rewrite filter_app, map_app. f_equal.
    rewrite inbox_of_attempts by apply NoDup_elements.
    apply (f_equal (fun b : bool => if b then [json_dumps p] else [])).
    apply bool_decide_ext. by rewrite elem_of_elements.
Qed.

(** X8: with no other coroutine running during its sends, a call for a
    symbol leaves the cache entries of all other symbols as they are, and
    registers nobody; its own entry is as it was, or is the payload this
    call built, whose [symbol] field is the symbol. *)
Theorem call_touches_only_its_symbol E symbol w :
  quiet E ->
  let w' := exec (fetch_and_broadcast_data E symbol) w in
  (forall s, s <> symbol -> current_data w' !! s = current_data w !! s) /\
  connected_clients w' ⊆ connected_clients w /\
  (w' = w \/
   exists p,
     fetch E symbol = Ok (Some p) /\
     Relay.symbol p = symbol /\
     current_data w' !! symbol = Some (Filled p)).
Proof.
  intros Hq. unfold exec.
  destruct (fetch E symbol) as [[p|]|e] eqn:Hf.
  - rewrite (fetch_and_broadcast_data_quiet _ _ p) by done.
    unfold published. cbn [fst current_data connected_clients].
    split; [|split].
    + intros s Hs. by rewrite lookup_insert_ne.
    + set_solver.
    + right. exists p. split; [done|]. split; [|by rewrite lookup_insert_eq].
      apply fetch_payload in Hf as (t & ob & _ & _ & ->). done.
  - rewrite fetch_and_broadcast_data_cases, Hf. cbn. by repeat split; [|left].
  - rewrite fetch_and_broadcast_data_cases, Hf, fetch_handler_cases. cbn.
    by repeat split; [|left].
Qed.

(** *** Further properties: the producer *)

(** A call from which an exception escapes: the body of the [try] raised
    a [JSONDecodeError] and the handler of line 142 raised in turn. *)
Lemma fetch_and_broadcast_data_raises E symbol w e :
  snd (fetch_and_broadcast_data E symbol w) = Raise e ->
  fetch E symbol = Raise JSONDecodeError /\ ticker_text E = Some e.
Proof.
  rewrite fetch_and_broadcast_data_result.
  destruct (fetch E symbol) as [[p|]|e0]; try discriminate.
  destruct e0; try discriminate.
  destruct (ticker_text E); [|discriminate]. by intros [= ->].
Qed.

(** Where the [JSONDecodeError] can come from. *)
Lemma fetch_decode_error E symbol :
  fetch E symbol = Raise JSONDecodeError ->
  ticker_stage (ticker_reply E) = Raise JSONDecodeError \/
  (snd (depth_body (depth_reply E)) = Raise JSONDecodeError /\
   depth_text E = Some JSONDecodeError).
Proof.
  unfold fetch.
  destruct (ticker_stage (ticker_reply E)) as [[t|]|e]; simpl;
    [|discriminate|intros [= ->]; by left].
  unfold depth_stage.
  destruct (depth_body (depth_reply E)) as [ob [[]|e]]; simpl;
    [discriminate|].
  destruct (catches depth_handlers e) eqn:Hc.
  - rewrite depth_handler_cases.
    destruct (decide (e = JSONDecodeError)) as [->|Hne].
    + rewrite bool_decide_eq_true_2 by done.
      destruct (depth_text E) as [e'|]; simpl; [|discriminate].
      intros [= ->]. by right.
    + rewrite bool_decide_eq_false_2 by done.
      destruct e; simpl; discriminate.
  - destruct e; simpl; try discriminate; discriminate Hc.
Qed.

Lemma undecodable_ticker_raises E symbol w e :
  ticker_stage (ticker_reply E) = Raise JSONDecodeError ->
  ticker_text E = Some e ->
  fetch_and_broadcast_data E symbol w = (w, Raise e).
Proof.
  intros Ht He. rewrite fetch_and_broadcast_data_cases.
  unfold fetch. rewrite Ht. simpl. rewrite fetch_handler_cases.
  by rewrite He.
Qed.

Lemma gather_returns E symbols w :
  (forall s, s ∈ symbols -> ticker_text (E s) = None) ->
  snd (gather json_dumps E symbols w) = Ok tt.
Proof.
  revert w. induction symbols as [|s rest IH]; intros w Hs; [done|].
  cbn [gather].
  pose proof (fetch_and_broadcast_data_result (E s) s w) as Hr.
  rewrite (Hs s) in Hr by left.
  destruct (fetch_and_broadcast_data (E s) s w) as [w1 r]. cbn in Hr.
  assert (Hrest : snd (gather json_dumps E rest w1) = Ok tt).
  { apply IH. intros s' Hs'. apply Hs. by right. }
  destruct (gather json_dumps E rest w1) as [w2 r2]. cbn in *.
  subst r r2. by destruct (fetch (E s) s) as [[p|]|[]].
Qed.

Lemma gather_raises E symbols s e w :
  s ∈ symbols ->
  ticker_stage (ticker_reply (E s)) = Raise JSONDecodeError ->
  ticker_text (E s) = Some e ->
  exists e', snd (gather json_dumps E symbols w) = Raise e'.
Proof.
  intros Hin Ht He. revert w.
  induction symbols as [|s0 rest IH]; intros w;
    [by apply elem_of_nil in Hin|].
  cbn [gather].
  destruct (fetch_and_broadcast_data (E s0) s0 w) as [w1 [[]|e1]] eqn:H0.
  - apply elem_of_cons in Hin as [->|Hin].
    + by rewrite (undecodable_ticker_raises _ _ _ e) in H0.
    + destruct (IH Hin w1) as [e' He'].
      destruct (gather json_dumps E rest w1) as [w2 r2]. cbn in *.
      by exists e'.
  - destruct (gather json_dumps E rest w1) as [w2 r2]. by exists e1.
Qed.

Lemma turns_returns E idle k n w :
  (forall i s, ticker_text (E i s) = None) ->
  snd (turns json_dumps E idle k n w) = Ok tt.
Proof.
  intros Hs. revert k w. induction n as [|n IH]; intros k w; [done|].
  cbn [turns]. unfold mbind, M_bind.
  pose proof (gather_returns (E k) CURRENCY_PAIRS w (fun s _ => Hs k s))
    as Hr.
  unfold producer_cycle.
  destruct (gather json_dumps (E k) CURRENCY_PAIRS w) as [w1 r]. cbn in Hr.
  subst r. apply IH.
Qed.

(** X9: an exception leaves [fetch_and_broadcast_data] only when a
    [JSONDecodeError] reached line 141 -- the ticker body did not decode,
    or the handler of line 102 raised one -- and reading the body for the
    message of line 142 raised; it is the exception of that read, and the
    state is as it was. It does leave whenever the ticker body does not
    decode and that read raises. So when no such read raises, any number
    of turns of [producer_task] run to their end; and when it does in a
    call of the first turn, the other calls of the turn run on, [gather]
    raises, and the loop ends there: no later turn runs. *)
Theorem only_the_message_of_line_142_stops_the_producer :
  (forall E symbol w e,
     snd (fetch_and_broadcast_data E symbol w) = Raise e ->
     ticker_text E = Some e /\
     (ticker_stage (ticker_reply E) = Raise JSONDecodeError \/
      (snd (depth_body (depth_reply E)) = Raise JSONDecodeError /\
       depth_text E = Some JSONDecodeError)) /\
     fst (fetch_and_broadcast_data E symbol w) = w) /\
  (forall E symbol w e,
     ticker_stage (ticker_reply E) = Raise JSONDecodeError ->
     ticker_text E = Some e ->
     fetch_and_broadcast_data E symbol w = (w, Raise e)) /\
  (forall E idle n w,
     (forall i s, ticker_text (E i s) = None) ->
     snd (producer_task json_dumps E idle n w) = Ok tt) /\
  (forall E idle n w s e,
     s ∈ CURRENCY_PAIRS ->
     ticker_stage (ticker_reply (E O s)) = Raise JSONDecodeError ->
     ticker_text (E O s) = Some e ->
     exists e',
       producer_task json_dumps E idle (S n) w =
         (exec (producer_cycle json_dumps (E O)) w, Raise e')).
Proof.
  split; [|split; [|split]].
  - intros E symbol w e Hr.
    destruct (fetch_and_broadcast_data_raises _ _ _ _ Hr) as [Hf Ht].
    split; [done|]. split; [by apply (fetch_decode_error E symbol)|].
    apply fetch_and_broadcast_data_idle. intros p. by rewrite Hf.
  - apply undecodable_ticker_raises.
  - intros E idle n w. apply turns_returns.
  - intros E idle n w s e Hin Ht He.
    destruct (gather_raises (E O) CURRENCY_PAIRS s e w Hin Ht He)
      as [e' He'].
    exists e'. unfold producer_task, exec. cbn [turns].
    unfold mbind, M_bind, producer_cycle in *.
    destruct (gather json_dumps (E O) CURRENCY_PAIRS w) as [w1 r].
    cbn in *. by subst r.
Qed.

Lemma moves_turns E idle k n :
  (forall i s, cooperative (E i s)) ->
  (forall i w, rtc step w (idle i w)) ->
  moves (turns json_dumps E idle k n).
Proof.
  intros HE Hidle. revert k. induction n as [|n IH]; intros k.
  - apply moves_ret.
  - cbn [turns]. apply moves_bind.
    + apply moves_gather; [apply HE|done].
    + intros _. apply moves_bind; [|intros _; apply IH].
      intros w. apply Hidle.
Qed.

Lemma step_filled s w w' : step w w' -> filled s w -> filled s w'.
Proof.
  intros Hstep [p Hp]. destruct Hstep as [symbol q w _|c w|c w|ev w].
  - unfold exec, store, filled. cbn [fst current_data].
    destruct (decide (symbol = s)) as [->|Hne].
    + exists q. by rewrite lookup_insert_eq.
    + exists p. by rewrite lookup_insert_ne.
  - by exists p.
  - exists p. unfold exec, remove. by destruct (decide _).
  - by exists p.
Qed.

Lemma steps_filled s w w' : rtc step w w' -> filled s w -> filled s w'.
Proof.
  induction 1 as [|w1 w2 w3 Hs _ IH]; [done|].
  intros Hf. by apply IH, (step_filled s w1).
Qed.

(** X10: the cache never forgets. No step of the program empties or
    deletes an entry: a symbol that has a cached payload has one in every
    later state, whatever the coroutines that run -- a fetch, also one
    that fails, a connection, any number of turns of the producer. *)
Theorem cached_payload_is_never_dropped :
  (forall s w w', rtc step w w' -> filled s w -> filled s w') /\
  (forall E symbol s w,
     cooperative E -> symbol ∈ CURRENCY_PAIRS -> filled s w ->
     filled s (exec (fetch_and_broadcast_data E symbol) w)) /\
  (forall E c s w,
     cooperative E -> filled s w ->
     filled s (exec (websocket_endpoint E c) w)) /\
  (forall E idle n s w,
     (forall i s', cooperative (E i s')) ->
     (forall i w0, rtc step w0 (idle i w0)) ->
     filled s w ->
     filled s (exec (producer_task json_dumps E idle n) w)).
Proof.
  split; [|split; [|split]].
  - apply steps_filled.
  - intros E symbol s w HE Hs. apply steps_filled.
    by apply moves_fetch_and_broadcast_data.
  - intros E c s w HE. apply steps_filled. by apply moves_websocket_endpoint.
  - intros E idle n s w HE Hidle. apply steps_filled.
    by apply moves_turns.
Qed.

(** *** Further properties: a connection *)

Lemma endpoint_handlers_catch_all e : catches endpoint_handlers e = true.
Proof. by destruct e. Qed.



Lemma replay_text_same_data w w' :
  current_data w' = current_data w ->
  replay_text json_dumps w' = replay_text json_dumps w.
Proof.
  intros Hd. unfold replay_text.
  apply (f_equal (fun d (s : string) =>
    match d !! s with Some (Filled p) => Some (json_dumps p) | _ => None end)).
  exact Hd.
Qed.

Lemma replay_alone E c symbols :
  (forall m w', meanwhile E c m w' = w') ->
  forall w,
    (forall s, s ∈ symbols -> is_Some (current_data w !! s)) ->
    fst (replay E c symbols w) =
      {| current_data := current_data w;
         connected_clients := connected_clients w;
         sent := sent w ++
                 replay_events E c (omap (replay_text json_dumps w) symbols) |}.
Proof.
  intros Hm. induction symbols as [|s rest IH]; intros w Hk.
  - cbn. rewrite app_nil_r. by destruct w.
  - destruct (Hk s) as [e He]; [by left|].
    assert (Hrest : forall s', s' ∈ rest -> is_Some (current_data w !! s'))
      by (intros s' Hs'; apply Hk; by right).
    cbn [Relay.replay omap list_omap]. unfold replay_text at 1.
    unfold mbind at 1, M_bind at 1, load at 1. rewrite He.
    destruct e as [|p].
    + unfold mbind at 1, M_bind at 1, skip at 1, mret, M_ret.
      by rewrite IH.
    + unfold mbind at 1, M_bind at 1, send_text. rewrite Hm.
      cbn [replay_events]. unfold attempt.
      destruct (send_outcome E c (json_dumps p)) as [e|] eqn:Ho.
      * done.
      * rewrite IH by done. cbn [record current_data connected_clients sent].
        by rewrite <- app_assoc.
Qed.

Lemma nobody_writes fs w :
  Forall (fun others : world -> world => forall w', others w' = w') fs ->
  fold_left (fun w' others => others w') fs w = w.
Proof.
  intros Hfs. revert w. induction Hfs as [|f fs Hf _ IH]; intros w; [done|].
  cbn. by rewrite Hf, IH.
Qed.

(** X12: a whole connection with no other coroutine running while it
    lasts. It is accepted and registered; the texts of the cached payloads
    are sent to it in the configured order, up to and including the first
    send that fails, after which the replay is given up; when the client
    hangs up, or after the failed send, it is deregistered and the
    endpoint returns. The cache is as it was, and so is the registry but
    for this client. *)
Theorem connection_in_isolation E c w :
  reachable w ->
  accept_outcome E = None ->
  (forall m w', meanwhile E c m w' = w') ->
  Forall (fun others : world -> world => forall w', others w' = w')
    (inbound E) ->
  websocket_endpoint E c w =
    ({| current_data := current_data w;
        connected_clients := connected_clients w ∖ {[c]};
        sent := sent w ++ replay_events E c (replayed json_dumps w) |},
     Ok tt).
Proof.
  intros Hr Ha Hm Hin.
  unfold Relay.websocket_endpoint, accept, lift.
  unfold mbind at 1, M_bind at 1. rewrite Ha.
  unfold mbind at 1, M_bind at 1. cbn [add].
  set (w0 := {| current_data := current_data w;
                connected_clients := {[c]} ∪ connected_clients w;
                sent := sent w |}).
  assert (Hk : forall s, s ∈ CURRENCY_PAIRS -> is_Some (current_data w0 !! s)).
  { intros s Hs. cbn. apply elem_of_dom. rewrite reachable_keys by done.
    by apply elem_of_list_to_set. }
  pose proof (replay_alone E c CURRENCY_PAIRS Hm w0 Hk) as Hrep.
  cbn [current_data connected_clients sent w0] in Hrep.
  fold (replayed json_dumps w0) in Hrep.
  unfold try_finally, try_except.
  unfold mbind at 1, M_bind at 1.
  destruct (replay E c CURRENCY_PAIRS w0) as [w1 r]. cbn [fst] in Hrep.
  assert (Hbody :
    (let (w', r0) :=
       match r with
       | Ok a => (fun _ : unit => receive_loop E) a w1
       | Raise e => (w1, Raise e)
       end in
     match r0 with
     | Ok a => (w', Ok a)
     | Raise e =>
         if catches endpoint_handlers e then skip w' else (w', Raise e)
     end) = (w1, Ok tt)).
  { destruct r as [[]|e].
    - unfold receive_loop. rewrite endpoint_handlers_catch_all.
      by rewrite nobody_writes.
    - by rewrite endpoint_handlers_catch_all. }
  rewrite Hbody. subst w1.
  unfold cleanup, connected, mbind, M_bind. cbn [connected_clients].
  rewrite bool_decide_eq_true_2 by set_solver.
  unfold remove. cbn [connected_clients].
  rewrite decide_True by set_solver. cbn [current_data sent].
  do 2 f_equal. set_solver.
Qed.

(** *** Further properties: a turn of the producer and the replay *)

Lemma nobody_fails E m l :
  (forall c, send_outcome E c m = None) -> failing E m l = [].
Proof.
  intros Ho. unfold failing. induction l as [|c l IH]; [done|].
  rewrite filter_cons_False; [done|]. intros Hne. by apply Hne.
Qed.

Lemma omap_nil_inv {A B} (f : A -> option B) (l : list A) :
  omap f l = [] -> forall a, a ∈ l -> f a = None.
Proof.
  induction l as [|x l IH]; intros H a Ha; [by apply elem_of_nil in Ha|].
  cbn in H. destruct (f x) eqn:Hx; [discriminate|].
  apply elem_of_cons in Ha as [->|Ha]; [done|by apply IH].
Qed.

Lemma gather_cons_state E s rest w :
  exec (gather json_dumps E (s :: rest)) w =
    exec (gather json_dumps E rest)
      (exec (Relay.fetch_and_broadcast_data json_dumps (E s) s) w).
Proof.
  unfold exec. cbn [gather].
  destruct (Relay.fetch_and_broadcast_data json_dumps (E s) s w) as [w1 r1].
  cbn [fst]. by destruct (gather json_dumps E rest w1) as [w2 r2].
Qed.

Lemma gather_quiet E symbols :
  (forall s, quiet (E s)) ->
  (forall s c m, send_outcome (E s) c m = None) ->
  NoDup symbols ->
  forall w,
    let w' := exec (gather json_dumps E symbols) w in
    connected_clients w' = connected_clients w /\
    sent w' =
      sent w ++
      flat_map (fun m => map (fun c => {| receiver := c; text := m;
                                          delivered := true |})
                             (elements (connected_clients w)))
               (omap (live_text json_dumps E) symbols) /\
    forall s,
      replay_text json_dumps w' s =
        if bool_decide (s ∈ symbols) then
          match live_text json_dumps E s with
          | Some m => Some m
          | None => replay_text json_dumps w s
          end
        else replay_text json_dumps w s.
Proof.
  intros Hq Ho. induction symbols as [|s rest IH]; intros Hnd w.
  - cbn. rewrite app_nil_r. by repeat split.
  - apply NoDup_cons in Hnd as [Hs Hnd]. specialize (IH Hnd).
    cbn zeta. rewrite gather_cons_state.
    assert (Hidle : (forall p, fetch (E s) s <> Ok (Some p)) ->
                    exec (fetch_and_broadcast_data (E s) s) w = w)
      by apply fetch_and_broadcast_data_idle.
    cbn [omap list_omap]. unfold live_text at 1.
    destruct (fetch (E s) s) as [[p|]|e] eqn:Hf.
    + assert (Hpub : exec (fetch_and_broadcast_data (E s) s) w =
                       published (E s) s p (json_dumps p) w).
      { unfold exec. by rewrite (fetch_and_broadcast_data_quiet _ _ p). }
      rewrite Hpub.
      destruct (IH (published (E s) s p (json_dumps p) w))
        as (Hcl & Hsent & Hrt).
      assert (Hsame : connected_clients (published (E s) s p (json_dumps p) w)
                      = connected_clients w).
      { unfold published. cbn [connected_clients].
        rewrite nobody_fails by (intros c; apply Ho). cbn. set_solver. }
      split; [by rewrite Hcl|]. split.
      * rewrite Hsent, Hsame. unfold published. cbn [sent flat_map].
        rewrite <- !app_assoc. do 2 f_equal.
        apply map_ext. intros c. unfold attempt. by rewrite Ho.
      * intros s'. rewrite Hrt.
        destruct (decide (s' = s)) as [->|Hne].
        -- rewrite (bool_decide_eq_false_2 (s ∈ rest)) by done.
           rewrite bool_decide_eq_true_2 by left.
           unfold live_text. rewrite Hf. unfold replay_text, published.
           cbn [current_data]. by rewrite lookup_insert_eq.
        -- assert (Hold : replay_text json_dumps
                            (published (E s) s p (json_dumps p) w) s'
                          = replay_text json_dumps w s').
           { unfold replay_text, published. cbn [current_data].
             by rewrite lookup_insert_ne. }
           rewrite Hold.
           apply (f_equal (fun b : bool => if b then _ else _)).
           apply bool_decide_ext. rewrite elem_of_cons. naive_solver.
    + rewrite Hidle by done. destruct (IH w) as (Hcl & Hsent & Hrt).
      split; [done|]. split; [done|].
      intros s'. rewrite Hrt.
      destruct (decide (s' = s)) as [->|Hne].
      * rewrite (bool_decide_eq_false_2 (s ∈ rest)) by done.
        rewrite bool_decide_eq_true_2 by left.
        unfold live_text. by rewrite Hf.
      * apply (f_equal (fun b : bool => if b then _ else _)).
        apply bool_decide_ext. rewrite elem_of_cons. naive_solver.
    + rewrite Hidle by done. destruct (IH w) as (Hcl & Hsent & Hrt).
      split; [done|]. split; [done|].
      intros s'. rewrite Hrt.
      destruct (decide (s' = s)) as [->|Hne].
      * rewrite (bool_decide_eq_false_2 (s ∈ rest)) by done.
        rewrite bool_decide_eq_true_2 by left.
        unfold live_text. by rewrite Hf.
      * apply (f_equal (fun b : bool => if b then _ else _)).
        apply bool_decide_ext. rewrite elem_of_cons. naive_solver.
Qed.

Lemma inbox_of_round c (l : list ws) texts :
  NoDup l ->
  map text
    (filter (fun ev => receiver ev = c /\ delivered ev = true)
       (flat_map (fun m => map (fun c' => {| receiver := c'; text := m;
                                             delivered := true |}) l)
                 texts)) =
    if bool_decide (c ∈ l) then texts else [].
Proof.
  intros Hnd. induction texts as [|m texts IH].
  - cbn. by destruct (bool_decide _).
  - cbn [flat_map]. rewrite filter_app, map_app, IH.
    assert (Hone :
      map text
        (filter (fun ev => receiver ev = c /\ delivered ev = true)
           (map (fun c' => {| receiver := c'; text := m;
                              delivered := true |}) l)) =
        if bool_decide (c ∈ l) then [m] else []).
    { clear IH. induction l as [|x l IHl].
      - cbn. rewrite bool_decide_eq_false_2; [done|]. apply not_elem_of_nil.
      - apply NoDup_cons in Hnd as [Hx Hnd]. cbn [map].
        destruct (decide (x = c)) as [->|Hne].
        + rewrite filter_cons_True by done. cbn [map text].
          rewrite IHl by done.
          rewrite (bool_decide_eq_false_2 (c ∈ l)) by done.
          by rewrite bool_decide_eq_true_2 by left.
        + rewrite filter_cons_False by (cbn; naive_solver).
          rewrite IHl by done.
          apply (f_equal (fun b : bool => if b then _ else _)).
          apply bool_decide_ext. rewrite elem_of_cons. naive_solver. }
    rewrite Hone. by destruct (bool_decide _).
Qed.

(** X13: the calls of a turn of the producer, completing one after the
    other in any order, with every send succeeding and no other coroutine
    running. Each client registered before the turn receives the texts of
    the calls that built a payload, one each, in the order in which the
    calls complete, and stays registered; nobody else receives anything.
    Afterwards the text replayed for a configured symbol is the one this
    turn sent for it, or, when its call built no payload, the one replayed
    before -- so on a cache that had nothing to replay, a client
    connecting after the turn is replayed the texts that the clients
    registered during the turn received, in the configured order. *)
Theorem turn_and_replay_agree E order w :
  order ≡ₚ CURRENCY_PAIRS ->
  (forall s, quiet (E s)) ->
  (forall s c m, send_outcome (E s) c m = None) ->
  let w' := exec (gather json_dumps E order) w in
  let live := omap (live_text json_dumps E) in
  connected_clients w' = connected_clients w /\
  (forall c, c ∈ connected_clients w -> inbox c w' = inbox c w ++ live order) /\
  (forall c, c ∉ connected_clients w -> inbox c w' = inbox c w) /\
  (forall s,
     s ∈ CURRENCY_PAIRS ->
     replay_text json_dumps w' s =
       match live_text json_dumps E s with
       | Some m => Some m
       | None => replay_text json_dumps w s
       end) /\
  (replayed json_dumps w = [] ->
   replayed json_dumps w' = live CURRENCY_PAIRS /\
   replayed json_dumps w' ≡ₚ live order).
Proof.
  intros Hperm Hq Ho.
  assert (Hnd : NoDup order).
  { rewrite Hperm. apply (bool_decide_unpack _). by vm_compute. }
  destruct (gather_quiet E order Hq Ho Hnd w) as (Hcl & Hsent & Hrt).
  cbn zeta.
  assert (Hinbox : forall c,
    inbox c (exec (gather json_dumps E order) w) =
      inbox c w ++
      if bool_decide (c ∈ connected_clients w)
      then omap (live_text json_dumps E) order else []).
  { intros c. unfold inbox at 1. rewrite Hsent, filter_app, map_app.
    rewrite inbox_of_round by apply NoDup_elements.
    f_equal. apply (f_equal (fun b : bool => if b then _ else _)).
    apply bool_decide_ext, elem_of_elements. }
  assert (Hnew : forall s,
    s ∈ CURRENCY_PAIRS ->
    replay_text json_dumps (exec (gather json_dumps E order) w) s =
      match live_text json_dumps E s with
      | Some m => Some m
      | None => replay_text json_dumps w s
      end).
  { intros s Hs. rewrite Hrt. rewrite bool_decide_eq_true_2; [done|].
    by rewrite Hperm. }
  split; [done|]. split; [|split; [|split]].
  - intros c Hc. rewrite Hinbox. by rewrite bool_decide_eq_true_2.
  - intros c Hc. rewrite Hinbox. rewrite bool_decide_eq_false_2 by done.
    by rewrite app_nil_r.
  - exact Hnew.
  - intros Hempty.
    assert (Hconf : replayed json_dumps (exec (gather json_dumps E order) w)
                    = omap (live_text json_dumps E) CURRENCY_PAIRS).
    { unfold replayed. apply omap_ext_in. intros s Hs.
      rewrite Hnew by done.
      rewrite (omap_nil_inv _ _ Hempty s Hs).
      by destruct (live_text _ _ _). }
    split; [done|]. rewrite Hconf. by rewrite Hperm.
Qed.

(** *** Further properties: levels at the same price *)

Lemma same_price_not_below x y k :
  same_price x k = true -> same_price y k = true -> fltb x y = false.
Proof.
  unfold same_price. intros [Hxk Hkx]%andb_true_iff [Hyk Hky]%andb_true_iff.
  apply fleb_rank in Hxk as (Hx & Hk & Hxk).
  apply fleb_rank in Hkx as (_ & _ & Hkx).
  apply fleb_rank in Hyk as (Hy & _ & Hyk).
  apply fleb_rank in Hky as (_ & _ & Hky).
  apply fltb_rank; [done|done|]. unfold rank_le in *. lia.
Qed.

Lemma at_price_insert k (x : order) acc :
  at_price k (insert fst x acc) = at_price k (x :: acc).
Proof.
  unfold at_price. induction acc as [|y acc IH]; [done|]. cbn [insert].
  destruct (fltb (fst x) (fst y)) eqn:Hlt; [|done].
  rewrite filter_cons, IH, !filter_cons.
  destruct (decide (same_price (fst y) k = true)) as [Hy|Hy]; [|done].
  destruct (decide (same_price (fst x) k = true)) as [Hx|Hx]; [|done].
  by rewrite (same_price_not_below _ _ k Hx Hy) in Hlt.
Qed.

Lemma at_price_fold k (l acc : list order) :
  at_price k (fold_left (fun acc x => insert fst x acc) l acc) =
    rev (at_price k l) ++ at_price k acc.
Proof.
  revert acc. induction l as [|x l IH]; intros acc; [done|].
  cbn [fold_left]. rewrite IH, at_price_insert. unfold at_price.
  rewrite !filter_cons.
  destruct (decide (same_price (fst x) k = true)); [|done].
  cbn [rev]. by rewrite <- app_assoc.
Qed.

Lemma at_price_rev k (l : list order) :
  at_price k (rev l) = rev (at_price k l).
Proof.
  unfold at_price. induction l as [|x l IH]; [done|].
  cbn [rev]. rewrite filter_app, IH, filter_cons.
  destruct (decide (same_price (fst x) k = true)).
  - by rewrite filter_cons_True by done.
  - rewrite filter_cons_False by done. cbn. by rewrite app_nil_r.
Qed.

Lemma at_price_sorted k (os : list order) reverse :
  at_price k (sorted fst os reverse) = at_price k os.
Proof.
  assert (Hsort : forall l : list order,
            at_price k (sort fst l) = at_price k l).
  { intros l. unfold sort. rewrite at_price_rev, at_price_fold.
    cbn. by rewrite app_nil_r, rev_involutive. }
  unfold sorted. destruct reverse; [|apply Hsort].
  by rewrite at_price_rev, Hsort, at_price_rev, rev_involutive.
Qed.

Lemma at_price_side r k0 reverse l data k :
  get_json r = Ok data ->
  side_of r k0 reverse l ->
  at_price k l `prefix_of` at_price k (parsed_side data k0).
Proof.
  intros Hd [-> | (data' & entries & os & Hd' & Hg & Hp & ->)].
  - apply prefix_nil.
  - rewrite Hd in Hd'. injection Hd' as <-.
    assert (Hos : parsed_side data k0 = os)
      by (unfold parsed_side; by rewrite Hg, Hp).
    rewrite Hos, <- (at_price_sorted k os reverse).
    rewrite <- (take_drop ORDER_BOOK_LIMIT (sorted fst os reverse)) at 2.
    unfold at_price. rewrite filter_app. by apply prefix_app_r.
Qed.

(** X14: the sort of lines 90 and 95 is stable, also with [reverse=True]:
    when no price of the depth reply is NaN, the levels that a side of the
    payload has at one price are in the order in which the exchange lists
    them, and they are the first of those the exchange lists at that
    price; the cut at [ORDER_BOOK_LIMIT] can only drop the later ones. *)
Theorem levels_at_one_price_keep_their_order E symbol p data :
  fetch E symbol = Ok (Some p) ->
  get_json (depth_reply E) = Ok data ->
  Forall (fun f => is_nan f = false) (depth_prices (depth_reply E)) ->
  forall k,
    at_price k (buy_orders (order_book p))
      `prefix_of` at_price k (parsed_side data "buy") /\
    at_price k (sell_orders (order_book p))
      `prefix_of` at_price k (parsed_side data "sell").
Proof.
  intros (t & ob & _ & Hob & ->)%fetch_payload Hd _ k. cbn.
  apply depth_stage_sides in Hob as [Hb Hs]. split.
  - by apply (at_price_side (depth_reply E) "buy" true).
  - by apply (at_price_side (depth_reply E) "sell" false).
Qed.

(** *** Further properties: the cached payloads *)

Section Invariant.

Variable I : world -> Prop.
Hypothesis I_frame :
  forall w w', current_data w' = current_data w -> I w -> I w'.

Lemma keeps_ret {A} (a : A) : keeps I (mret a : M A).
Proof. by intros w. Qed.

Lemma keeps_lift {A} (r : result A) : keeps I (lift r).
Proof. by intros w. Qed.

Lemma keeps_bind {A B} (m : M A) (f : A -> M B) :
  keeps I m -> (forall a, keeps I (f a)) -> keeps I (m ≫= f).
Proof.
  intros Hm Hf w Hw. unfold mbind, M_bind. specialize (Hm w Hw).
  destruct (m w) as [w' [a|e]]; cbn in *; [|done]. by apply Hf.
Qed.

Lemma keeps_try_except {A} (m : M A) handlers h :
  keeps I m -> (forall e, keeps I (h e)) -> keeps I (try_except m handlers h).
Proof.
  intros Hm Hh w Hw. unfold try_except. specialize (Hm w Hw).
  destruct (m w) as [w' [a|e]]; cbn in *; [done|].
  destruct (catches handlers e); [|done]. by apply Hh.
Qed.

Lemma keeps_try_finally {A} (m : M A) final :
  keeps I m -> keeps I final -> keeps I (try_finally m final).
Proof.
  intros Hm Hf w Hw. unfold try_finally. specialize (Hm w Hw).
  destruct (m w) as [w' r]; cbn in *. specialize (Hf w' Hm).
  by destruct (final w') as [w'' [[]|e]].
Qed.

Lemma keeps_add c : keeps I (add c).
Proof. intros w. by apply I_frame. Qed.

Lemma keeps_remove c : keeps I (remove c).
Proof.
  intros w. unfold remove. destruct (decide _); [|done]. by apply I_frame.
Qed.

Lemma keeps_send_text E c message :
  respected I E -> keeps I (send_text E c message).
Proof.
  intros [Hm _] w Hw. unfold send_text. cbn. apply Hm.
  by apply (I_frame w).
Qed.

Lemma keeps_broadcast E message clients :
  respected I E -> keeps I (broadcast E message clients).
Proof.
  intros HE. induction clients as [|c rest IH]; cbn [broadcast].
  - apply keeps_ret.
  - apply keeps_bind; [|by intros _].
    apply keeps_try_except; [by apply keeps_send_text|].
    intros _. apply keeps_remove.
Qed.

Lemma keeps_fetch_and_broadcast_data E symbol :
  respected I E ->
  (forall p, fetch E symbol = Ok (Some p) -> keeps I (store symbol p)) ->
  keeps I (fetch_and_broadcast_data E symbol).
Proof.
  intros HE Hstore. apply keeps_try_except.
  2:{ intros e w. by rewrite fetch_handler_cases. }
  unfold lift, mbind at 1, M_bind at 1. intros w Hw.
  destruct (fetch E symbol) as [[p|]|e] eqn:Hf; [|done|done].
  revert w Hw. apply keeps_bind; [by apply Hstore|]. intros _.
  apply keeps_bind; [by intros w|]. intros clients.
  by apply keeps_broadcast.
Qed.

Lemma keeps_replay E c symbols : respected I E -> keeps I (replay E c symbols).
Proof.
  intros HE. induction symbols as [|s rest IH]; cbn [Relay.replay].
  - apply keeps_ret.
  - apply keeps_bind.
    + intros w. unfold load. by destruct (_ !! _).
    + intros e. apply keeps_bind; [|by intros _].
      destruct e; [apply keeps_ret|by apply keeps_send_text].
Qed.

Lemma keeps_receive_loop E : respected I E -> keeps I (receive_loop E).
Proof.
  intros [_ Hin] w. unfold receive_loop. cbn.
  revert w. induction Hin as [|f fs Hf _ IH]; intros w Hw; [done|].
  cbn. by apply IH, Hf.
Qed.

Lemma keeps_websocket_endpoint E c :
  respected I E -> keeps I (websocket_endpoint E c).
Proof.
  intros HE. apply keeps_bind; [apply keeps_lift|]. intros _.
  apply keeps_bind; [apply keeps_add|]. intros _.
  apply keeps_try_finally.
  - apply keeps_try_except; [|intros _; apply keeps_ret].
    apply keeps_bind; [by apply keeps_replay|]. intros _.
    by apply keeps_receive_loop.
  - apply keeps_bind; [by intros w|].
    intros []; [apply keeps_remove|apply keeps_ret].
Qed.

End Invariant.

Lemma fetch_well_formed E symbol p :
  fetch E symbol = Ok (Some p) -> well_formed symbol p.
Proof.
  intros (t & ob & _ & Hob & ->)%fetch_payload.
  apply depth_stage_sides in Hob as [Hb Hs].
  repeat split; cbn.
  - by apply side_of_length in Hb.
  - by apply side_of_length in Hs.
  - by exists (t_percentage_change t).
Qed.

Lemma coherent_frame w w' :
  current_data w' = current_data w -> coherent w -> coherent w'.
Proof. unfold coherent. by intros ->. Qed.

Lemma coherent_store symbol p :
  well_formed symbol p -> keeps coherent (store symbol p).
Proof.
  intros Hp w Hw s q. unfold store. cbn [fst current_data].
  destruct (decide (symbol = s)) as [->|Hne].
  - rewrite lookup_insert_eq. by intros [= <-].
  - rewrite lookup_insert_ne by done. apply Hw.
Qed.

Lemma coherent_call E symbol :
  respected coherent E -> keeps coherent (fetch_and_broadcast_data E symbol).
Proof.
  intros HE.
  apply (keeps_fetch_and_broadcast_data coherent coherent_frame E symbol HE).
  intros p Hp. by apply coherent_store, (fetch_well_formed E).
Qed.

(** X15: every cached payload is the payload of its key. The cache starts
    with none; a call of [fetch_and_broadcast_data] caches only a payload
    whose [symbol] is the key it is cached under, with at most
    [ORDER_BOOK_LIMIT] levels a side and a formatted percentage change;
    and a connection caches nothing. So if the coroutines running in the
    meantime keep this, so do a call, a turn of the producer and a
    connection. *)
Theorem cached_payloads_belong_to_their_key :
  coherent initial /\
  (forall E symbol,
     respected coherent E ->
     keeps coherent (fetch_and_broadcast_data E symbol)) /\
  (forall E,
     (forall s, respected coherent (E s)) ->
     keeps coherent (producer_cycle json_dumps E)) /\
  (forall E c,
     respected coherent E -> keeps coherent (websocket_endpoint E c)).
Proof.
  split; [|split; [|split]].
  - intros s p Hs. exfalso. revert Hs. unfold initial. cbn [current_data].
    intros Hs. apply elem_of_list_to_map_2 in Hs.
    by apply list_elem_of_fmap in Hs as (s' & [=] & _).
  - apply coherent_call.
  - intros E HE. unfold producer_cycle.
    induction CURRENCY_PAIRS as [|s rest IH]; [by intros w|].
    intros w Hw. fold (exec (gather json_dumps E (s :: rest)) w).
    rewrite gather_cons_state. by apply IH, coherent_call.
  - intros E c HE.
    exact (keeps_websocket_endpoint coherent coherent_frame E c HE).
Qed.

(** *** Further properties: the shape of the replies *)

(** X16: the ticker stage yields a ticker exactly when the reply has a
    status below 400 and a body that decodes to an object whose [ticker]
    member is an object from which lines 65-77 read their numbers. A body
    that is a list or a string, also one that contains ["ticker"], yields
    none. *)
Theorem accepted_ticker_is_an_object :
  forall r t,
    ticker_stage r = Ok (Some t) <->
    exists status d d',
      r = Response status (Ok (PDict d)) /\
      status < 400 /\
      assoc "ticker" d = Some (PDict d') /\
      read_ticker (PDict d') = Ok t.
Proof.
  intros r t. split.
  - unfold ticker_stage, get_json. destruct r as [e|status [data|e]];
      [done| |by destruct (400 <=? status)].
    destruct (400 <=? status) eqn:Hst; [done|].
    apply Z.leb_gt in Hst. cbn [mbind result_bind].
    unfold has_ticker. destruct (truthy data); [|done].
    destruct data as [| | | |s|l|d]; try done.
    + cbn. by destruct (is_substring "ticker" s).
    + cbn. by destruct (existsb (is_str "ticker") l).
    + cbn. destruct (assoc "ticker" d) as [tk|] eqn:Htk; [|done].
      cbn. destruct (read_ticker tk) as [t'|e] eqn:Hread; [|done].
      cbn. intros [= ->]. destruct tk; try done.
      by exists status, d, d0.
  - intros (status & d & d' & -> & Hst & Htk & Hread).
    unfold ticker_stage, get_json. apply Z.leb_gt in Hst. rewrite Hst.
    cbn [mbind result_bind]. unfold has_ticker.
    destruct d as [|kv d]; [done|]. cbn [truthy contains getitem].
    rewrite Htk. cbn [mbind result_bind]. by rewrite Hread.
Qed.


End Properties.

(** ** The properties on concrete inputs *)

Import Examples.

Lemma ticker_failure_changes_nothing_witness :
  ticker_failure (ticker_reply ticker_down) /\
  Relay.fetch_and_broadcast_data demo_dumps ticker_down "BTC/IDR" one_client
    = (one_client, Ok tt).
Proof.
  assert (H : ticker_failure (ticker_reply ticker_down)).
  { apply failure_status. simpl. lia. }
  split; [exact H|].
  exact (proj2 (proj2 (ticker_failure_changes_nothing demo_dumps ticker_down
                         "BTC/IDR" one_client H)) eq_refl).
Defined.

(** C3 as stated fails: a ticker answered with status 300, which is not a
    2xx status, and a well-formed body is cached and sent to the client. *)
Lemma status_300_ticker_is_published :
  let w := one_client in
  let w' := exec (Relay.fetch_and_broadcast_data demo_dumps multiple_choices
                    "BTC/IDR") w in
  (exists json, ticker_reply multiple_choices = Response 300 json) /\
  ~ (200 <= 300 < 300) /\
  current_data w !! "BTC/IDR"%string = Some Empty /\
  (exists p, current_data w' !! "BTC/IDR"%string = Some (Filled p)) /\
  sent w = [] /\
  sent w' = [{| receiver := 1%nat; text := "BTC/IDR 10.00";
                delivered := true |}].
Proof.
  repeat split.
  - eexists. reflexivity.
  - lia.
  - vm_compute. eexists. reflexivity.
Qed.

(** C1 as stated fails: the ticker stage succeeds, the depth stage raises
    [ValueError] on a [sell] entry that is not a pair, and the cached
    payload has a [buy] side that is not empty. *)
Lemma malformed_sell_keeps_buy_side :
  let w' := exec (Relay.fetch_and_broadcast_data demo_dumps bad_sell "BTC/IDR")
                 one_client in
  (exists t, ticker_stage (ticker_reply bad_sell) = Ok (Some t)) /\
  snd (depth_body (depth_reply bad_sell)) = Raise ValueError /\
  exists p,
    current_data w' !! "BTC/IDR"%string = Some (Filled p) /\
    buy_orders (order_book p) = [(of_Z 108, fdiv (of_Z 1) (of_Z 2))] /\
    buy_orders (order_book p) <> [].
Proof.
  split; [|split].
  - eexists. vm_compute. reflexivity.
  - vm_compute. reflexivity.
  - eexists. split; [vm_compute; reflexivity|]. split; [|discriminate].
    vm_compute. reflexivity.
Qed.

(** The [sell] block raises [TypeError] on an amount that is [null],
    after the [buy] block: the payload is cached and sent, with the ticker
    fields, the two bids by falling price, and no ask. *)
Lemma caught_depth_error_is_absorbed_witness :
  let w' := exec (Relay.fetch_and_broadcast_data demo_dumps null_ask "BTC/IDR")
                 one_client in
  snd (depth_body (depth_reply null_ask)) = Raise TypeError /\
  exists p,
    current_data w' !! "BTC/IDR"%string = Some (Filled p) /\
    price p = of_Z 110 /\
    percentage_change p = "10.00"%string /\
    map fst (buy_orders (order_book p)) = [of_Z 109; of_Z 108] /\
    sell_orders (order_book p) = [] /\
    sent w' = [{| receiver := 1%nat; text := "BTC/IDR 10.00";
                  delivered := true |}].
Proof.
  cbv zeta.
  assert (He : snd (depth_body (depth_reply null_ask)) = Raise TypeError)
    by (vm_compute; reflexivity).
  split; [exact He|].
  destruct (proj1 (caught_depth_error_is_absorbed demo_dumps null_ask
                     "BTC/IDR" good_numbers TypeError one_client
                     ltac:(vm_compute; reflexivity) He eq_refl))
    as (p & _ & (Hsym & Hprice & _ & _ & _ & Hpct) & Hsell & _ & _ & Hkept
          & _ & Hquiet);
    [discriminate|].
  destruct (Hkept _ (Some [(of_Z 109, fdiv (of_Z 1) (of_Z 10));
                           (of_Z 108, fdiv (of_Z 1) (of_Z 2))]) eq_refl
              ltac:(vm_compute; reflexivity)) as [_ Hbuy].
  assert (Htext : demo_dumps p = "BTC/IDR 10.00"%string).
  { unfold demo_dumps. rewrite Hsym, Hpct. vm_compute. reflexivity. }
  exists p. unfold exec. rewrite (Hquiet (fun _ _ _ => eq_refl)).
  cbn [fst]. unfold published. cbn [current_data sent].
  split; [apply lookup_insert_eq|].
  split; [exact Hprice|].
  split; [rewrite Hpct; vm_compute; reflexivity|].
  split; [rewrite Hbuy; reflexivity|].
  split; [exact Hsell|].
  rewrite Htext. vm_compute. reflexivity.
Defined.

(** A bid that is no number empties both sides; an ask that is no pair
    leaves the bid. *)
Lemma depth_parse_error_asymmetry_witness :
  (exists p,
     fetch bad_buy "BTC/IDR" = Ok (Some p) /\
     buy_orders (order_book p) = [] /\
     sell_orders (order_book p) = []) /\
  (exists p,
     fetch bad_sell "BTC/IDR" = Ok (Some p) /\
     buy_orders (order_book p) = [(of_Z 108, fdiv (of_Z 1) (of_Z 2))] /\
     sell_orders (order_book p) = []).
Proof.
  split.
  - refine (proj1
      (depth_parse_error_asymmetry demo_dumps bad_buy "BTC/IDR" good_numbers
         _ ValueError _ _ _)
      [level 108 "0.5"; PList [PStr "x"; PStr "1"]] _ _).
    + vm_compute. reflexivity.
    + reflexivity.
    + by left.
    + reflexivity.
    + vm_compute. reflexivity.
  - destruct (proj1 (proj2
      (depth_parse_error_asymmetry demo_dumps bad_sell "BTC/IDR"
         good_numbers _ ValueError ltac:(vm_compute; reflexivity) eq_refl
         ltac:(by left)))
      [level 108 "0.5"] [PList [PInt 112]]
      [(of_Z 108, fdiv (of_Z 1) (of_Z 2))]
      eq_refl ltac:(vm_compute; reflexivity) eq_refl
      ltac:(vm_compute; reflexivity))
      as (p & Hf & Hsell & _ & _ & Hbuy).
    exists p. split; [exact Hf|]. split; [|exact Hsell].
    rewrite Hbuy by (vm_compute; repeat constructor). reflexivity.
Defined.

(** C10 as stated fails: a bid of 10^400 is an entry of the [buy] list
    that fails numeric parsing, with [OverflowError]; no clause of lines
    99-103 names it, so no payload is built at all, with empty sides or
    otherwise: nothing is cached and nothing is sent. *)
Lemma overflowing_bid_builds_no_payload :
  let w' := exec (Relay.fetch_and_broadcast_data demo_dumps huge_price
                    "BTC/IDR") one_client in
  (exists t, ticker_stage (ticker_reply huge_price) = Ok (Some t)) /\
  (exists data buy,
     get_json (depth_reply huge_price) = Ok data /\
     getitem data "buy" = Ok (PList buy) /\
     parse_orders buy = Raise OverflowError) /\
  fetch huge_price "BTC/IDR" = Raise OverflowError /\
  (forall p, fetch huge_price "BTC/IDR" <> Ok (Some p)) /\
  current_data w' !! "BTC/IDR"%string = Some Empty /\
  sent w' = [].
Proof.
  assert (Hf : fetch huge_price "BTC/IDR" = Raise OverflowError)
    by (vm_compute; reflexivity).
  split; [eexists; vm_compute; reflexivity|].
  split; [do 2 eexists; repeat split; vm_compute; reflexivity|].
  split; [exact Hf|].
  split; [intros p; by rewrite Hf|].
  split; vm_compute; reflexivity.
Qed.

(** C5 as stated fails: with a price that parses to NaN between the prices
    1 and 2, [sorted] leaves the three levels as they came, and the [buy]
    side of the payload has the price 1 before the price 2. No arrangement
    of these three levels is in order. *)
Lemma nan_price_breaks_order :
  exists p,
    fetch nan_price "BTC/IDR" = Ok (Some p) /\
    map fst (buy_orders (order_book p)) = [of_Z 1; S754_nan; of_Z 2] /\
    ~ non_increasing (buy_orders (order_book p)) /\
    forall l, l ≡ₚ buy_orders (order_book p) -> ~ non_increasing l.
Proof.
  eexists. split; [vm_compute; reflexivity|]. split; [reflexivity|].
  assert (Hall : forall l : list order,
            l ≡ₚ [(of_Z 1, of_Z 1); (S754_nan, of_Z 1); (of_Z 2, of_Z 1)] ->
            ~ non_increasing l).
  { intros l Hp Hs.
    assert (Hlen : length l = 3%nat) by by rewrite Hp.
    apply non_increasing_no_nan in Hs; [|lia].
    rewrite Hp in Hs. apply Forall_cons in Hs as [_ Hs].
    apply Forall_cons in Hs as [Hnan _]. discriminate Hnan. }
  split; [by apply Hall|exact Hall].
Qed.

(** A NaN among the asks: the bids are in order all the same. *)
Lemma order_book_sorted_and_bounded_witness :
  exists p,
    fetch nan_ask "BTC/IDR" = Ok (Some p) /\
    map fst (buy_orders (order_book p)) = [of_Z 109; of_Z 108] /\
    Exists (fun f => is_nan f = true)
      (map fst (sell_orders (order_book p))) /\
    non_increasing (buy_orders (order_book p)).
Proof.
  eexists. split; [vm_compute; reflexivity|].
  split; [reflexivity|].
  split; [vm_compute; apply Exists_cons_tl, Exists_cons_hd; reflexivity|].
  refine (proj1 (proj2 (order_book_sorted_and_bounded nan_ask "BTC/IDR"
                          _ _)) _).
  - vm_compute. reflexivity.
  - vm_compute. repeat constructor.
Defined.

(** The depth request times out: the exception is not one of lines 99-103,
    and the call ends with nothing cached and nothing sent. *)
Lemma depth_timeout_aborts_fetch :
  catches depth_handlers TimeoutError = false /\
  Relay.fetch_and_broadcast_data demo_dumps depth_timeout "BTC/IDR" one_client
    = (one_client, Ok tt).
Proof.
  split; [reflexivity|].
  eapply uncaught_depth_error_aborts; [vm_compute|..]; reflexivity.
Qed.

(** C4 as stated fails: with last=1e308 and low=1e-308 the percentage
    change overflows, and the payload holds ["inf"], which has no decimal
    places. *)
Lemma overflowing_percentage_change_prints_inf :
  exists p,
    fetch overflowing "BTC/IDR" = Ok (Some p) /\
    percentage_change p = "inf"%string /\
    ~ two_decimals (percentage_change p).
Proof.
  eexists. split; [vm_compute; reflexivity|]. split; [reflexivity|].
  cbn [percentage_change]. intros (neg & n & d1 & d2 & _ & _ & _ & Hs).
  destruct (sign neg) as [|? [|? [|? [|? ?]]]],
           (decimal n) as [|? [|? [|? [|? ?]]]]; discriminate Hs.
Qed.

Lemma percentage_change_formatted_witness :
  exists p,
    fetch (calm good_ticker good_depth) "BTC/IDR" = Ok (Some p) /\
    percentage_change p = "10.00"%string /\
    two_decimals (percentage_change p).
Proof.
  eexists. split; [vm_compute; reflexivity|]. split; [reflexivity|].
  destruct (proj1 percentage_change_formatted
              (calm good_ticker good_depth) "BTC/IDR" _ eq_refl)
    as (pc & _ & Hlow & _ & _ & Hfin & _).
  apply Hfin. rewrite (Hlow eq_refl). reflexivity.
Defined.

Lemma broadcaster_removal_raises_KeyError_witness :
  snd (deliver (hangs_up 2%nat) "BTC/IDR 10.00" 2%nat two_clients)
    = Raise KeyError /\
  2%nat ∉ connected_clients
            (fst (deliver (hangs_up 2%nat) "BTC/IDR 10.00" 2%nat two_clients)).
Proof.
  exact (proj1 broadcaster_removal_raises_KeyError (hangs_up 2%nat) 2%nat
           "BTC/IDR 10.00"%string WebSocketDisconnect two_clients
           eq_refl eq_refl).
Defined.

(** C6 on a concrete run: clients 2 and 1 are registered and visited in
    this order. The send to client 2 fails while its endpoint removes it;
    line 134 then raises [KeyError], which ends the loop (and is caught by
    line 147). Client 1 is still registered and was sent nothing. *)
Theorem disconnect_during_send_aborts_broadcast :
  let E := hangs_up 2%nat in
  let w' := exec (Relay.fetch_and_broadcast_data demo_dumps E "BTC/IDR")
                 two_clients in
  elements (connected_clients two_clients) = [2%nat; 1%nat] /\
  (exists p,
     fetch E "BTC/IDR" = Ok (Some p) /\
     snd (Relay.publish demo_dumps E "BTC/IDR" p two_clients)
       = Raise KeyError) /\
  sent w' = [{| receiver := 2%nat; text := "BTC/IDR 10.00";
                delivered := false |}] /\
  elements (connected_clients w') = [1%nat] /\
  inbox 1%nat w' = [].
Proof.
  split; [vm_compute; reflexivity|].
  split; [eexists; split; vm_compute; reflexivity|].
  repeat split; vm_compute; reflexivity.
Qed.

(** C7 as stated fails: BTC/IDR and USDT/IDR are cached when client 7
    connects. While the first replayed message is pending, the fetch of
    ETH/IDR completes and broadcasts to the registered clients, client 7
    among them. Client 7 receives the live ETH/IDR message before the
    replayed USDT/IDR message, and ETH/IDR a second time from the replay. *)
Lemma live_message_overtakes_replay :
  let w' := exec (Relay.websocket_endpoint demo_dumps overtaken 7%nat)
                 two_cached in
  replayed demo_dumps two_cached = ["BTC/IDR 10.00"; "USDT/IDR 10.00"]%string /\
  inbox 7%nat two_cached = [] /\
  inbox 7%nat w' =
    ["BTC/IDR 10.00"; "ETH/IDR 20.00"; "USDT/IDR 10.00";
     "ETH/IDR 20.00"]%string /\
  take 2 (inbox 7%nat w') <> replayed demo_dumps two_cached.
Proof.
  split; [vm_compute; reflexivity|].
  split; [vm_compute; reflexivity|].
  split; [vm_compute; reflexivity|].
  vm_compute. discriminate.
Qed.

Lemma two_cached_reachable : reachable two_cached.
Proof.
  assert (Hc : cooperative (calm good_ticker good_depth)).
  { split; [intros c m w; apply rtc_refl|constructor]. }
  unfold reachable, two_cached.
  etrans; [|apply (moves_fetch_and_broadcast_data demo_dumps _ _ Hc)].
  - apply (moves_fetch_and_broadcast_data demo_dumps _ _ Hc).
    by apply (bool_decide_unpack _).
  - by apply (bool_decide_unpack _).
Qed.

(** Client 9 is registered during the replay sends to client 7: the
    replay has one send for each of the two cached symbols, in the
    configured order, and these are what client 7 has received when its
    endpoint first waits. *)
Lemma replay_on_connection_witness :
  let w0 := exec (add 7%nat) two_cached in
  let trace := replay_trace demo_dumps newcomer 7%nat CURRENCY_PAIRS w0 in
  let w1 := after_sends newcomer 7%nat (map snd trace) w0 in
  cached two_cached = ["BTC/IDR"; "USDT/IDR"]%string /\
  map fst trace = cached two_cached /\
  inbox 7%nat w1 = ["BTC/IDR 10.00"; "USDT/IDR 10.00"]%string /\
  connected_clients w1 ≠ connected_clients w0.
Proof.
  cbv zeta.
  destruct (replay_on_connection demo_dumps newcomer 7%nat two_cached
              two_cached_reachable eq_refl
              ltac:(vm_compute; repeat constructor)
              (fun _ w' => rtc_once _ _ (step_add 9%nat w')))
    as (_ & _ & Hsymbols & Hinbox & Htexts & _).
  split; [vm_compute; reflexivity|].
  split; [apply Hsymbols; by intros|].
  split.
  - rewrite Hinbox by by intros.
    rewrite Htexts by by intros. vm_compute. reflexivity.
  - intros Heq. apply (f_equal (fun C => bool_decide (9%nat ∈ C))) in Heq.
    vm_compute in Heq. discriminate Heq.
Defined.

Lemma replay_text_is_broadcast_text_witness :
  let E := calm good_ticker good_depth in
  let w' := exec (Relay.fetch_and_broadcast_data demo_dumps E "BTC/IDR")
                 two_clients in
  map text (sent w') = ["BTC/IDR 10.00"; "BTC/IDR 10.00"]%string /\
  replay_text demo_dumps w' "BTC/IDR" = Some "BTC/IDR 10.00"%string.
Proof.
  cbv zeta.
  destruct (proj2 (proj2 (proj2
    (replay_text_is_broadcast_text demo_dumps
       (calm good_ticker good_depth) "BTC/IDR"
       (make_payload "BTC/IDR"
          {| t_new_price := of_Z 110; t_high_price := of_Z 120;
             t_low_price := of_Z 100; t_volume_24h := of_Z 5000;
             t_percentage_change := of_Z 10 |}
          {| buy_orders := [(of_Z 109, fdiv (of_Z 1) (of_Z 10));
                            (of_Z 108, fdiv (of_Z 1) (of_Z 2))];
             sell_orders := [(of_Z 111, fdiv (of_Z 1) (of_Z 5));
                             (of_Z 112, fdiv (of_Z 3) (of_Z 10))] |}
          "2024-05-01T12:00:00")
       ltac:(vm_compute; reflexivity))))
    two_clients (fun _ _ _ => eq_refl)) as [Hsent Hreplay].
  split; [rewrite Hsent; vm_compute; reflexivity|exact Hreplay].
Defined.

(** ** The further properties on concrete inputs *)

(** A ticker with no [high] and no [low], and a [volume] that is no number
    beside a [vol_idr] that is one: the missing prices read as [0.0], the
    volume is that of [vol_idr], and the change is zero. *)
Lemma ticker_numbers_and_defaults_witness :
  exists t,
    read_ticker (PDict both_volumes) = Ok t /\
    t_new_price t = of_Z 110 /\
    t_high_price t = zero /\
    t_volume_24h t = of_Z 5000 /\
    t_percentage_change t = zero.
Proof.
  exists {| t_new_price := of_Z 110; t_high_price := zero;
            t_low_price := zero; t_volume_24h := of_Z 5000;
            t_percentage_change := zero |}.
  split; [|by repeat split].
  apply (proj1 ticker_numbers_and_defaults). vm_compute. by repeat split.
Defined.

(** A depth body without [buy]: the bids are empty, the asks are kept. *)
Lemma absent_side_is_empty_witness :
  let data := PDict [("sell", PList [level 112 "0.3"])]%string in
  absent data "buy" /\
  exists p,
    fetch no_buy "BTC/IDR" = Ok (Some p) /\
    buy_orders (order_book p) = [] /\
    map fst (sell_orders (order_book p)) = [of_Z 112].
Proof.
  cbv zeta.
  assert (Ha : absent (PDict [("sell", PList [level 112 "0.3"])]%string) "buy")
    by (left; reflexivity).
  split; [exact Ha|].
  eexists. split.
  - apply (proj1 (absent_side_is_empty no_buy "BTC/IDR" good_numbers _
                    ltac:(vm_compute; reflexivity) eq_refl) Ha
             (Some [(of_Z 112, fdiv (of_Z 3) (of_Z 10))])).
    vm_compute. reflexivity.
  - split; reflexivity.
Defined.

(** A bid too large for a float: [float] raises [OverflowError], which no
    clause of lines 99-103 names, and the call ends with nothing cached and
    nothing sent. *)
Lemma depth_exception_outside_handlers_aborts_witness :
  snd (depth_body (depth_reply huge_price)) = Raise OverflowError /\
  Relay.fetch_and_broadcast_data demo_dumps huge_price "BTC/IDR" one_client
    = (one_client, Ok tt).
Proof.
  assert (Hr : snd (depth_body (depth_reply huge_price)) = Raise OverflowError)
    by (vm_compute; reflexivity).
  split; [exact Hr|].
  apply (proj2 (depth_exception_outside_handlers_aborts demo_dumps)
           huge_price "BTC/IDR" good_numbers OverflowError one_client);
    [vm_compute; reflexivity|exact Hr|reflexivity].
Defined.

(** Twelve bids: the ten highest are kept. *)
Lemma sides_keep_the_best_levels_witness :
  exists p,
    fetch deep "BTC/IDR" = Ok (Some p) /\
    map fst (buy_orders (order_book p)) =
      map of_Z [112; 112; 111; 110; 109; 108; 107; 106; 105; 104] /\
    exists os,
      length os = 12%nat /\ best_of true os (buy_orders (order_book p)).
Proof.
  eexists. split; [vm_compute; reflexivity|].
  split; [vm_compute; reflexivity|].
  match goal with
  | |- context [buy_orders (order_book ?p)] =>
      assert (Hf : fetch deep "BTC/IDR" = Ok (Some p))
        by (vm_compute; reflexivity);
      destruct (sides_keep_the_best_levels deep "BTC/IDR" p Hf
                  ltac:(vm_compute; repeat constructor))
        as [[Hnil|(data & entries & os & Hd & Hg & Hp & Hbest)] _]
  end.
  - discriminate Hnil.
  - exists os. split; [|exact Hbest].
    vm_compute in Hd. injection Hd as <-.
    vm_compute in Hg. injection Hg as <-.
    vm_compute in Hp. injection Hp as <-. reflexivity.
Defined.

(** The best bid and the best ask of the usual depth. *)
Lemma best_prices_are_extremes_witness :
  let data := depth_json [level 108 "0.5"; level 109 "0.1"]
                         [level 112 "0.3"; level 111 "0.2"] in
  exists p,
    fetch (calm good_ticker good_depth) "BTC/IDR" = Ok (Some p) /\
    best_price (buy_orders (order_book p)) = of_Z 109 /\
    best_price (sell_orders (order_book p)) = of_Z 111 /\
    of_Z 109 ∈ map fst (parsed_side data "buy") /\
    (forall o, o ∈ parsed_side data "sell" -> fleb (of_Z 111) (fst o) = true).
Proof.
  cbv zeta. eexists. split; [vm_compute; reflexivity|].
  split; [reflexivity|]. split; [reflexivity|].
  match goal with
  | |- context [parsed_side ?data _] =>
      pose proof (best_prices_are_extremes (calm good_ticker good_depth)
                    "BTC/IDR" _ data ltac:(vm_compute; reflexivity) eq_refl
                    ltac:(vm_compute; repeat constructor))
        as (_ & _ & Hb & Hs)
  end.
  cbv zeta in Hb, Hs. split.
  - apply Hb. discriminate.
  - apply Hs. discriminate.
Defined.


(** Two clients, and the send to client 2 fails: client 1 receives the
    text once and stays, client 2 receives nothing and is removed. *)
Lemma broadcast_delivers_once_and_drops_failing_witness :
  let w' := exec (Relay.fetch_and_broadcast_data demo_dumps (deaf 2%nat)
                    "BTC/IDR") two_clients in
  (1%nat ∈ connected_clients w' /\ 2%nat ∉ connected_clients w') /\
  inbox 1%nat w' = ["BTC/IDR 10.00"]%string /\
  inbox 2%nat w' = [].
Proof.
  cbv zeta.
  eassert (Hf : fetch (deaf 2%nat) "BTC/IDR" = Ok (Some _))
    by (vm_compute; reflexivity).
  destruct (broadcast_delivers_once_and_drops_failing demo_dumps (deaf 2%nat)
              "BTC/IDR" _ two_clients (fun _ _ _ => eq_refl) Hf)
    as (_ & Hmem & Hinbox).
  split; [split|split].
  - apply Hmem. split; [|reflexivity].
    unfold two_clients, one_client, exec, add. cbn. set_solver.
  - intros [_ Ho]%Hmem. discriminate Ho.
  - rewrite Hinbox. rewrite bool_decide_eq_true_2; [reflexivity|].
    split; [|reflexivity].
    unfold two_clients, one_client, exec, add. cbn. set_solver.
  - rewrite Hinbox. rewrite bool_decide_eq_false_2; [reflexivity|].
    intros [_ Ho]. discriminate Ho.
Defined.

(** The same call leaves the entry of ETH/IDR empty and fills that of
    BTC/IDR with a payload for BTC/IDR. *)
Lemma call_touches_only_its_symbol_witness :
  let w' := exec (Relay.fetch_and_broadcast_data demo_dumps (deaf 2%nat)
                    "BTC/IDR") two_clients in
  current_data w' !! "ETH/IDR"%string = Some Empty /\
  exists p,
    current_data w' !! "BTC/IDR"%string = Some (Filled p) /\
    symbol p = "BTC/IDR"%string.
Proof.
  cbv zeta.
  destruct (call_touches_only_its_symbol demo_dumps (deaf 2%nat) "BTC/IDR"
              two_clients (fun _ _ _ => eq_refl))
    as (Hother & _ & [Hsame|(p & _ & Hsym & Hp)]).
  - apply (f_equal sent) in Hsame. vm_compute in Hsame. discriminate Hsame.
  - split; [|by exists p].
    rewrite Hother by discriminate. vm_compute. reflexivity.
Defined.

(** A cached payload outlives a fetch whose ticker is down. *)
Lemma cached_payload_is_never_dropped_witness :
  filled "BTC/IDR"
    (exec (Relay.fetch_and_broadcast_data demo_dumps ticker_down "BTC/IDR")
       two_cached).
Proof.
  apply (proj1 (proj2 (cached_payload_is_never_dropped demo_dumps))).
  - split; [intros c m w; apply rtc_refl|constructor].
  - by apply (bool_decide_unpack _).
  - eexists. vm_compute. reflexivity.
Defined.


(** A connection to a cache with two payloads, whose first send fails: one
    call of [send_text], the second payload is not sent, the client is
    deregistered. *)
Lemma connection_in_isolation_witness :
  Relay.websocket_endpoint demo_dumps (deaf 7%nat) 7%nat two_cached =
    ({| current_data := current_data two_cached;
        connected_clients := connected_clients two_cached ∖ {[7%nat]};
        sent := [{| receiver := 7%nat; text := "BTC/IDR 10.00";
                    delivered := false |}] |}, Ok tt).
Proof.
  rewrite (connection_in_isolation demo_dumps (deaf 7%nat) 7%nat two_cached
             two_cached_reachable eq_refl (fun _ _ => eq_refl)
             (List.Forall_nil _)).
  do 2 f_equal; vm_compute; reflexivity.
Defined.

(** A first turn of the producer in which the ticker of ETH/IDR is down
    and the calls complete in the reverse of the configured order: the
    connected client receives the seven other texts in that order, and a
    client connecting afterwards is replayed the same seven in the
    configured order. *)
Lemma turn_and_replay_agree_witness :
  let w' := exec (gather demo_dumps eth_down (rev CURRENCY_PAIRS))
              one_client in
  inbox 1%nat w' =
    ["SOL/IDR 10.00"; "ADA/IDR 10.00"; "ETC/IDR 10.00"; "XRP/IDR 10.00";
     "DOGE/IDR 10.00"; "USDT/IDR 10.00"; "BTC/IDR 10.00"]%string /\
  replayed demo_dumps w' = rev (inbox 1%nat w').
Proof.
  cbv zeta.
  assert (Hq : forall s, quiet (eth_down s)).
  { intros s c m w. unfold eth_down.
    by destruct (String.eqb s "ETH/IDR"). }
  assert (Ho : forall s c m, send_outcome (eth_down s) c m = None).
  { intros s c m. unfold eth_down. by destruct (String.eqb s "ETH/IDR"). }
  destruct (turn_and_replay_agree demo_dumps eth_down (rev CURRENCY_PAIRS)
              one_client (rev_perm CURRENCY_PAIRS) Hq Ho)
    as (_ & Hin & _ & _ & Hfresh).
  assert (H1 : 1%nat ∈ connected_clients one_client).
  { unfold one_client, exec, add. cbn. set_solver. }
  destruct (Hfresh ltac:(vm_compute; reflexivity)) as [Hconf _].
  rewrite (Hin 1%nat H1), Hconf.
  split; vm_compute; reflexivity.
Defined.

(** Two bids at 112: both are kept, in the order of the exchange. *)
Lemma levels_at_one_price_keep_their_order_witness :
  let data := depth_json
       [level 101 "1"; level 112 "2"; level 103 "3"; level 104 "4";
        level 105 "5"; level 106 "6"; level 107 "7"; level 108 "8";
        level 109 "9"; level 110 "10"; level 111 "11"; level 112 "12"]
       [level 120 "1"; level 119 "2"] in
  exists p,
    fetch deep "BTC/IDR" = Ok (Some p) /\
    map snd (at_price (of_Z 112) (buy_orders (order_book p))) =
      [of_Z 2; of_Z 12] /\
    at_price (of_Z 112) (buy_orders (order_book p))
      `prefix_of` at_price (of_Z 112) (parsed_side data "buy").
Proof.
  cbv zeta. eexists. split; [vm_compute; reflexivity|].
  split; [vm_compute; reflexivity|].
  match goal with
  | |- context [parsed_side ?data _] =>
      apply (levels_at_one_price_keep_their_order deep "BTC/IDR" _ data
               ltac:(vm_compute; reflexivity) eq_refl
               ltac:(vm_compute; repeat constructor) (of_Z 112))
  end.
Defined.


(** The ticker of ETH/IDR does not decode and its text does not read: the
    seven other calls of the first turn publish, the exception leaves the
    producer, and of the three turns asked for only the first has run. *)
Lemma only_the_message_of_line_142_stops_the_producer_witness :
  let run := producer_task demo_dumps (fun _ => eth_undecodable)
               (fun _ w => w) 3 one_client in
  snd run = Raise ValueError /\
  inbox 1%nat (fst run) =
    ["BTC/IDR 10.00"; "USDT/IDR 10.00"; "DOGE/IDR 10.00"; "XRP/IDR 10.00";
     "ETC/IDR 10.00"; "ADA/IDR 10.00"; "SOL/IDR 10.00"]%string.
Proof.
  cbv zeta.
  destruct (proj2 (proj2 (proj2
    (only_the_message_of_line_142_stops_the_producer demo_dumps)))
    (fun _ => eth_undecodable) (fun _ w => w) 2%nat one_client
    "ETH/IDR"%string ValueError
    ltac:(by apply (bool_decide_unpack _)) eq_refl eq_refl) as [e' Hrun].
  rewrite Hrun. cbn [fst snd]. split.
  - apply (f_equal snd) in Hrun. cbn [snd] in Hrun. rewrite <- Hrun.
    vm_compute. reflexivity.
  - vm_compute. reflexivity.
Defined.
